(** * Exercise monitoring vest: the sampling loop and its three extractors

    A shallow embedding of [EXERCISE_VEST_MAIN.ino] (cardiac peak detector,
    respiratory breath-state detector, GSR classifier, and the [setup]/[loop]
    scheduler that drives them, the display) and of the LED band sketch
    [respiratory_band.ino], together with the properties the design
    document states about them and further properties of the code.

    The sketch is built for the Arduino Mega 2560 (README: "Tools > Board >
    Arduino Mega 2560"), an ATmega2560: [int] is 16 bits wide, [long] and
    [unsigned long] are 32 bits wide and [double] is the IEEE binary32 format.
    Integers are modelled as [Z] with the wrap-around of the target written
    out at every operation that can leave the type's range; the
    floating-point expressions of the sketch are modelled with the
    [SpecFloat] operations at precision 24. *)

From Stdlib Require Import Strings.String.
From Stdlib Require Import ZArith List Bool Lia.
From Stdlib Require Import Floats.SpecFloat.
Import ListNotations.
Local Open Scope Z_scope.

(* ================================================================== *)
(** * Part I: the model *)
(* ================================================================== *)

(** ** Target arithmetic *)

(** [int]: 16-bit two's complement. *)
Definition int16 (x : Z) : Z := (x + 32768) mod 65536 - 32768.

(** [long]: 32-bit two's complement. *)
Definition int32 (x : Z) : Z := (x + 2147483648) mod 4294967296 - 2147483648.

(** [unsigned long]: arithmetic modulo 2^32. *)
Definition uint32 (x : Z) : Z := x mod 4294967296.

(** Readings of the 10-bit converter behind [analogRead]. *)
Definition adc (x : Z) : Prop := 0 <= x <= 1023.

(** Values of [millis()]. *)
Definition clock (t : Z) : Prop := 0 <= t < 4294967296.

(** Operations whose result C++ leaves undefined.  The target does not trap
    on them: it delivers some value and goes on.  Each such operation is
    logged as a [fault], and the value it delivers is a parameter of the
    model ([Target]), so that nothing proved below depends on it. *)
Inductive fault : Type :=
| DivisionByZero        (* [a / 0] *)
| FloatToInt.           (* conversion of a NaN or of a value outside [int] *)

Class Target : Type := {
  undef_div : Z -> Z;            (* quotient delivered for [a / 0] *)
  undef_fix : spec_float -> Z    (* [int] delivered for an invalid conversion *)
}.

(** A computation delivers a value and the faults it ran into. *)
Definition M (A : Type) : Type := (A * list fault)%type.

Definition ret {A : Type} (a : A) : M A := (a, []).

Definition bind {A B : Type} (m : M A) (k : A -> M B) : M B :=
  let (a, fa) := m in
  let (b, fb) := k a in
  (b, fa ++ fb).

Notation "x <- m ;; k" := (bind m (fun x => k))
  (at level 61, m at next level, right associativity).

Definition value {A : Type} (m : M A) : A := fst m.
Definition faults {A : Type} (m : M A) : list fault := snd m.

(** C++ division: truncation toward zero; a zero divisor is a fault. *)
Definition c_div `{Target} (a b : Z) : M Z :=
  if b =? 0 then (undef_div a, [DivisionByZero]) else ret (Z.quot a b).

(** Array cells: [a[i]] and [a[i] = v].  Every index the sketch uses is
    reduced modulo the array's length first. *)
Definition load (a : list Z) (i : Z) : Z := nth (Z.to_nat i) a 0.

Fixpoint store_nat (a : list Z) (i : nat) (v : Z) : list Z :=
  match a, i with
  | [], _ => []
  | _ :: t, O => v :: t
  | h :: t, S j => h :: store_nat t j v
  end.

Definition store (a : list Z) (i : Z) (v : Z) : list Z :=
  store_nat a (Z.to_nat i) v.

(** The indices of [for (int i = 0; i < n; i++)]. *)
Definition indices (n : nat) : list Z := map Z.of_nat (seq 0 n).

(** ** binary32 *)

Module F32.
Definition prec : Z := 24.
Definition emax : Z := 128.

(** Conversion of an integer, rounding to nearest even. *)
Definition of_Z (n : Z) : spec_float := binary_normalize prec emax n 0 false.

Definition mul : spec_float -> spec_float -> spec_float := SFmul prec emax.
Definition add : spec_float -> spec_float -> spec_float := SFadd prec emax.
Definition sub : spec_float -> spec_float -> spec_float := SFsub prec emax.
Definition div : spec_float -> spec_float -> spec_float := SFdiv prec emax.
Definition sqrt : spec_float -> spec_float := SFsqrt prec emax.

(** The literals [0.6], [0.8] and [0.5]: the binary32 numbers nearest to
    6/10, 8/10 and 5/10. *)
Definition c06 : spec_float := Eval vm_compute in div (of_Z 6) (of_Z 10).
Definition c08 : spec_float := Eval vm_compute in div (of_Z 8) (of_Z 10).
Definition c05 : spec_float := Eval vm_compute in div (of_Z 5) (of_Z 10).

(** Truncation toward zero of a finite number. *)
Definition trunc (x : spec_float) : option Z :=
  match x with
  | S754_zero _ => Some 0
  | S754_finite s m e =>
      let mag := if 0 <=? e then Z.shiftl (Zpos m) e
                 else Z.shiftr (Zpos m) (- e) in
      Some (if s then - mag else mag)
  | S754_infinity _ | S754_nan => None
  end.

(** Conversion to [int]: truncation toward zero, defined when the
    truncated value is an [int]. *)
Definition to_int `{Target} (x : spec_float) : M Z :=
  match trunc x with
  | Some z =>
      if (-32768 <=? z) && (z <=? 32767) then ret z
      else (int16 (undef_fix x), [FloatToInt])
  | None => (int16 (undef_fix x), [FloatToInt])
  end.
End F32.

(** ** Interval averager

    Lines 119-131 and 213-225 are the same loop over the ten interval
    slots: [sum] and [count] are [int]; only slots holding a positive value
    are averaged; the rate is [60000 / avg], a [long] division whose
    quotient is stored in an [int]. *)

(** The loop body on the slot holding [v]. *)
Definition sumCountStep (acc : Z * Z) (v : Z) : Z * Z :=
  let (sum, count) := acc in
  if v >? 0 then (int16 (sum + v), int16 (count + 1)) else (sum, count).

Definition sumCount (intervals : list Z) : Z * Z :=
  fold_left (fun acc i => sumCountStep acc (load intervals i))
            (indices 10) (0, 0).

Definition averageRate `{Target} (intervals : list Z) (rate : Z) : M Z :=
  let (sum, count) := sumCount intervals in
  if count >? 0 then
    avg <- c_div sum count ;;
    r <- c_div 60000 (int16 avg) ;;
    ret (int16 r)
  else ret rate.

(** ** Cardiac extractor (lines 47-142) *)

Module ECG.

Definition BUFFER_SIZE : Z := 100.

Record ECGProcessor : Type := {
  ecgBuffer : list Z;
  bufferIndex : Z;
  lastPeakTime : Z;
  rrIntervals : list Z;
  rrIndex : Z;
  currentHeartRate : Z;
  peakThreshold : Z;
  signalMin : Z;
  signalMax : Z;
  leadOff : bool;
  inPeak : bool;
  peakValue : Z
}.

(** The global [ecgProc]: static storage is zeroed before the member
    initialisers run, so both arrays start as zeros. *)
Definition init : ECGProcessor := {|
  ecgBuffer := repeat 0 100;
  bufferIndex := 0;
  lastPeakTime := 0;
  rrIntervals := repeat 0 10;
  rrIndex := 0;
  currentHeartRate := 0;
  peakThreshold := 600;
  signalMin := 1023;
  signalMax := 0;
  leadOff := false;
  inPeak := false;
  peakValue := 0
|}.

(** Lines 72-73: the lead-off exit. *)
Definition markLeadOff (s : ECGProcessor) : ECGProcessor := {|
  ecgBuffer := ecgBuffer s;
  bufferIndex := bufferIndex s;
  lastPeakTime := lastPeakTime s;
  rrIntervals := rrIntervals s;
  rrIndex := rrIndex s;
  currentHeartRate := 0;
  peakThreshold := peakThreshold s;
  signalMin := signalMin s;
  signalMax := signalMax s;
  leadOff := true;
  inPeak := inPeak s;
  peakValue := peakValue s
|}.

(** Lines 76-84: clear the flag, push the sample, track min and max. *)
Definition pushSample (rawValue : Z) (s : ECGProcessor) : ECGProcessor := {|
  ecgBuffer := store (ecgBuffer s) (bufferIndex s) rawValue;
  bufferIndex := Z.rem (int16 (bufferIndex s + 1)) BUFFER_SIZE;
  lastPeakTime := lastPeakTime s;
  rrIntervals := rrIntervals s;
  rrIndex := rrIndex s;
  currentHeartRate := currentHeartRate s;
  peakThreshold := peakThreshold s;
  signalMin := if rawValue <? signalMin s then rawValue else signalMin s;
  signalMax := if rawValue >? signalMax s then rawValue else signalMax s;
  leadOff := false;
  inPeak := inPeak s;
  peakValue := peakValue s
|}.

Definition withThreshold (thr mn mx : Z) (s : ECGProcessor) : ECGProcessor := {|
  ecgBuffer := ecgBuffer s;
  bufferIndex := bufferIndex s;
  lastPeakTime := lastPeakTime s;
  rrIntervals := rrIntervals s;
  rrIndex := rrIndex s;
  currentHeartRate := currentHeartRate s;
  peakThreshold := thr;
  signalMin := mn;
  signalMax := mx;
  leadOff := leadOff s;
  inPeak := inPeak s;
  peakValue := peakValue s
|}.

(** Lines 87-94: on wrap-around of the write cursor,
    [peakThreshold = signalMin + (range * 0.6)], then
    [signalMin = signalMax - (range * 0.8)] and
    [signalMax = signalMin + (range * 0.8)] with the new [signalMin]. *)
Definition updateThreshold `{Target} (s : ECGProcessor) : M ECGProcessor :=
  if bufferIndex s =? 0 then
    let range := int16 (signalMax s - signalMin s) in
    thr <- F32.to_int (F32.add (F32.of_Z (signalMin s))
                               (F32.mul (F32.of_Z range) F32.c06)) ;;
    mn <- F32.to_int (F32.sub (F32.of_Z (signalMax s))
                              (F32.mul (F32.of_Z range) F32.c08)) ;;
    mx <- F32.to_int (F32.add (F32.of_Z mn)
                              (F32.mul (F32.of_Z range) F32.c08)) ;;
    ret (withThreshold thr mn mx s)
  else ret s.

Definition withPeak (inP : bool) (pv : Z) (s : ECGProcessor) : ECGProcessor := {|
  ecgBuffer := ecgBuffer s;
  bufferIndex := bufferIndex s;
  lastPeakTime := lastPeakTime s;
  rrIntervals := rrIntervals s;
  rrIndex := rrIndex s;
  currentHeartRate := currentHeartRate s;
  peakThreshold := peakThreshold s;
  signalMin := signalMin s;
  signalMax := signalMax s;
  leadOff := leadOff s;
  inPeak := inP;
  peakValue := pv
|}.

Definition withIntervals (iv : list Z) (idx hr : Z) (s : ECGProcessor)
  : ECGProcessor := {|
  ecgBuffer := ecgBuffer s;
  bufferIndex := bufferIndex s;
  lastPeakTime := lastPeakTime s;
  rrIntervals := iv;
  rrIndex := idx;
  currentHeartRate := hr;
  peakThreshold := peakThreshold s;
  signalMin := signalMin s;
  signalMax := signalMax s;
  leadOff := leadOff s;
  inPeak := inPeak s;
  peakValue := peakValue s
|}.

Definition withLastPeakTime (t : Z) (s : ECGProcessor) : ECGProcessor := {|
  ecgBuffer := ecgBuffer s;
  bufferIndex := bufferIndex s;
  lastPeakTime := t;
  rrIntervals := rrIntervals s;
  rrIndex := rrIndex s;
  currentHeartRate := currentHeartRate s;
  peakThreshold := peakThreshold s;
  signalMin := signalMin s;
  signalMax := signalMax s;
  leadOff := leadOff s;
  inPeak := inPeak s;
  peakValue := peakValue s
|}.

(** Line 115: the validity test on a candidate RR interval. *)
Definition rrValid (rrInterval : Z) : bool :=
  (rrInterval >? 300) && (rrInterval <? 2000).

(** Lines 115-132: a valid candidate is stored and the rate recomputed;
    any other candidate is dropped. *)
Definition admitInterval `{Target} (rrInterval : Z) (s : ECGProcessor)
  : M ECGProcessor :=
  if rrValid rrInterval then
    let iv := store (rrIntervals s) (rrIndex s) rrInterval in
    let idx := Z.rem (int16 (rrIndex s + 1)) 10 in
    hr <- averageRate iv (currentHeartRate s) ;;
    ret (withIntervals iv idx hr s)
  else ret s.

(** Line 112: [int rrInterval = now - lastPeakTime]. *)
Definition candidate (now : Z) (s : ECGProcessor) : Z :=
  int16 (uint32 (now - lastPeakTime s)).

(** Lines 107-134: the falling edge of a peak. *)
Definition peakComplete `{Target} (now : Z) (s : ECGProcessor)
  : M ECGProcessor :=
  let s1 := withPeak false (peakValue s) s in
  s2 <- (if lastPeakTime s1 >? 0
         then admitInterval (candidate now s1) s1
         else ret s1) ;;
  ret (withLastPeakTime now s2).

(** Lines 97-136. *)
Definition detectPeak `{Target} (rawValue now : Z) (s : ECGProcessor)
  : M ECGProcessor :=
  if (rawValue >? peakThreshold s) && negb (inPeak s) then
    ret (withPeak true rawValue s)
  else if inPeak s then
    if rawValue >? peakValue s then ret (withPeak true rawValue s)
    else if rawValue <? peakThreshold s then peakComplete now s
    else ret s
  else ret s.

(** [processECGSample]: [loPlus] and [loMinus] are the two
    [digitalRead]s of line 71, [now] is the value [millis()] has during
    the call. *)
Definition processECGSample `{Target}
  (loPlus loMinus rawValue now : Z) (s : ECGProcessor) : M ECGProcessor :=
  if (loPlus =? 1) || (loMinus =? 1) then ret (markLeadOff s)
  else
    s1 <- updateThreshold (pushSample rawValue s) ;;
    detectPeak rawValue now s1.

Definition getHeartRate (s : ECGProcessor) : Z :=
  if leadOff s then 0 else currentHeartRate s.

Definition isLeadOff (s : ECGProcessor) : bool := leadOff s.

Definition getRawValue (s : ECGProcessor) : Z :=
  load (ecgBuffer s)
       (Z.rem (int16 (int16 (bufferIndex s + BUFFER_SIZE) - 1)) BUFFER_SIZE).

End ECG.

(** ** Respiratory extractor (lines 145-241) *)

Module Resp.

Definition BUFFER_SIZE : Z := 60.

Inductive BreathState : Type := INHALE | EXHALE | HOLD.

Definition BreathState_eqb (a b : BreathState) : bool :=
  match a, b with
  | INHALE, INHALE | EXHALE, EXHALE | HOLD, HOLD => true
  | _, _ => false
  end.

Record RespiratoryProcessor : Type := {
  respBuffer : list Z;
  bufferIndex : Z;
  currentState : BreathState;
  lastState : BreathState;
  lastBreathTime : Z;
  breathIntervals : list Z;
  breathIndex : Z;
  currentBreathRate : Z;
  baseline : Z;
  inhaleThreshold : Z;
  exhaleThreshold : Z
}.

Definition init : RespiratoryProcessor := {|
  respBuffer := repeat 0 60;
  bufferIndex := 0;
  currentState := HOLD;
  lastState := HOLD;
  lastBreathTime := 0;
  breathIntervals := repeat 0 10;
  breathIndex := 0;
  currentBreathRate := 0;
  baseline := 512;
  inhaleThreshold := 530;
  exhaleThreshold := 494
|}.

(** Lines 168-169. *)
Definition pushSample (rawValue : Z) (s : RespiratoryProcessor)
  : RespiratoryProcessor := {|
  respBuffer := store (respBuffer s) (bufferIndex s) rawValue;
  bufferIndex := Z.rem (int16 (bufferIndex s + 1)) BUFFER_SIZE;
  currentState := currentState s;
  lastState := lastState s;
  lastBreathTime := lastBreathTime s;
  breathIntervals := breathIntervals s;
  breathIndex := breathIndex s;
  currentBreathRate := currentBreathRate s;
  baseline := baseline s;
  inhaleThreshold := inhaleThreshold s;
  exhaleThreshold := exhaleThreshold s
|}.

Definition withThresholds (b inh exh : Z) (s : RespiratoryProcessor)
  : RespiratoryProcessor := {|
  respBuffer := respBuffer s;
  bufferIndex := bufferIndex s;
  currentState := currentState s;
  lastState := lastState s;
  lastBreathTime := lastBreathTime s;
  breathIntervals := breathIntervals s;
  breathIndex := breathIndex s;
  currentBreathRate := currentBreathRate s;
  baseline := b;
  inhaleThreshold := inh;
  exhaleThreshold := exh
|}.

(** Lines 173-177: [long sum] over the window. *)
Definition windowSum (buf : list Z) : Z :=
  fold_left (fun sum i => int32 (sum + load buf i)) (indices 60) 0.

(** Lines 180-184: [int diff], the [int] product [diff * diff], added to
    [long variance]. *)
Definition windowVariance (buf : list Z) (b : Z) : Z :=
  fold_left
    (fun variance i =>
       let diff := int16 (load buf i - b) in
       int32 (variance + int16 (diff * diff)))
    (indices 60) 0.

(** Lines 172-189: on wrap-around of the write cursor the baseline becomes
    the window mean and the thresholds [baseline +- stdDev * 0.5]. *)
Definition updateBaseline `{Target} (s : RespiratoryProcessor)
  : M RespiratoryProcessor :=
  if bufferIndex s =? 0 then
    let b := int16 (Z.quot (windowSum (respBuffer s)) BUFFER_SIZE) in
    let variance := windowVariance (respBuffer s) b in
    stdDev <- F32.to_int (F32.sqrt (F32.of_Z (Z.quot variance BUFFER_SIZE))) ;;
    inh <- F32.to_int (F32.add (F32.of_Z b)
                               (F32.mul (F32.of_Z stdDev) F32.c05)) ;;
    exh <- F32.to_int (F32.sub (F32.of_Z b)
                               (F32.mul (F32.of_Z stdDev) F32.c05)) ;;
    ret (withThresholds b inh exh s)
  else ret s.

(** Lines 194-200: the phase of a sample against the threshold pair. *)
Definition phaseOf (rawValue : Z) (s : RespiratoryProcessor) : BreathState :=
  if rawValue >? inhaleThreshold s then INHALE
  else if rawValue <? exhaleThreshold s then EXHALE
  else HOLD.

(** Lines 192-200: [lastState = currentState], then the new phase. *)
Definition classify (rawValue : Z) (s : RespiratoryProcessor)
  : RespiratoryProcessor := {|
  respBuffer := respBuffer s;
  bufferIndex := bufferIndex s;
  currentState := phaseOf rawValue s;
  lastState := currentState s;
  lastBreathTime := lastBreathTime s;
  breathIntervals := breathIntervals s;
  breathIndex := breathIndex s;
  currentBreathRate := currentBreathRate s;
  baseline := baseline s;
  inhaleThreshold := inhaleThreshold s;
  exhaleThreshold := exhaleThreshold s
|}.

Definition withIntervals (iv : list Z) (idx rate : Z)
  (s : RespiratoryProcessor) : RespiratoryProcessor := {|
  respBuffer := respBuffer s;
  bufferIndex := bufferIndex s;
  currentState := currentState s;
  lastState := lastState s;
  lastBreathTime := lastBreathTime s;
  breathIntervals := iv;
  breathIndex := idx;
  currentBreathRate := rate;
  baseline := baseline s;
  inhaleThreshold := inhaleThreshold s;
  exhaleThreshold := exhaleThreshold s
|}.

Definition withLastBreathTime (t : Z) (s : RespiratoryProcessor)
  : RespiratoryProcessor := {|
  respBuffer := respBuffer s;
  bufferIndex := bufferIndex s;
  currentState := currentState s;
  lastState := lastState s;
  lastBreathTime := t;
  breathIntervals := breathIntervals s;
  breathIndex := breathIndex s;
  currentBreathRate := currentBreathRate s;
  baseline := baseline s;
  inhaleThreshold := inhaleThreshold s;
  exhaleThreshold := exhaleThreshold s
|}.

(** Line 203: the edge that completes a breath cycle. *)
Definition breathEdge (s : RespiratoryProcessor) : bool :=
  BreathState_eqb (currentState s) INHALE
  && BreathState_eqb (lastState s) EXHALE.

(** Line 209. *)
Definition breathValid (breathInterval : Z) : bool :=
  (breathInterval >? 1500) && (breathInterval <? 10000).

(** Lines 209-226. *)
Definition admitInterval `{Target} (breathInterval : Z)
  (s : RespiratoryProcessor) : M RespiratoryProcessor :=
  if breathValid breathInterval then
    let iv := store (breathIntervals s) (breathIndex s) breathInterval in
    let idx := Z.rem (int16 (breathIndex s + 1)) 10 in
    rate <- averageRate iv (currentBreathRate s) ;;
    ret (withIntervals iv idx rate s)
  else ret s.

(** Line 206: [int breathInterval = now - lastBreathTime]. *)
Definition candidate (now : Z) (s : RespiratoryProcessor) : Z :=
  int16 (uint32 (now - lastBreathTime s)).

(** Lines 204-228: the body run on a breath edge. *)
Definition breathComplete `{Target} (now : Z) (s : RespiratoryProcessor)
  : M RespiratoryProcessor :=
  s1 <- (if lastBreathTime s >? 0
         then admitInterval (candidate now s) s
         else ret s) ;;
  ret (withLastBreathTime now s1).

(** [processRespSample]; [now] is the value [millis()] has during the
    call. *)
Definition processRespSample `{Target} (rawValue now : Z)
  (s : RespiratoryProcessor) : M RespiratoryProcessor :=
  s1 <- updateBaseline (pushSample rawValue s) ;;
  let s2 := classify rawValue s1 in
  if breathEdge s2 then breathComplete now s2 else ret s2.

Definition getBreathRate (s : RespiratoryProcessor) : Z := currentBreathRate s.

Definition getRawValue (s : RespiratoryProcessor) : Z :=
  load (respBuffer s)
       (Z.rem (int16 (int16 (bufferIndex s + BUFFER_SIZE) - 1)) BUFFER_SIZE).

(** Lines 234-240. *)
Definition getStateString (s : RespiratoryProcessor) : string :=
  match currentState s with
  | INHALE => "INH"
  | EXHALE => "EXH"
  | HOLD => "HLD"
  end%string.

(** What one call makes observable about the breath detector: the phase
    it computed, whether it took the breath edge, and the candidate
    interval it formed there (none when no earlier breath is on record). *)
Record Observation : Type := {
  phase : BreathState;
  counted : bool;
  interval : option Z;
  rate : Z
}.

(** The state in which line 203 tests for a breath edge. *)
Definition classified `{Target} (rawValue : Z) (s : RespiratoryProcessor)
  : RespiratoryProcessor :=
  classify rawValue (value (updateBaseline (pushSample rawValue s))).

Definition observe `{Target} (rawValue now : Z) (s : RespiratoryProcessor)
  : Observation :=
  let s2 := classified rawValue s in
  {| phase := currentState s2;
     counted := breathEdge s2;
     interval := if breathEdge s2 && (lastBreathTime s2 >? 0)
                 then Some (candidate now s2) else None;
     rate := getBreathRate (value (processRespSample rawValue now s)) |}.

(** Feeding a stream of (sample, clock reading) pairs, one call each. *)
Fixpoint run `{Target} (inputs : list (Z * Z)) (s : RespiratoryProcessor)
  : list Observation * M RespiratoryProcessor :=
  match inputs with
  | [] => ([], ret s)
  | (rawValue, now) :: rest =>
      let r := processRespSample rawValue now s in
      let (obs, final) := run rest (value r) in
      (observe rawValue now s :: obs,
       (value final, faults r ++ faults final))
  end.

Definition phases `{Target} (inputs : list (Z * Z)) : list BreathState :=
  map phase (fst (run inputs init)).

Definition rates `{Target} (inputs : list (Z * Z)) : list Z :=
  map rate (fst (run inputs init)).

End Resp.

(** ** GSR extractor (lines 244-312) *)

Module GSR.

Definition BUFFER_SIZE : Z := 30.
Definition CALIBRATION_TIME : Z := 50.

Record GSRProcessor : Type := {
  gsrBuffer : list Z;
  bufferIndex : Z;
  baseline : Z;
  smoothedValue : Z;
  sweatLevel : Z;
  calibrated : bool;
  calibrationSamples : Z
}.

Definition init : GSRProcessor := {|
  gsrBuffer := repeat 0 30;
  bufferIndex := 0;
  baseline := 0;
  smoothedValue := 0;
  sweatLevel := 0;
  calibrated := false;
  calibrationSamples := 0
|}.

(** Lines 265-268: [long sum] over the window. *)
Definition windowSum (buf : list Z) : Z :=
  fold_left (fun sum i => int32 (sum + load buf i)) (indices 30) 0.

(** Lines 261-269: push the sample and recompute the moving average. *)
Definition smooth (rawValue : Z) (s : GSRProcessor) : GSRProcessor :=
  let buf := store (gsrBuffer s) (bufferIndex s) rawValue in
  {| gsrBuffer := buf;
     bufferIndex := Z.rem (int16 (bufferIndex s + 1)) BUFFER_SIZE;
     baseline := baseline s;
     smoothedValue := int16 (Z.quot (windowSum buf) BUFFER_SIZE);
     sweatLevel := sweatLevel s;
     calibrated := calibrated s;
     calibrationSamples := calibrationSamples s |}.

(** Lines 272-279: the calibration phase. *)
Definition calibrate (s : GSRProcessor) : GSRProcessor :=
  let n := int16 (calibrationSamples s + 1) in
  if n >=? CALIBRATION_TIME then
    {| gsrBuffer := gsrBuffer s;
       bufferIndex := bufferIndex s;
       baseline := smoothedValue s;
       smoothedValue := smoothedValue s;
       sweatLevel := sweatLevel s;
       calibrated := true;
       calibrationSamples := n |}
  else
    {| gsrBuffer := gsrBuffer s;
       bufferIndex := bufferIndex s;
       baseline := baseline s;
       smoothedValue := smoothedValue s;
       sweatLevel := sweatLevel s;
       calibrated := calibrated s;
       calibrationSamples := n |}.

(** Line 282: [int delta = smoothedValue - baseline]. *)
Definition delta (s : GSRProcessor) : Z :=
  int16 (smoothedValue s - baseline s).

(** Lines 284-292: the four bands. *)
Definition level (d : Z) : Z :=
  if d <? 10 then 0
  else if d <? 30 then 1
  else if d <? 60 then 2
  else 3.

(** Lines 295-297: [millis() % 60000 == 0] guards the [int] expression
    [(baseline * 99 + smoothedValue) / 100]. *)
Definition adaptDue (now : Z) : bool := Z.rem (uint32 now) 60000 =? 0.

Definition adapted (s : GSRProcessor) : Z :=
  int16 (Z.quot (int16 (int16 (baseline s * 99) + smoothedValue s)) 100).

(** Lines 282-297: classification, then the slow baseline adaptation. *)
Definition classify (now : Z) (s : GSRProcessor) : GSRProcessor :=
  {| gsrBuffer := gsrBuffer s;
     bufferIndex := bufferIndex s;
     baseline := if adaptDue now then adapted s else baseline s;
     smoothedValue := smoothedValue s;
     sweatLevel := level (delta s);
     calibrated := calibrated s;
     calibrationSamples := calibrationSamples s |}.

(** [processGSRSample]; [now] is the value [millis()] has during the
    call. *)
Definition processGSRSample (rawValue now : Z) (s : GSRProcessor)
  : GSRProcessor :=
  let s1 := smooth rawValue s in
  if negb (calibrated s1) then calibrate s1 else classify now s1.

Definition getSweatLevel (s : GSRProcessor) : Z := sweatLevel s.
Definition getSmoothedValue (s : GSRProcessor) : Z := smoothedValue s.

Definition getRawValue (s : GSRProcessor) : Z :=
  load (gsrBuffer s)
       (Z.rem (int16 (int16 (bufferIndex s + BUFFER_SIZE) - 1)) BUFFER_SIZE).

(** Lines 303-311. *)
Definition getSweatString (s : GSRProcessor) : string :=
  match sweatLevel s with
  | 0 => "DRY "
  | 1 => "LOW "
  | 2 => "MED "
  | 3 => "HIGH"
  | _ => "ERR "
  end%string.

(** Feeding a stream of (sample, clock reading) pairs. *)
Definition run (inputs : list (Z * Z)) (s : GSRProcessor) : GSRProcessor :=
  fold_left (fun st (i : Z * Z) => processGSRSample (fst i) (snd i) st)
            inputs s.

End GSR.

(** ** The sketch: [setup], [loop] and [logData] (lines 324-528)

    One record of [Readings] holds what the environment answers during one
    step: the results of [SD.begin] and [SD.open], the level of the mode
    button, the analog and digital inputs, and the value of [millis()] at
    each place the sketch reads it.  The display only reads the extractors
    and is kept apart, in [Display] below. *)

Module Sketch.

Definition ECG_SAMPLE_INTERVAL : Z := 3.
Definition RESP_SAMPLE_INTERVAL : Z := 50.
Definition GSR_SAMPLE_INTERVAL : Z := 200.
Definition LCD_UPDATE_INTERVAL : Z := 1000.
Definition DATA_LOG_INTERVAL : Z := 1000.
Definition HIGH : Z := 1.
Definition LOW : Z := 0.

Record Readings : Type := {
  sdBegin : bool;        (* SD.begin(SD_CS), line 344 *)
  sdOpen : bool;         (* SD.open(...), lines 359 and 498 *)
  buttonMode : Z;        (* digitalRead(BUTTON_MODE) *)
  now : Z;               (* millis(), lines 375 and 382 *)
  ecgValue : Z;          (* analogRead(ECG_OUTPUT) *)
  loPlus : Z;            (* digitalRead(ECG_LO_PLUS) *)
  loMinus : Z;           (* digitalRead(ECG_LO_MINUS) *)
  ecgClock : Z;          (* millis(), line 110 *)
  respValue : Z;         (* analogRead(RESP_SENSOR) *)
  respClock : Z;         (* millis(), line 204 *)
  gsrValue : Z;          (* analogRead(GSR_SENSOR) *)
  gsrClock : Z;          (* millis(), line 295 *)
  logClock : Z           (* millis(), line 502 *)
}.

(** Where control is: before [SD.begin], in the [while(1);] of line 346,
    in the [while] of line 372, or in [loop]. *)
Inductive Control : Type := Setup | SdHalted | WaitButton | Looping.

(** Lines of [VITALS.CSV] and of the serial port. *)
Inductive Row : Type :=
| Header
| Vitals (timestamp hr rr sweat ecgRaw respRaw gsrRaw : Z).

Inductive SerialLine : Type :=
| Summary (hr rr sweat : Z)
| OpenError.

Record System : Type := {
  control : Control;
  ecgProc : ECG.ECGProcessor;
  respProc : Resp.RespiratoryProcessor;
  gsrProc : GSR.GSRProcessor;
  lastECGSample : Z;
  lastRespSample : Z;
  lastGSRSample : Z;
  lastLCDUpdate : Z;
  lastDataLog : Z;
  sessionStartTime : Z;
  displayMode : Z;
  vitals : list Row;
  serial : list SerialLine;
  undefined : list fault
}.

Definition boot : System := {|
  control := Setup;
  ecgProc := ECG.init;
  respProc := Resp.init;
  gsrProc := GSR.init;
  lastECGSample := 0;
  lastRespSample := 0;
  lastGSRSample := 0;
  lastLCDUpdate := 0;
  lastDataLog := 0;
  sessionStartTime := 0;
  displayMode := 0;
  vitals := [];
  serial := [];
  undefined := []
|}.

Definition withControl (c : Control) (start : Z) (rows : list Row)
  (sys : System) : System := {|
  control := c;
  ecgProc := ecgProc sys;
  respProc := respProc sys;
  gsrProc := gsrProc sys;
  lastECGSample := lastECGSample sys;
  lastRespSample := lastRespSample sys;
  lastGSRSample := lastGSRSample sys;
  lastLCDUpdate := lastLCDUpdate sys;
  lastDataLog := lastDataLog sys;
  sessionStartTime := start;
  displayMode := displayMode sys;
  vitals := rows;
  serial := serial sys;
  undefined := undefined sys
|}.

(** Has the period [p] elapsed since [last]?  ([unsigned long] difference.) *)
Definition due (t last p : Z) : bool := uint32 (t - last) >=? p.

(** Lines 385-389. *)
Definition ecgTask `{Target} (r : Readings) (sys : System) : System :=
  if due (now r) (lastECGSample sys) ECG_SAMPLE_INTERVAL then
    let m := ECG.processECGSample (loPlus r) (loMinus r) (ecgValue r)
                                  (ecgClock r) (ecgProc sys) in
    {| control := control sys;
       ecgProc := value m;
       respProc := respProc sys;
       gsrProc := gsrProc sys;
       lastECGSample := now r;
       lastRespSample := lastRespSample sys;
       lastGSRSample := lastGSRSample sys;
       lastLCDUpdate := lastLCDUpdate sys;
       lastDataLog := lastDataLog sys;
       sessionStartTime := sessionStartTime sys;
       displayMode := displayMode sys;
       vitals := vitals sys;
       serial := serial sys;
       undefined := undefined sys ++ faults m |}
  else sys.

(** Lines 392-396. *)
Definition respTask `{Target} (r : Readings) (sys : System) : System :=
  if due (now r) (lastRespSample sys) RESP_SAMPLE_INTERVAL then
    let m := Resp.processRespSample (respValue r) (respClock r)
                                    (respProc sys) in
    {| control := control sys;
       ecgProc := ecgProc sys;
       respProc := value m;
       gsrProc := gsrProc sys;
       lastECGSample := lastECGSample sys;
       lastRespSample := now r;
       lastGSRSample := lastGSRSample sys;
       lastLCDUpdate := lastLCDUpdate sys;
       lastDataLog := lastDataLog sys;
       sessionStartTime := sessionStartTime sys;
       displayMode := displayMode sys;
       vitals := vitals sys;
       serial := serial sys;
       undefined := undefined sys ++ faults m |}
  else sys.

(** Lines 399-403. *)
Definition gsrTask (r : Readings) (sys : System) : System :=
  if due (now r) (lastGSRSample sys) GSR_SAMPLE_INTERVAL then
    {| control := control sys;
       ecgProc := ecgProc sys;
       respProc := respProc sys;
       gsrProc := GSR.processGSRSample (gsrValue r) (gsrClock r)
                                       (gsrProc sys);
       lastECGSample := lastECGSample sys;
       lastRespSample := lastRespSample sys;
       lastGSRSample := now r;
       lastLCDUpdate := lastLCDUpdate sys;
       lastDataLog := lastDataLog sys;
       sessionStartTime := sessionStartTime sys;
       displayMode := displayMode sys;
       vitals := vitals sys;
       serial := serial sys;
       undefined := undefined sys |}
  else sys.

(** Lines 406-409: [updateLCD] changes nothing the model keeps. *)
Definition lcdTask (r : Readings) (sys : System) : System :=
  if due (now r) (lastLCDUpdate sys) LCD_UPDATE_INTERVAL then
    {| control := control sys;
       ecgProc := ecgProc sys;
       respProc := respProc sys;
       gsrProc := gsrProc sys;
       lastECGSample := lastECGSample sys;
       lastRespSample := lastRespSample sys;
       lastGSRSample := lastGSRSample sys;
       lastLCDUpdate := now r;
       lastDataLog := lastDataLog sys;
       sessionStartTime := sessionStartTime sys;
       displayMode := displayMode sys;
       vitals := vitals sys;
       serial := serial sys;
       undefined := undefined sys |}
  else sys.

Definition withLog (rows : list Row) (lines : list SerialLine) (t : Z)
  (sys : System) : System := {|
  control := control sys;
  ecgProc := ecgProc sys;
  respProc := respProc sys;
  gsrProc := gsrProc sys;
  lastECGSample := lastECGSample sys;
  lastRespSample := lastRespSample sys;
  lastGSRSample := lastGSRSample sys;
  lastLCDUpdate := lastLCDUpdate sys;
  lastDataLog := t;
  sessionStartTime := sessionStartTime sys;
  displayMode := displayMode sys;
  vitals := rows;
  serial := lines;
  undefined := undefined sys
|}.

(** [logData], lines 497-528: one row when the file opens, one error
    line on the serial port when it does not. *)
Definition logData (r : Readings) (sys : System)
  : list Row * list SerialLine :=
  let hr := ECG.getHeartRate (ecgProc sys) in
  let rr := Resp.getBreathRate (respProc sys) in
  let sw := GSR.getSweatLevel (gsrProc sys) in
  if sdOpen r then
    (vitals sys ++ [Vitals (logClock r) hr rr sw
                           (ECG.getRawValue (ecgProc sys))
                           (Resp.getRawValue (respProc sys))
                           (GSR.getSmoothedValue (gsrProc sys))],
     serial sys ++ [Summary hr rr sw])
  else (vitals sys, serial sys ++ [OpenError]).

(** Lines 412-415. *)
Definition logTask (r : Readings) (sys : System) : System :=
  if due (now r) (lastDataLog sys) DATA_LOG_INTERVAL then
    let (rows, lines) := logData r sys in
    withLog rows lines (now r) sys
  else sys.

(** Lines 418-421. *)
Definition buttonTask (r : Readings) (sys : System) : System :=
  if buttonMode r =? LOW then
    {| control := control sys;
       ecgProc := ecgProc sys;
       respProc := respProc sys;
       gsrProc := gsrProc sys;
       lastECGSample := lastECGSample sys;
       lastRespSample := lastRespSample sys;
       lastGSRSample := lastGSRSample sys;
       lastLCDUpdate := lastLCDUpdate sys;
       lastDataLog := lastDataLog sys;
       sessionStartTime := sessionStartTime sys;
       displayMode := Z.rem (int16 (displayMode sys + 1)) 3;
       vitals := vitals sys;
       serial := serial sys;
       undefined := undefined sys |}
  else sys.

(** One pass through [loop], lines 381-422. *)
Definition loop `{Target} (r : Readings) (sys : System) : System :=
  buttonTask r (logTask r (lcdTask r (gsrTask r (respTask r (ecgTask r sys))))).

(** One step of the sketch.  [Setup]: line 344 decides between the halt of
    line 346 and going on to write the header (lines 359-363).
    [SdHalted]: [while(1);].  [WaitButton]: line 372, then line 375. *)
Definition step `{Target} (r : Readings) (sys : System) : System :=
  match control sys with
  | Setup =>
      if sdBegin r
      then withControl WaitButton (sessionStartTime sys)
                       (if sdOpen r then [Header] else []) sys
      else withControl SdHalted (sessionStartTime sys) (vitals sys) sys
  | SdHalted => sys
  | WaitButton =>
      if buttonMode r =? HIGH then sys
      else withControl Looping (now r) (vitals sys) sys
  | Looping => loop r sys
  end.

Definition exec `{Target} (rs : list Readings) (sys : System) : System :=
  fold_left (fun st r => step r st) rs sys.

(** The part of the system that computes the metrics. *)
Definition core (sys : System)
  : ECG.ECGProcessor * Resp.RespiratoryProcessor * GSR.GSRProcessor :=
  (ecgProc sys, respProc sys, gsrProc sys).

(** The same readings with the storage medium always available. *)
Definition storageAvailable (r : Readings) : Readings := {|
  sdBegin := true;
  sdOpen := true;
  buttonMode := buttonMode r;
  now := now r;
  ecgValue := ecgValue r;
  loPlus := loPlus r;
  loMinus := loMinus r;
  ecgClock := ecgClock r;
  respValue := respValue r;
  respClock := respClock r;
  gsrValue := gsrValue r;
  gsrClock := gsrClock r;
  logClock := logClock r
|}.

(** The same readings with every [SD.open] succeeding. *)
Definition openAvailable (r : Readings) : Readings := {|
  sdBegin := sdBegin r;
  sdOpen := true;
  buttonMode := buttonMode r;
  now := now r;
  ecgValue := ecgValue r;
  loPlus := loPlus r;
  loMinus := loMinus r;
  ecgClock := ecgClock r;
  respValue := respValue r;
  respClock := respClock r;
  gsrValue := gsrValue r;
  gsrClock := gsrClock r;
  logClock := logClock r
|}.

End Sketch.

(** ** Definitions used in the statements *)

(** One target, to run the model on concrete inputs. *)
Definition sampleTarget : Target := {|
  undef_div := fun _ => -1;
  undef_fix := fun _ => 0
|}.

(** The populated slots of an interval ring and their mean, as the design
    document words it: "average is computed over populated slots only". *)
Definition populated (intervals : list Z) : list Z :=
  filter (fun v => v >? 0) intervals.

Definition total (l : list Z) : Z := fold_right Z.add 0 l.

Definition mean (l : list Z) : Z := Z.quot (total l) (Z.of_nat (length l)).

(** A slot of the cardiac ring is empty or holds an admitted interval. *)
Definition rrSlot (v : Z) : Prop := v = 0 \/ 300 < v < 2000.

(** The ring of RR intervals: ten slots, each empty or holding an admitted
    interval, and a cursor inside the ring. *)
Definition rrRing (s : ECG.ECGProcessor) : Prop :=
  length (ECG.rrIntervals s) = 10%nat
  /\ Forall rrSlot (ECG.rrIntervals s)
  /\ 0 <= ECG.rrIndex s < 10.

(** The GSR extractor on converter readings: a ring of thirty readings, a
    cursor inside it, a moving average that is a reading, and a baseline of
    at most that size. *)
Definition gsrAdc (s : GSR.GSRProcessor) : Prop :=
  length (GSR.gsrBuffer s) = 30%nat
  /\ Forall adc (GSR.gsrBuffer s)
  /\ 0 <= GSR.bufferIndex s < 30
  /\ adc (GSR.smoothedValue s)
  /\ -1023 <= GSR.baseline s <= 1023.

(** The cardiac extractor on converter readings. *)
Definition ecgAdc (s : ECG.ECGProcessor) : Prop :=
  rrRing s
  /\ adc (ECG.signalMin s) /\ adc (ECG.signalMax s)
  /\ 0 <= ECG.bufferIndex s < 100.

(** The breath edges of a phase sequence, as the design document words
    them: an EXHALE sample immediately followed by an INHALE sample. *)
Fixpoint edges (prev : Resp.BreathState) (ps : list Resp.BreathState)
  : list bool :=
  match ps with
  | [] => []
  | p :: rest =>
      (Resp.BreathState_eqb p Resp.INHALE
       && Resp.BreathState_eqb prev Resp.EXHALE) :: edges p rest
  end.

(** The part of the respiratory state the phase of a sample depends on:
    the sample ring and its cursor, the current phase and the thresholds. *)
Definition phaseState (s : Resp.RespiratoryProcessor) :=
  (Resp.respBuffer s, Resp.bufferIndex s, Resp.currentState s,
   (Resp.baseline s, Resp.inhaleThreshold s, Resp.exhaleThreshold s)).

(** The clock readings a respiratory run really consumes: [millis()] is
    read on breath edges only (line 204). *)
Fixpoint clockReads `{Target} (inputs : list (Z * Z))
  (s : Resp.RespiratoryProcessor) : list (option Z) :=
  match inputs with
  | [] => []
  | (rawValue, now) :: rest =>
      (if Resp.counted (Resp.observe rawValue now s) then Some now else None)
      :: clockReads rest (value (Resp.processRespSample rawValue now s))
  end.

(** Feeding the cardiac extractor a stream of
    (LO+, LO-, sample, clock reading) tuples. *)
Fixpoint runECG `{Target} (inputs : list (Z * Z * Z * Z))
  (s : ECG.ECGProcessor) : M ECG.ECGProcessor :=
  match inputs with
  | [] => ret s
  | (loPlus, loMinus, rawValue, now) :: rest =>
      s1 <- ECG.processECGSample loPlus loMinus rawValue now s ;;
      runECG rest s1
  end.

(** Slow breathing: [n] EXHALE/INHALE sample pairs whose INHALE samples,
    the breath edges, come 9362 ms apart, the first one at time [t]. *)
Fixpoint slowBreaths (n : nat) (t : Z) : list (Z * Z) :=
  match n with
  | O => []
  | S k => (400, t - 50) :: (600, t) :: slowBreaths k (t + 9362)
  end.

(** The same four samples under two different clocks. *)
Definition fourSamplesA : list (Z * Z) :=
  [(400, 900); (600, 1000); (400, 3900); (600, 4000)].
Definition fourSamplesB : list (Z * Z) :=
  [(400, 900); (600, 1000); (400, 4900); (600, 5000)].

(** A calibrated GSR extractor: fifty samples of 500. *)
Definition gsrCalibrated : GSR.GSRProcessor :=
  GSR.run (repeat (500, 7) 50) GSR.init.

(** A cardiac extractor inside a peak whose previous peak ended at 1000 ms. *)
Definition ecgInPeak : ECG.ECGProcessor :=
  ECG.withLastPeakTime 1000 (ECG.withPeak true 700 ECG.init).

(** A cardiac extractor one sample short of a full window, with running
    minimum 500 and maximum 520. *)
Definition ecgWindowEnd : ECG.ECGProcessor := {|
  ECG.ecgBuffer := repeat 500 100;
  ECG.bufferIndex := 99;
  ECG.lastPeakTime := 0;
  ECG.rrIntervals := repeat 0 10;
  ECG.rrIndex := 0;
  ECG.currentHeartRate := 0;
  ECG.peakThreshold := 600;
  ECG.signalMin := 500;
  ECG.signalMax := 520;
  ECG.leadOff := false;
  ECG.inPeak := false;
  ECG.peakValue := 0
|}.

(** Readings with the card missing, the button pressed and every task due. *)
Definition cardMissing (t : Z) : Sketch.Readings := {|
  Sketch.sdBegin := false;
  Sketch.sdOpen := false;
  Sketch.buttonMode := Sketch.LOW;
  Sketch.now := t;
  Sketch.ecgValue := 512;
  Sketch.loPlus := 0;
  Sketch.loMinus := 0;
  Sketch.ecgClock := t;
  Sketch.respValue := 512;
  Sketch.respClock := t;
  Sketch.gsrValue := 512;
  Sketch.gsrClock := t;
  Sketch.logClock := t
|}.

(** "Storage failure never halts signal processing": whatever the storage
    medium answers, the extractors end in the state they reach when the
    medium is always available. *)
Definition storageNeverHalts `{Target} : Prop :=
  forall rs : list Sketch.Readings,
    Sketch.core (Sketch.exec rs Sketch.boot)
    = Sketch.core (Sketch.exec (map Sketch.storageAvailable rs) Sketch.boot).

(** What a step keeps besides the two output files. *)
Definition processing (sys : Sketch.System) :=
  (Sketch.control sys, Sketch.core sys,
   (Sketch.lastECGSample sys, Sketch.lastRespSample sys,
    Sketch.lastGSRSample sys, Sketch.lastLCDUpdate sys,
    Sketch.lastDataLog sys),
   (Sketch.sessionStartTime sys, Sketch.displayMode sys,
    Sketch.undefined sys)).

(** Shapes of the binary32 numbers the cardiac threshold is computed from.
    [isInt n x]: [x] is the integer [n], exactly.  [fracOk i x]: [x] is
    below 1024, its integer part is [i] and its fraction is at most 15/16.
    [ceilOk n i x]: [x] is at most [n], the least integer not below [x] is
    [i], and the fraction of [x] is zero or at least 1/16. *)
Definition isInt (n : Z) (x : spec_float) : bool :=
  match x with
  | S754_zero false => n =? 0
  | S754_finite false m e =>
      (-24 <=? e) && (e <=? 0) && (Zpos m =? n * 2 ^ (- e))
  | _ => false
  end.

Definition fracOk (i : Z) (x : spec_float) : bool :=
  match x with
  | S754_zero false => i =? 0
  | S754_finite false m e =>
      (-24 <=? e) && (e <=? 0) && (Zpos m <? 1024 * 2 ^ (- e))
      && (Zpos m / 2 ^ (- e) =? i)
      && ((Zpos m mod 2 ^ (- e)) * 16 <=? 15 * 2 ^ (- e))
  | _ => false
  end.

Definition ceilOk (n i : Z) (x : spec_float) : bool :=
  match x with
  | S754_zero false => i =? 0
  | S754_finite false m e =>
      (-24 <=? e) && (e <=? 0) && (Zpos m <=? n * 2 ^ (- e))
      && (if Zpos m mod 2 ^ (- e) =? 0
          then Zpos m / 2 ^ (- e) =? i
          else (Zpos m / 2 ^ (- e) + 1 =? i)
               && (2 ^ (- e) <=? 16 * (Zpos m mod 2 ^ (- e))))
  | _ => false
  end.

(** ** The display: [updateLCD] (lines 425-494)

    [updateLCD] clears the display and prints one of three screens, chosen
    by [displayMode].  A screen is kept as the values the sketch prints,
    field by field; the fixed labels and the [%02d] layout of the time are
    left to the display. *)

Module Display.

(** The heart-rate field of line 432-436: ["--"] or a number. *)
Inductive HeartField : Type :=
| NoReading
| Bpm (hr : Z).

Inductive Screen : Type :=
| VitalSigns (hr : HeartField) (rr : Z) (sweat : string)
             (hours minutes seconds : Z)
| RawValues (ecg resp : Z) (state : string) (gsr : Z)
| Status (leads : string)
| Cleared.

(** Line 449: [unsigned long elapsed = (millis() - sessionStartTime) / 1000]. *)
Definition elapsed (t start : Z) : Z := uint32 (t - start) / 1000.

(** Lines 450-452: the three [int] fields of the time. *)
Definition hours (e : Z) : Z := int16 (e / 3600).
Definition minutes (e : Z) : Z := int16 ((e mod 3600) / 60).
Definition seconds (e : Z) : Z := int16 (e mod 60).

(** [updateLCD]; [t] is the value [millis()] has at line 449. *)
Definition updateLCD (t : Z) (sys : Sketch.System) : Screen :=
  match Sketch.displayMode sys with
  | 0 =>
      let e := elapsed t (Sketch.sessionStartTime sys) in
      VitalSigns
        (if ECG.isLeadOff (Sketch.ecgProc sys) then NoReading
         else Bpm (ECG.getHeartRate (Sketch.ecgProc sys)))
        (Resp.getBreathRate (Sketch.respProc sys))
        (GSR.getSweatString (Sketch.gsrProc sys))
        (hours e) (minutes e) (seconds e)
  | 1 =>
      RawValues (ECG.getRawValue (Sketch.ecgProc sys))
                (Resp.getRawValue (Sketch.respProc sys))
                (Resp.getStateString (Sketch.respProc sys))
                (GSR.getSmoothedValue (Sketch.gsrProc sys))
  | 2 =>
      Status (if ECG.isLeadOff (Sketch.ecgProc sys) then "OFF" else "OK")
  | _ => Cleared
  end%string.

End Display.

(** ** The LED band: [loop] of [respiratory_band.ino] (lines 103-130)

    Each of the two sensors drives five LEDs from thresholds spaced between
    an adjustable minimum and maximum.  The minimum and maximum are the
    results of the library function [map] on the potentiometer readings
    (lines 81-84) and enter here as they are.  [int] is 16 bits wide, as
    for the main sketch; for a minimum and a maximum in the range [map]
    yields, 100 to 700, no operation below leaves that range. *)

Module Band.

Definition num_LEDs : Z := 5.

(** Lines 103 and 108: [delta = (ADC_max - ADC_min)/(num_LEDs+1)] in [int]. *)
Definition delta (ADC_min ADC_max : Z) : Z :=
  int16 (Z.quot (int16 (ADC_max - ADC_min)) (int16 (num_LEDs + 1))).

(** Lines 104-107: the first threshold, then each from the one before. *)
Fixpoint thresholdsFrom (prev d : Z) (n : nat) : list Z :=
  match n with
  | O => []
  | S k => let t := int16 (prev + d) in t :: thresholdsFrom t d k
  end.

Definition thresholds (ADC_min ADC_max : Z) : list Z :=
  thresholdsFrom ADC_min (delta ADC_min ADC_max) (Z.to_nat num_LEDs).

(** Lines 116-130: the level written to each LED pin, in pin order. *)
Definition leds (reading ADC_min ADC_max : Z) : list bool :=
  map (fun t => reading >? t) (thresholds ADC_min ADC_max).

End Band.

(** ** Definitions used in the further properties *)

(** The last [n] samples of a stream, oldest first; where fewer than [n]
    samples have arrived, the zeros the ring starts with stand in front. *)
Definition window (n : nat) (samples : list Z) : list Z :=
  skipn (length samples) (repeat 0 n ++ samples).

(** The last [n] elements of a list (all of it when it is shorter). *)
Definition lastn (n : nat) (l : list Z) : list Z := skipn (length l - n) l.

(** A ring with write cursor [idx] holds the window [w]: the oldest sample
    sits at the cursor, the newest just before it. *)
Definition ringHolds (w buf : list Z) (idx : Z) : Prop :=
  0 <= idx < Z.of_nat (length w)
  /\ buf = skipn (length w - Z.to_nat idx) w
           ++ firstn (length w - Z.to_nat idx) w.

(** The samples a cardiac run stores: those of the calls made with both
    leads on (line 71). *)
Definition ecgStored (inputs : list (Z * Z * Z * Z)) : list Z :=
  map (fun i => snd (fst i))
      (filter (fun i => negb ((fst (fst (fst i)) =? 1)
                              || (snd (fst (fst i)) =? 1))) inputs).

(** The state a respiratory run ends in. *)
Definition runResp `{Target} (inputs : list (Z * Z))
  (s : Resp.RespiratoryProcessor) : Resp.RespiratoryProcessor :=
  value (snd (Resp.run inputs s)).

(** Lines 115-131 run on a sequence of candidate intervals, one peak exit
    each. *)
Definition admitAll `{Target} (rrs : list Z) (s : ECG.ECGProcessor)
  : ECG.ECGProcessor :=
  fold_left (fun st rr => value (ECG.admitInterval rr st)) rrs s.

(** A slot of the breath ring that is empty or holds an interval of fast
    breathing, below 3277 ms. *)
Definition fastSlot (v : Z) : Prop := v = 0 \/ 1500 < v < 3277.

(** The rows of the log file that are not the header. *)
Definition isVitals (r : Sketch.Row) : Prop :=
  match r with
  | Sketch.Header => False
  | Sketch.Vitals _ _ _ _ _ _ _ => True
  end.

(** Readings with the card present, the file opening, the button pressed
    and every task due. *)
Definition allDue (t : Z) : Sketch.Readings :=
  Sketch.storageAvailable (cardMissing t).

(** Readings with the card present but the file not opening. *)
Definition openFails (t : Z) : Sketch.Readings := {|
  Sketch.sdBegin := true;
  Sketch.sdOpen := false;
  Sketch.buttonMode := Sketch.LOW;
  Sketch.now := t;
  Sketch.ecgValue := 512;
  Sketch.loPlus := 0;
  Sketch.loMinus := 0;
  Sketch.ecgClock := t;
  Sketch.respValue := 512;
  Sketch.respClock := t;
  Sketch.gsrValue := 512;
  Sketch.gsrClock := t;
  Sketch.logClock := t
|}.

(* ================================================================== *)
(** * Part II: properties *)
(* ================================================================== *)

(** ** Arithmetic of the target *)

Lemma int16_id (x : Z) : -32768 <= x <= 32767 -> int16 x = x.
Proof.
  intros Hx. unfold int16.
  rewrite Z.mod_small by lia. lia.
Qed.

(** ** Arrays *)

Lemma store_nat_length (a : list Z) (i : nat) (v : Z) :
  length (store_nat a i v) = length a.
Proof.
  revert i. induction a as [|h t IH]; intros [|j]; simpl; auto.
Qed.

Lemma store_length (a : list Z) (i v : Z) : length (store a i v) = length a.
Proof. apply store_nat_length. Qed.

Lemma store_nat_Forall (P : Z -> Prop) (a : list Z) (i : nat) (v : Z) :
  Forall P a -> P v -> Forall P (store_nat a i v).
Proof.
  intros Ha Hv. revert i.
  induction Ha as [|h t Hh Ht IH]; intros [|j]; simpl; auto.
Qed.

Lemma store_Forall (P : Z -> Prop) (a : list Z) (i v : Z) :
  Forall P a -> P v -> Forall P (store a i v).
Proof. apply store_nat_Forall. Qed.

(** A loop over the indices of an array is a fold over its cells. *)
Lemma fold_indices_from {A : Type} (f : A -> Z -> A) (pre l : list Z) (acc : A) :
  fold_left (fun a i => f a (load (pre ++ l) i))
            (map Z.of_nat (seq (length pre) (length l))) acc
  = fold_left f l acc.
Proof.
  revert pre acc. induction l as [|h t IH]; intros pre acc; simpl; auto.
  replace (load (pre ++ h :: t) (Z.of_nat (length pre))) with h.
  - replace (pre ++ h :: t) with ((pre ++ [h]) ++ t)
      by (rewrite <- app_assoc; reflexivity).
    replace (S (length pre)) with (length (pre ++ [h]))
      by (rewrite length_app; simpl; lia).
    apply IH.
  - unfold load. rewrite Nat2Z.id, nth_middle. reflexivity.
Qed.

Lemma fold_indices {A : Type} (f : A -> Z -> A) (l : list Z) (acc : A) :
  fold_left (fun a i => f a (load l i)) (indices (length l)) acc
  = fold_left f l acc.
Proof. exact (fold_indices_from f [] l acc). Qed.

(** The wrap-around operators, the array accesses and the window loops stay
    folded under [simpl]. *)
#[global] Arguments int16 : simpl never.
#[global] Arguments int32 : simpl never.
#[global] Arguments uint32 : simpl never.
#[global] Arguments load : simpl never.
#[global] Arguments store : simpl never.
#[global] Arguments indices : simpl never.
#[global] Arguments sumCount : simpl never.
#[global] Arguments GSR.windowSum : simpl never.
#[global] Arguments Resp.windowSum : simpl never.
#[global] Arguments Resp.windowVariance : simpl never.

(** ** binary32 rounding on small numbers *)

Lemma pos_shift_value (m d : positive) :
  Zpos (Pos.iter xO m d) = Zpos m * 2 ^ Zpos d.
Proof.
  change (Pos.iter xO m d) with (shift_pos d m).
  rewrite shift_pos_correct, Z.pow_pos_fold. lia.
Qed.

Lemma digits2_pos_bounds (p : positive) :
  2 ^ (Zpos (digits2_pos p) - 1) <= Zpos p < 2 ^ Zpos (digits2_pos p).
Proof.
  induction p as [q IH | q IH |]; cbn [digits2_pos].
  - rewrite Pos2Z.inj_succ. change (Zpos q~1) with (2 * Zpos q + 1).
    replace (Z.succ (Zpos (digits2_pos q)) - 1)
      with (Z.succ (Zpos (digits2_pos q) - 1)) by lia.
    rewrite !Z.pow_succ_r by lia.
    revert IH. generalize (2 ^ (Zpos (digits2_pos q) - 1)).
    generalize (2 ^ Zpos (digits2_pos q)). intros; lia.
  - rewrite Pos2Z.inj_succ. change (Zpos q~0) with (2 * Zpos q).
    replace (Z.succ (Zpos (digits2_pos q)) - 1)
      with (Z.succ (Zpos (digits2_pos q) - 1)) by lia.
    rewrite !Z.pow_succ_r by lia.
    revert IH. generalize (2 ^ (Zpos (digits2_pos q) - 1)).
    generalize (2 ^ Zpos (digits2_pos q)). intros; lia.
  - cbn. lia.
Qed.

Lemma digits2_pos_unique (p : positive) (D : Z) :
  2 ^ (D - 1) <= Zpos p < 2 ^ D -> Zpos (digits2_pos p) = D.
Proof.
  intros [Hlo Hhi]. pose proof (digits2_pos_bounds p) as [Plo Phi].
  set (D' := Zpos (digits2_pos p)) in *.
  assert (HD' : 0 < D') by (unfold D'; lia).
  assert (HD : 0 < D).
  { destruct (Z.lt_ge_cases 0 D) as [|Hn]; [assumption|].
    assert (2 ^ D <= 2 ^ 0) by (apply Z.pow_le_mono_r; lia).
    change (2 ^ 0) with 1 in *. lia. }
  destruct (Z.lt_trichotomy D' D) as [Hlt | [Heq | Hgt]]; [|exact Heq|].
  - assert (2 ^ D' <= 2 ^ (D - 1)) by (apply Z.pow_le_mono_r; lia). lia.
  - assert (2 ^ D <= 2 ^ (D' - 1)) by (apply Z.pow_le_mono_r; lia). lia.
Qed.

Lemma shr_1_m (mrs : shr_record) :
  0 <= shr_m mrs ->
  shr_m (shr_1 mrs) = shr_m mrs / 2 /\ 0 <= shr_m (shr_1 mrs).
Proof.
  destruct mrs as [m r s]. cbn [shr_m]. intros Hm.
  destruct m as [|q|q]; [| |lia].
  - cbn [shr_1 shr_m]. split; [reflexivity|lia].
  - destruct q as [q|q|]; cbn [shr_1 shr_m].
    + change (Zpos q~1) with (2 * Zpos q + 1). split; [|lia].
      apply Z.div_unique with 1; lia.
    + change (Zpos q~0) with (2 * Zpos q). split; [|lia].
      apply Z.div_unique with 0; lia.
    + split; [reflexivity|lia].
Qed.

Lemma iter_shr_1_m (p : positive) (mrs : shr_record) :
  0 <= shr_m mrs ->
  shr_m (iter_pos shr_1 p mrs) = shr_m mrs / 2 ^ Zpos p
  /\ 0 <= shr_m (iter_pos shr_1 p mrs).
Proof.
  revert mrs. induction p as [q IH | q IH |]; intros mrs Hm; cbn [iter_pos].
  - destruct (shr_1_m mrs Hm) as [E1 P1].
    destruct (IH _ P1) as [E2 P2]. destruct (IH _ P2) as [E3 P3].
    split; [|exact P3].
    rewrite E3, E2, E1, !Z.div_div by (try apply Z.pow_pos_nonneg; lia).
    f_equal. change (Zpos q~1) with (2 * Zpos q + 1).
    replace (2 * Zpos q + 1) with (1 + Zpos q + Zpos q) by lia.
    rewrite !Z.pow_add_r by lia. change (2 ^ 1) with 2. lia.
  - destruct (IH _ Hm) as [E2 P2]. destruct (IH _ P2) as [E3 P3].
    split; [|exact P3].
    rewrite E3, E2, !Z.div_div by (try apply Z.pow_pos_nonneg; lia).
    f_equal. change (Zpos q~0) with (2 * Zpos q).
    replace (2 * Zpos q) with (Zpos q + Zpos q) by lia.
    rewrite !Z.pow_add_r by lia. lia.
  - destruct (shr_1_m mrs Hm) as [E1 P1]. split; [|exact P1].
    rewrite E1. reflexivity.
Qed.

Lemma round_nearest_even_step (q : Z) (l : location) :
  round_nearest_even q l = q \/ round_nearest_even q l = q + 1.
Proof.
  destruct l as [|[| |]]; cbn [round_nearest_even]; auto.
  destruct (Z.even q); auto.
Qed.

(** Dropping low bits after rounding up by one does not reach the next
    multiple when the dropped-to position is at least five bits up and the
    bits below it stay under 15/16. *)
Lemma div_round_up (S P K : Z) :
  0 <= S -> 0 < P -> 32 <= K ->
  (S mod (P * K)) * 16 <= 15 * (P * K) ->
  (S / P) / K = S / (P * K)
  /\ (S / P + 1) / K = S / (P * K)
  /\ (S / P) mod K < K - 1.
Proof.
  intros HS HP HK Hfrac.
  assert (HPK : 0 < P * K) by nia.
  pose proof (Z.div_mod S (P * K) ltac:(lia)) as Hdm.
  pose proof (Z.mod_pos_bound S (P * K) HPK) as Hr.
  set (Q := S / (P * K)) in *. set (R := S mod (P * K)) in *.
  pose proof (Z.div_mod R P ltac:(lia)) as Hdm2.
  pose proof (Z.mod_pos_bound R P HP) as Hr2.
  set (t := R / P) in *. set (u := R mod P) in *.
  assert (Ht : 0 <= t /\ 16 * t <= 15 * K) by nia.
  assert (HSP : S / P = K * Q + t).
  { symmetry. apply Z.div_unique with u; [lia|]. nia. }
  rewrite HSP. repeat split.
  - symmetry. apply Z.div_unique with t; lia.
  - symmetry. apply Z.div_unique with (t + 1); lia.
  - replace (K * Q + t) with (t + Q * K) by lia.
    rewrite Z.mod_add by lia. rewrite Z.mod_small by lia. lia.
Qed.

(** A mantissa of 24 digits is kept as it is. *)
Lemma round_aux_exact (m : positive) (e : Z) :
  Zpos (digits2_pos m) = 24 -> -149 <= e <= 104 ->
  binary_round_aux 24 128 false (Zpos m) e loc_Exact = S754_finite false m e.
Proof.
  intros Hm He.
  unfold binary_round_aux, shr_fexp, Zdigits2, fexp, emin.
  rewrite Hm, Z.max_l by lia.
  replace (24 + e - 24 - e) with 0 by lia.
  cbn [shr shr_record_of_loc shr_m loc_of_shr_record round_nearest_even
       Zdigits2].
  rewrite Hm, Z.max_l by lia.
  replace (24 + e - 24 - e) with 0 by lia.
  cbn [shr shr_record_of_loc shr_m].
  destruct (Z.leb_spec e (128 - 24)); [reflexivity|lia].
Qed.

(** A longer mantissa loses its low [d] digits and goes up by at most one. *)
Lemma round_aux_shift (S d : positive) (e : Z) :
  Zpos (digits2_pos S) = 24 + Zpos d ->
  -149 <= e -> e + Zpos d <= 104 ->
  Zpos S / 2 ^ Zpos d + 1 < 2 ^ 24 ->
  exists m : positive,
    (Zpos m = Zpos S / 2 ^ Zpos d \/ Zpos m = Zpos S / 2 ^ Zpos d + 1)
    /\ binary_round_aux 24 128 false (Zpos S) e loc_Exact
       = S754_finite false m (e + Zpos d).
Proof.
  intros HS He He' Hq.
  pose proof (digits2_pos_bounds S) as [Dlo Dhi]. rewrite HS in Dlo, Dhi.
  assert (Hpd : 0 < 2 ^ Zpos d) by (apply Z.pow_pos_nonneg; lia).
  assert (Hqlo : 2 ^ 23 <= Zpos S / 2 ^ Zpos d).
  { apply Z.div_le_lower_bound; [exact Hpd|].
    replace (24 + Zpos d - 1) with (Zpos d + 23) in Dlo by lia.
    rewrite Z.pow_add_r in Dlo by lia. lia. }
  unfold binary_round_aux, shr_fexp at 1.
  cbn [Zdigits2]. rewrite HS.
  unfold fexp at 1, emin. rewrite Z.max_l by lia.
  replace (24 + Zpos d + e - 24 - e) with (Zpos d) by lia.
  cbn [shr shr_record_of_loc].
  set (mrs := iter_pos shr_1 d _).
  destruct (iter_shr_1_m d {| shr_m := Zpos S; shr_r := false; shr_s := false |})
    as [Em _]; [cbn; lia|].
  fold mrs in Em. cbn [shr_m] in Em.
  destruct (round_nearest_even_step (shr_m mrs) (loc_of_shr_record mrs))
    as [Hr | Hr]; rewrite Hr, Em.
  - destruct (Zpos S / 2 ^ Zpos d) as [|m|m] eqn:Hm; try lia.
    exists m. split; [left; reflexivity|].
    assert (Hdm : Zpos (digits2_pos m) = 24)
      by (apply digits2_pos_unique; change (24 - 1) with 23; lia).
    unfold shr_fexp, fexp, emin. cbn [Zdigits2].
    rewrite Hdm, Z.max_l by lia.
    replace (24 + (e + Zpos d) - 24 - (e + Zpos d)) with 0 by lia.
    cbn [shr shr_record_of_loc shr_m].
    destruct (Z.leb_spec (e + Zpos d) (128 - 24)); [reflexivity|lia].
  - destruct (Zpos S / 2 ^ Zpos d + 1) as [|m|m] eqn:Hm; try lia.
    exists m. split; [right; reflexivity|].
    assert (Hdm : Zpos (digits2_pos m) = 24)
      by (apply digits2_pos_unique; change (24 - 1) with 23; lia).
    unfold shr_fexp, fexp, emin. cbn [Zdigits2].
    rewrite Hdm, Z.max_l by lia.
    replace (24 + (e + Zpos d) - 24 - (e + Zpos d)) with 0 by lia.
    cbn [shr shr_record_of_loc shr_m].
    destruct (Z.leb_spec (e + Zpos d) (128 - 24)); [reflexivity|lia].
Qed.

(** Truncating a rounded positive number [S * 2^-a] that is below 2048 and
    whose fraction is at most 15/16 gives the integer part of the exact
    number. *)
Lemma round_trunc (S : positive) (a : Z) :
  0 <= a <= 24 ->
  Zpos S < 2 ^ (a + 11) ->
  (Zpos S mod 2 ^ a) * 16 <= 15 * 2 ^ a ->
  F32.trunc (binary_round 24 128 false S (- a)) = Some (Zpos S / 2 ^ a).
Proof.
  intros Ha Hlt Hfrac.
  pose proof (digits2_pos_bounds S) as [Dlo Dhi].
  set (D := Zpos (digits2_pos S)) in *.
  assert (HD : 1 <= D <= a + 11).
  { split; [unfold D; lia|].
    destruct (Z.le_gt_cases D (a + 11)) as [|Hgt]; [assumption|].
    assert (2 ^ (a + 11) <= 2 ^ (D - 1)) by (apply Z.pow_le_mono_r; lia).
    lia. }
  assert (Hpa : 0 < 2 ^ a) by (apply Z.pow_pos_nonneg; lia).
  unfold binary_round. fold D.
  unfold fexp, emin. rewrite Z.max_l by lia.
  unfold shl_align.
  replace (D + - a - 24 - - a) with (D - 24) by lia.
  destruct (D - 24) as [|d|d] eqn:Hd.
  - (* 24 digits: nothing to round *)
    rewrite round_aux_exact by (fold D; lia).
    unfold F32.trunc.
    destruct (Z.leb_spec 0 (- a)) as [Hz|Hz].
    + assert (a = 0) by lia. subst a.
      rewrite Z.shiftl_0_r. change (2 ^ 0) with 1. rewrite Z.div_1_r.
      reflexivity.
    + rewrite Z.shiftr_div_pow2 by lia. rewrite Z.opp_involutive. reflexivity.
  - (* more than 24 digits: the low [d] digits are rounded away *)
    assert (Hk : 13 <= a - Zpos d) by lia.
    assert (Hpd : 0 < 2 ^ Zpos d) by (apply Z.pow_pos_nonneg; lia).
    assert (Hpk : 32 <= 2 ^ (a - Zpos d)).
    { change 32 with (2 ^ 5). apply Z.pow_le_mono_r; lia. }
    assert (Hsplit : 2 ^ a = 2 ^ Zpos d * 2 ^ (a - Zpos d)).
    { rewrite <- Z.pow_add_r by lia. f_equal. lia. }
    rewrite Hsplit in Hfrac.
    destruct (div_round_up (Zpos S) (2 ^ Zpos d) (2 ^ (a - Zpos d)))
      as (Q0 & Q1 & Qm); try lia.
    rewrite <- Hsplit in Q0, Q1.
    assert (Hq : Zpos S / 2 ^ Zpos d + 1 < 2 ^ 24).
    { assert (Zpos S / 2 ^ Zpos d < 2 ^ 24).
      { apply Z.div_lt_upper_bound; [exact Hpd|].
        rewrite <- Z.pow_add_r by lia.
        replace (Zpos d + 24) with D by lia. exact Dhi. }
      destruct (Z.eq_dec (Zpos S / 2 ^ Zpos d + 1) (2 ^ 24)) as [Heq|]; [|lia].
      exfalso.
      assert (Hall : (Zpos S / 2 ^ Zpos d) mod 2 ^ (a - Zpos d)
                     = 2 ^ (a - Zpos d) - 1).
      { replace (Zpos S / 2 ^ Zpos d) with (2 ^ 24 - 1) by lia.
        assert (Hle : a - Zpos d <= 24) by lia.
        replace (2 ^ 24) with (2 ^ (24 - (a - Zpos d)) * 2 ^ (a - Zpos d)).
        2:{ rewrite <- Z.pow_add_r by lia. f_equal. lia. }
        assert (0 < 2 ^ (24 - (a - Zpos d)))
          by (apply Z.pow_pos_nonneg; lia).
        symmetry.
        apply Z.mod_unique with (2 ^ (24 - (a - Zpos d)) - 1); lia. }
      lia. }
    destruct (round_aux_shift S d (- a)) as (m & Hm & ->);
      [fold D; lia | lia | lia | exact Hq |].
    unfold F32.trunc.
    destruct (Z.leb_spec 0 (- a + Zpos d)) as [Hz|Hz]; [lia|].
    rewrite Z.shiftr_div_pow2 by lia.
    replace (- (- a + Zpos d)) with (a - Zpos d) by lia.
    destruct Hm as [-> | ->]; [rewrite Q0 | rewrite Q1]; reflexivity.
  - (* fewer than 24 digits: the mantissa is shifted up, exactly *)
    assert (Hm : Zpos (digits2_pos (Pos.iter xO S d)) = 24).
    { apply digits2_pos_unique. rewrite pos_shift_value.
      assert (Hp : 0 < 2 ^ Zpos d) by (apply Z.pow_pos_nonneg; lia).
      assert (E23 : 2 ^ (24 - 1) = 2 ^ (D - 1) * 2 ^ Zpos d).
      { rewrite <- Z.pow_add_r by lia. f_equal. lia. }
      assert (E24 : 2 ^ 24 = 2 ^ D * 2 ^ Zpos d).
      { rewrite <- Z.pow_add_r by lia. f_equal. lia. }
      rewrite E23, E24. nia. }
    rewrite round_aux_exact by (rewrite ?Hm; lia).
    unfold F32.trunc.
    destruct (Z.leb_spec 0 (D + - a - 24)) as [Hz|Hz]; [lia|].
    rewrite Z.shiftr_div_pow2 by lia. rewrite pos_shift_value.
    replace (- (D + - a - 24)) with (Zpos d + a) by lia.
    rewrite Z.pow_add_r by lia.
    rewrite (Z.mul_comm (2 ^ Zpos d) (2 ^ a)).
    rewrite Z.div_mul_cancel_r by lia. reflexivity.
Qed.

(** The arithmetic of aligning an integer [n] and a number [M / B] on the
    common unit [1 / (B * P)]. *)
Lemma add_aligned (n M B P i : Z) :
  0 <= n <= 1023 -> 0 < B -> 0 < P ->
  0 < M < 1024 * B -> M / B = i -> (M mod B) * 16 <= 15 * B ->
  0 < n * (B * P) + M * P < 2048 * (B * P)
  /\ ((n * (B * P) + M * P) mod (B * P)) * 16 <= 15 * (B * P)
  /\ (n * (B * P) + M * P) / (B * P) = n + i.
Proof.
  intros Hn HB HP HM Hi Hf.
  pose proof (Z.div_mod M B ltac:(lia)) as Hdm.
  pose proof (Z.mod_pos_bound M B HB) as Hr.
  rewrite Hi in Hdm. set (f := M mod B) in *.
  assert (HBP : 0 < B * P) by nia.
  assert (HfP : 0 <= f * P < B * P) by nia.
  assert (HS : n * (B * P) + M * P = (B * P) * (n + i) + f * P) by nia.
  assert (Hi0 : 0 <= i) by (rewrite <- Hi; apply Z.div_pos; lia).
  assert (Hi1 : i < 1024).
  { rewrite <- Hi. apply Z.div_lt_upper_bound; lia. }
  split; [nia|]. split.
  - rewrite HS.
    rewrite <- (Z.mod_unique _ (B * P) (n + i) (f * P)); [nia | lia | lia].
  - rewrite HS. symmetry. apply Z.div_unique with (f * P); lia.
Qed.

Lemma sub_aligned (n M B P i : Z) :
  0 <= n <= 1023 -> 0 < B -> 0 < P ->
  0 < M <= n * B ->
  (M mod B = 0 /\ M / B = i
   \/ M mod B <> 0 /\ M / B + 1 = i /\ B <= 16 * (M mod B)) ->
  0 <= n * (B * P) - M * P < 2048 * (B * P)
  /\ ((n * (B * P) - M * P) mod (B * P)) * 16 <= 15 * (B * P)
  /\ (n * (B * P) - M * P) / (B * P) = n - i.
Proof.
  intros Hn HB HP HM Hcase.
  pose proof (Z.div_mod M B ltac:(lia)) as Hdm.
  pose proof (Z.mod_pos_bound M B HB) as Hr.
  set (f := M mod B) in *. set (q := M / B) in *.
  assert (HBP : 0 < B * P) by nia.
  split; [nia|].
  destruct Hcase as [[Hf Hq] | (Hf & Hq & Hlow)].
  - assert (HS : n * (B * P) - M * P = (B * P) * (n - i) + 0) by nia.
    rewrite HS. split.
    + rewrite <- (Z.mod_unique _ (B * P) (n - i) 0); lia.
    + symmetry. apply Z.div_unique with 0; lia.
  - assert (HfP : 0 <= (B - f) * P < B * P) by nia.
    assert (HS : n * (B * P) - M * P = (B * P) * (n - i) + (B - f) * P) by nia.
    rewrite HS. split.
    + rewrite <- (Z.mod_unique _ (B * P) (n - i) ((B - f) * P));
        [nia | lia | lia].
    + symmetry. apply Z.div_unique with ((B - f) * P); lia.
Qed.

Lemma shl_align_value (m : positive) (e ez : Z) :
  ez <= e -> Zpos (fst (shl_align m e ez)) = Zpos m * 2 ^ (e - ez).
Proof.
  intros He. unfold shl_align.
  destruct (ez - e) as [|d|d] eqn:Hd; cbn [fst]; try lia.
  - replace (e - ez) with 0 by lia. change (2 ^ 0) with 1. lia.
  - rewrite pos_shift_value. f_equal. f_equal. lia.
Qed.

Lemma trunc_finite (m : positive) (e : Z) :
  e <= 0 -> F32.trunc (S754_finite false m e) = Some (Zpos m / 2 ^ (- e)).
Proof.
  intros He. unfold F32.trunc.
  destruct (Z.leb_spec 0 e) as [Hz|Hz].
  - assert (e = 0) by lia. subst e. rewrite Z.shiftl_0_r.
    change (2 ^ (- 0)) with 1. rewrite Z.div_1_r. reflexivity.
  - rewrite Z.shiftr_div_pow2 by lia. reflexivity.
Qed.

Lemma pow2_split (a b : Z) : 0 <= b <= a -> 2 ^ a = 2 ^ b * 2 ^ (a - b).
Proof. intros H. rewrite <- Z.pow_add_r by lia. f_equal. lia. Qed.

(** Integer plus scaled number, truncated. *)
Lemma add_trunc (n i : Z) (xn x : spec_float) :
  0 <= n <= 1023 -> isInt n xn = true -> fracOk i x = true ->
  F32.trunc (F32.add xn x) = Some (n + i).
Proof.
  intros Hn Hxn Hx.
  destruct xn as [[|]| | |[|] m1 e1]; try discriminate;
    destruct x as [[|]| | |[|] M E]; try discriminate;
    cbn [isInt fracOk] in Hxn, Hx.
  - apply Z.eqb_eq in Hxn, Hx. subst. reflexivity.
  - apply Z.eqb_eq in Hxn. subst n.
    rewrite !andb_true_iff in Hx. destruct Hx as ((((E1 & E2) & _) & Hi) & _).
    apply Z.leb_le in E2. apply Z.eqb_eq in Hi.
    change (F32.add (S754_zero false) (S754_finite false M E))
      with (S754_finite false M E).
    rewrite trunc_finite by exact E2. rewrite Hi. reflexivity.
  - apply Z.eqb_eq in Hx. subst i.
    rewrite !andb_true_iff in Hxn. destruct Hxn as ((E1 & E2) & Hm).
    apply Z.leb_le in E2. apply Z.eqb_eq in Hm.
    change (F32.add (S754_finite false m1 e1) (S754_zero false))
      with (S754_finite false m1 e1).
    rewrite trunc_finite by exact E2. rewrite Hm.
    rewrite Z.div_mul by (apply Z.pow_nonzero; lia). f_equal. lia.
  - rewrite !andb_true_iff in Hxn. rewrite !andb_true_iff in Hx.
    destruct Hxn as ((A1 & A2) & Hm).
    destruct Hx as ((((B1 & B2) & Hlt) & Hi) & Hf).
    apply Z.leb_le in A1, A2, B1, B2, Hf. apply Z.eqb_eq in Hm, Hi.
    apply Z.ltb_lt in Hlt.
    set (ez := Z.min e1 E).
    assert (Hez : -24 <= ez <= 0 /\ ez <= e1 /\ ez <= E) by (unfold ez; lia).
    change (F32.add (S754_finite false m1 e1) (S754_finite false M E))
      with (binary_normalize 24 128
              (Zpos (fst (shl_align m1 e1 ez)) + Zpos (fst (shl_align M E ez)))
              ez false).
    assert (Hp1 : Zpos (fst (shl_align m1 e1 ez)) = n * 2 ^ (- ez)).
    { rewrite shl_align_value by lia. rewrite Hm.
      rewrite <- Z.mul_assoc, <- Z.pow_add_r by lia. f_equal. f_equal. lia. }
    assert (Hp2 : Zpos (fst (shl_align M E ez)) = Zpos M * 2 ^ (E - ez)).
    { apply shl_align_value; lia. }
    set (B := 2 ^ (- E)) in *. set (P := 2 ^ (E - ez)) in *.
    assert (HB : 0 < B) by (apply Z.pow_pos_nonneg; lia).
    assert (HP : 0 < P) by (apply Z.pow_pos_nonneg; lia).
    assert (Ha : 2 ^ (- ez) = B * P).
    { unfold B, P. rewrite (pow2_split (- ez) (- E)) by lia.
      f_equal. f_equal. lia. }
    destruct (add_aligned n (Zpos M) B P i) as (S1 & S2 & S3); try lia.
    cbn [Z.add]. unfold binary_normalize.
    set (S := (fst (shl_align m1 e1 ez) + fst (shl_align M E ez))%positive).
    assert (HS : Zpos S = n * (B * P) + Zpos M * P).
    { unfold S. rewrite Pos2Z.inj_add, Hp1, Hp2, Ha. reflexivity. }
    replace ez with (- (- ez)) by lia.
    rewrite round_trunc; rewrite ?HS, ?Ha; try lia.
    + rewrite S3. reflexivity.
    + replace (- ez + 11) with (11 + - ez) by lia.
      rewrite Z.pow_add_r, Ha by lia. change (2 ^ 11) with 2048. lia.
Qed.

(** Integer minus scaled number, truncated. *)
Lemma sub_trunc (n i : Z) (xn x : spec_float) :
  0 <= n <= 1023 -> isInt n xn = true -> ceilOk n i x = true ->
  F32.trunc (F32.sub xn x) = Some (n - i).
Proof.
  intros Hn Hxn Hx.
  destruct xn as [[|]| | |[|] m1 e1]; try discriminate;
    destruct x as [[|]| | |[|] M E]; try discriminate;
    cbn [isInt ceilOk] in Hxn, Hx.
  - apply Z.eqb_eq in Hxn, Hx. subst. reflexivity.
  - apply Z.eqb_eq in Hxn. subst n.
    rewrite !andb_true_iff in Hx. destruct Hx as (((_ & _) & Hle) & _).
    apply Z.leb_le in Hle. lia.
  - apply Z.eqb_eq in Hx. subst i.
    rewrite !andb_true_iff in Hxn. destruct Hxn as ((E1 & E2) & Hm).
    apply Z.leb_le in E2. apply Z.eqb_eq in Hm.
    change (F32.sub (S754_finite false m1 e1) (S754_zero false))
      with (S754_finite false m1 e1).
    rewrite trunc_finite by exact E2. rewrite Hm.
    rewrite Z.div_mul by (apply Z.pow_nonzero; lia). f_equal. lia.
  - rewrite !andb_true_iff in Hxn.
    destruct Hxn as ((A1 & A2) & Hm).
    apply Z.leb_le in A1, A2. apply Z.eqb_eq in Hm.
    apply andb_true_iff in Hx. destruct Hx as [Hx Hcase].
    rewrite !andb_true_iff in Hx. destruct Hx as ((B1 & B2) & Hle).
    apply Z.leb_le in B1, B2, Hle.
    set (ez := Z.min e1 E).
    assert (Hez : -24 <= ez <= 0 /\ ez <= e1 /\ ez <= E) by (unfold ez; lia).
    change (F32.sub (S754_finite false m1 e1) (S754_finite false M E))
      with (binary_normalize 24 128
              (Zpos (fst (shl_align m1 e1 ez)) - Zpos (fst (shl_align M E ez)))
              ez false).
    assert (Hp1 : Zpos (fst (shl_align m1 e1 ez)) = n * 2 ^ (- ez)).
    { rewrite shl_align_value by lia. rewrite Hm.
      rewrite <- Z.mul_assoc, <- Z.pow_add_r by lia. f_equal. f_equal. lia. }
    assert (Hp2 : Zpos (fst (shl_align M E ez)) = Zpos M * 2 ^ (E - ez)).
    { apply shl_align_value; lia. }
    set (B := 2 ^ (- E)) in *. set (P := 2 ^ (E - ez)) in *.
    assert (HB : 0 < B) by (apply Z.pow_pos_nonneg; lia).
    assert (HP : 0 < P) by (apply Z.pow_pos_nonneg; lia).
    assert (Ha : 2 ^ (- ez) = B * P).
    { unfold B, P. rewrite (pow2_split (- ez) (- E)) by lia.
      f_equal. f_equal. lia. }
    assert (Hcase' : Zpos M mod B = 0 /\ Zpos M / B = i
                     \/ Zpos M mod B <> 0 /\ Zpos M / B + 1 = i
                        /\ B <= 16 * (Zpos M mod B)).
    { destruct (Z.eqb_spec (Zpos M mod B) 0) as [Hz|Hnz].
      - left. apply Z.eqb_eq in Hcase. auto.
      - right. apply andb_true_iff in Hcase. destruct Hcase as [Hq Hlow].
        apply Z.eqb_eq in Hq. apply Z.leb_le in Hlow. auto. }
    destruct (sub_aligned n (Zpos M) B P i) as (S1 & S2 & S3); try lia.
    rewrite Hp1, Hp2, Ha. unfold binary_normalize.
    destruct (n * (B * P) - Zpos M * P) as [|S|S] eqn:HV; [| |lia].
    + cbn [F32.trunc]. f_equal.
      rewrite Z.div_0_l in S3 by lia. lia.
    + replace ez with (- (- ez)) by lia.
      rewrite round_trunc; rewrite ?Ha; try lia.
      * rewrite S3. reflexivity.
      * replace (- ez + 11) with (11 + - ez) by lia.
        rewrite Z.pow_add_r, Ha by lia. change (2 ^ 11) with 2048. lia.
Qed.

Lemma ceilOk_mono (n n' i : Z) (x : spec_float) :
  n <= n' -> ceilOk n i x = true -> ceilOk n' i x = true.
Proof.
  intros Hn. destruct x as [[|]| | |[|] M E]; cbn [ceilOk]; auto.
  intros H. apply andb_true_iff in H. destruct H as [H Hcase].
  rewrite !andb_true_iff in H. destruct H as ((B1 & B2) & Hle).
  rewrite Hcase, B1, B2. cbn [andb]. rewrite andb_true_r.
  apply Z.leb_le in Hle. apply Z.leb_le.
  assert (0 < 2 ^ (- E)) by (apply Z.pow_pos_nonneg; apply Z.leb_le in B2; lia).
  nia.
Qed.

Lemma indices_In (n : Z) : 0 <= n <= 1023 -> In n (indices 1024).
Proof.
  intros Hn. unfold indices. apply in_map_iff.
  exists (Z.to_nat n). split; [lia|]. apply in_seq. lia.
Qed.

(** Three tables over all readings of the converter: every reading
    converts exactly, and its products with [0.6] and [0.8] have the shapes
    the two lemmas above ask for. *)
Lemma int_table (n : Z) :
  In n (indices 1024) -> isInt n (F32.of_Z n) = true.
Proof. revert n. apply forallb_forall. vm_compute. reflexivity. Qed.

Lemma scale_table_06 (r : Z) :
  In r (indices 1024) ->
  fracOk (6 * r / 10) (F32.mul (F32.of_Z r) F32.c06) = true.
Proof. revert r. apply forallb_forall. vm_compute. reflexivity. Qed.

Lemma scale_table_08 (r : Z) :
  In r (indices 1024) ->
  fracOk (8 * r / 10) (F32.mul (F32.of_Z r) F32.c08) = true.
Proof. revert r. apply forallb_forall. vm_compute. reflexivity. Qed.

Lemma ceil_table_08 (r : Z) :
  In r (indices 1024) ->
  ceilOk r ((8 * r + 9) / 10) (F32.mul (F32.of_Z r) F32.c08) = true.
Proof. revert r. apply forallb_forall. vm_compute. reflexivity. Qed.

Lemma of_Z_int (n : Z) : 0 <= n <= 1023 -> isInt n (F32.of_Z n) = true.
Proof. intros Hn. apply int_table, indices_In, Hn. Qed.

(** [n + r * 0.6], [n + r * 0.8] and [n - r * 0.8] on readings of the
    converter, truncated: the binary32 results are those of exact
    arithmetic. *)
Lemma add_scaled_06 (n r : Z) :
  0 <= n <= 1023 -> 0 <= r <= 1023 ->
  F32.trunc (F32.add (F32.of_Z n) (F32.mul (F32.of_Z r) F32.c06))
  = Some (n + 6 * r / 10).
Proof.
  intros Hn Hr. apply add_trunc; [exact Hn | apply of_Z_int, Hn |].
  apply scale_table_06, indices_In, Hr.
Qed.

Lemma add_scaled_08 (n r : Z) :
  0 <= n <= 1023 -> 0 <= r <= 1023 ->
  F32.trunc (F32.add (F32.of_Z n) (F32.mul (F32.of_Z r) F32.c08))
  = Some (n + 8 * r / 10).
Proof.
  intros Hn Hr. apply add_trunc; [exact Hn | apply of_Z_int, Hn |].
  apply scale_table_08, indices_In, Hr.
Qed.

Lemma sub_scaled_08 (n r : Z) :
  0 <= r <= n -> n <= 1023 ->
  F32.trunc (F32.sub (F32.of_Z n) (F32.mul (F32.of_Z r) F32.c08))
  = Some (n - (8 * r + 9) / 10).
Proof.
  intros Hr Hn. apply sub_trunc; [lia | apply of_Z_int; lia |].
  apply (ceilOk_mono r n); [lia|].
  apply ceil_table_08, indices_In. lia.
Qed.

Lemma to_int_exact `{Target} (x : spec_float) (z : Z) :
  F32.trunc x = Some z -> -32768 <= z <= 32767 -> F32.to_int x = ret z.
Proof.
  intros Hx Hz. unfold F32.to_int. rewrite Hx.
  destruct (Z.leb_spec (-32768) z); [|lia].
  destruct (Z.leb_spec z 32767); [|lia]. reflexivity.
Qed.

(** ** GSR extractor *)

(** Reading a field of a record that is written out. *)
Ltac gsr_fields :=
  cbn [GSR.gsrBuffer GSR.bufferIndex GSR.baseline GSR.smoothedValue
       GSR.sweatLevel GSR.calibrated GSR.calibrationSamples] in *.

Lemma gsr_level_bands (d : Z) :
  (d < 10 -> GSR.level d = 0)
  /\ (10 <= d < 30 -> GSR.level d = 1)
  /\ (30 <= d < 60 -> GSR.level d = 2)
  /\ (60 <= d -> GSR.level d = 3).
Proof.
  unfold GSR.level.
  destruct (Z.ltb_spec d 10), (Z.ltb_spec d 30), (Z.ltb_spec d 60);
    repeat split; intros; lia.
Qed.

(** The two modes of a call. *)
Lemma gsr_calibrated_step (rawValue now : Z) (s : GSR.GSRProcessor) :
  GSR.calibrated s = true ->
  GSR.processGSRSample rawValue now s
  = GSR.classify now (GSR.smooth rawValue s).
Proof.
  intros Hcal. unfold GSR.processGSRSample.
  change (GSR.calibrated (GSR.smooth rawValue s)) with (GSR.calibrated s).
  rewrite Hcal. reflexivity.
Qed.

Lemma gsr_calibrating_step (rawValue now : Z) (s : GSR.GSRProcessor) :
  GSR.calibrated s = false ->
  GSR.processGSRSample rawValue now s = GSR.calibrate (GSR.smooth rawValue s).
Proof.
  intros Hcal. unfold GSR.processGSRSample.
  change (GSR.calibrated (GSR.smooth rawValue s)) with (GSR.calibrated s).
  rewrite Hcal. reflexivity.
Qed.

(** C3.  In calibrated mode a call classifies
    [delta = smoothedValue - baseline] (the moving average computed by this
    call against the baseline the call started with; the [int] subtraction
    is exact whenever the difference is an [int], as it is for converter
    readings): below 10 DRY (0), from 10 below 30 LOW (1), from 30 below 60
    MED (2), from 60 on HIGH (3); the deltas 9, 10, 29, 30, 59, 60 give
    DRY, LOW, LOW, MED, MED, HIGH. *)
Theorem gsr_classification_bands (rawValue now : Z) (s : GSR.GSRProcessor) :
  GSR.calibrated s = true ->
  let s' := GSR.processGSRSample rawValue now s in
  let d := GSR.smoothedValue s' - GSR.baseline s in
  -32768 <= d <= 32767 ->
  GSR.smoothedValue s' = GSR.smoothedValue (GSR.smooth rawValue s)
  /\ (d < 10 -> GSR.getSweatLevel s' = 0)
  /\ (10 <= d < 30 -> GSR.getSweatLevel s' = 1)
  /\ (30 <= d < 60 -> GSR.getSweatLevel s' = 2)
  /\ (60 <= d -> GSR.getSweatLevel s' = 3)
  /\ (d = 9 -> GSR.getSweatLevel s' = 0)
  /\ (d = 10 -> GSR.getSweatLevel s' = 1)
  /\ (d = 29 -> GSR.getSweatLevel s' = 1)
  /\ (d = 30 -> GSR.getSweatLevel s' = 2)
  /\ (d = 59 -> GSR.getSweatLevel s' = 2)
  /\ (d = 60 -> GSR.getSweatLevel s' = 3).
Proof.
  intros Hcal. cbv zeta. rewrite (gsr_calibrated_step rawValue now s Hcal).
  unfold GSR.getSweatLevel, GSR.classify, GSR.delta.
  cbn [GSR.smoothedValue GSR.sweatLevel].
  change (GSR.baseline (GSR.smooth rawValue s)) with (GSR.baseline s).
  generalize (GSR.smoothedValue (GSR.smooth rawValue s)); intros sm Hd.
  rewrite (int16_id _ Hd).
  destruct (gsr_level_bands (sm - GSR.baseline s)) as (H0 & H1 & H2 & H3).
  split; [reflexivity|].
  repeat split; intros; first [apply H0 | apply H1 | apply H2 | apply H3]; lia.
Qed.

Lemma gsr_classification_bands_witness :
  GSR.calibrated gsrCalibrated = true
  /\ -32768 <= GSR.smoothedValue (GSR.processGSRSample 800 7 gsrCalibrated)
               - GSR.baseline gsrCalibrated <= 32767
  /\ GSR.getSweatLevel (GSR.processGSRSample 800 7 gsrCalibrated) = 1.
Proof.
  split; [vm_compute; reflexivity|].
  split; [vm_compute; split; discriminate|].
  assert (Hc : GSR.calibrated gsrCalibrated = true) by (vm_compute; reflexivity).
  assert (Hd : -32768 <= GSR.smoothedValue (GSR.processGSRSample 800 7 gsrCalibrated)
                         - GSR.baseline gsrCalibrated <= 32767)
    by (vm_compute; split; discriminate).
  destruct (gsr_classification_bands 800 7 gsrCalibrated Hc Hd)
    as (_ & _ & Hlow & _).
  apply Hlow. vm_compute. split; [discriminate | reflexivity].
Defined.

(** Calibration counts the calls: while fewer than fifty have been made
    nothing but the counter, the ring and the moving average moves. *)
Lemma gsr_calibrating (inputs : list (Z * Z)) (s : GSR.GSRProcessor) :
  GSR.calibrated s = false ->
  0 <= GSR.calibrationSamples s ->
  GSR.calibrationSamples s + Z.of_nat (length inputs) < 50 ->
  GSR.calibrated (GSR.run inputs s) = false
  /\ GSR.calibrationSamples (GSR.run inputs s)
     = GSR.calibrationSamples s + Z.of_nat (length inputs)
  /\ GSR.sweatLevel (GSR.run inputs s) = GSR.sweatLevel s
  /\ GSR.baseline (GSR.run inputs s) = GSR.baseline s.
Proof.
  revert s. induction inputs as [|[rawValue now] rest IH]; intros s Hc H0 Hn.
  - cbn. repeat split; auto. lia.
  - cbn [length] in Hn. rewrite Nat2Z.inj_succ in Hn.
    change (GSR.run ((rawValue, now) :: rest) s)
      with (GSR.run rest (GSR.processGSRSample rawValue now s)).
    rewrite (gsr_calibrating_step rawValue now s Hc).
    assert (Hcal : GSR.calibrate (GSR.smooth rawValue s)
                   = {| GSR.gsrBuffer := GSR.gsrBuffer (GSR.smooth rawValue s);
                        GSR.bufferIndex := GSR.bufferIndex (GSR.smooth rawValue s);
                        GSR.baseline := GSR.baseline s;
                        GSR.smoothedValue := GSR.smoothedValue (GSR.smooth rawValue s);
                        GSR.sweatLevel := GSR.sweatLevel s;
                        GSR.calibrated := false;
                        GSR.calibrationSamples := GSR.calibrationSamples s + 1 |}).
    { unfold GSR.calibrate.
      change (GSR.calibrationSamples (GSR.smooth rawValue s))
        with (GSR.calibrationSamples s).
      rewrite (int16_id (GSR.calibrationSamples s + 1)) by lia.
      unfold GSR.CALIBRATION_TIME.
      destruct (Z.geb_spec (GSR.calibrationSamples s + 1) 50); [lia|].
      change (GSR.calibrated (GSR.smooth rawValue s)) with (GSR.calibrated s).
      rewrite Hc. reflexivity. }
    rewrite Hcal.
    match goal with |- context [GSR.run rest ?st] =>
      destruct (IH st) as (I1 & I2 & I3 & I4);
        cbn [GSR.calibrated GSR.calibrationSamples]; auto; try lia
    end.
    cbn [GSR.calibrationSamples GSR.sweatLevel GSR.baseline] in I2, I3, I4.
    repeat split; auto.
    rewrite I2. cbn [length]. lia.
Qed.

Lemma gsr_calibrated_stays (inputs : list (Z * Z)) (s : GSR.GSRProcessor) :
  GSR.calibrated s = true -> GSR.calibrated (GSR.run inputs s) = true.
Proof.
  revert s. induction inputs as [|[rawValue now] rest IH]; intros s Hc; auto.
  change (GSR.run ((rawValue, now) :: rest) s)
    with (GSR.run rest (GSR.processGSRSample rawValue now s)).
  apply IH. rewrite (gsr_calibrated_step rawValue now s Hc). exact Hc.
Qed.

Lemma gsr_run_app (l1 l2 : list (Z * Z)) (s : GSR.GSRProcessor) :
  GSR.run (l1 ++ l2) s = GSR.run l2 (GSR.run l1 s).
Proof. apply fold_left_app. Qed.

(** The call that completes the count. *)
Lemma gsr_completion (rawValue now : Z) (s : GSR.GSRProcessor) :
  GSR.calibrated s = false ->
  GSR.calibrationSamples s = 49 ->
  let s' := GSR.processGSRSample rawValue now s in
  GSR.calibrated s' = true
  /\ GSR.baseline s' = GSR.smoothedValue s'
  /\ GSR.sweatLevel s' = GSR.sweatLevel s.
Proof.
  intros Hc Hn. cbv zeta. rewrite (gsr_calibrating_step rawValue now s Hc).
  unfold GSR.calibrate.
  change (GSR.calibrationSamples (GSR.smooth rawValue s))
    with (GSR.calibrationSamples s).
  rewrite Hn. change (int16 (49 + 1) >=? GSR.CALIBRATION_TIME) with true.
  cbn iota. gsr_fields. repeat split.
Qed.

(** C9.  From reset, while fewer than fifty samples have been fed the
    calibrated flag is false and the sweat level is still the initial 0: no
    classification has run.  The fiftieth sample sets the baseline to the
    moving average of that call and sets the flag, which no later call
    clears.  Right after completion the level is DRY (0) with
    [smoothedValue = baseline], and any later call whose moving average
    equals the baseline it started with reports DRY. *)
Theorem gsr_calibration (inputs : list (Z * Z)) :
  let s := GSR.run inputs GSR.init in
  ((length inputs < 50)%nat ->
     GSR.calibrated s = false /\ GSR.getSweatLevel s = 0)
  /\ (length inputs = 50%nat ->
        GSR.calibrated s = true
        /\ GSR.baseline s = GSR.getSmoothedValue s
        /\ GSR.getSweatLevel s = 0)
  /\ ((50 <= length inputs)%nat -> GSR.calibrated s = true)
  /\ (forall rawValue now : Z,
        GSR.calibrated s = true ->
        GSR.getSmoothedValue (GSR.processGSRSample rawValue now s)
        = GSR.baseline s ->
        GSR.getSweatLevel (GSR.processGSRSample rawValue now s) = 0).
Proof.
  cbv zeta.
  assert (Hbefore : forall l : list (Z * Z), (length l < 50)%nat ->
            GSR.calibrated (GSR.run l GSR.init) = false
            /\ GSR.calibrationSamples (GSR.run l GSR.init) = Z.of_nat (length l)
            /\ GSR.sweatLevel (GSR.run l GSR.init) = 0).
  { intros l Hl.
    destruct (gsr_calibrating l GSR.init) as (I1 & I2 & I3 & _);
      cbn [GSR.init GSR.calibrated GSR.calibrationSamples];
      try reflexivity; try lia.
    repeat split; auto. }
  assert (Hat : forall l : list (Z * Z), length l = 50%nat ->
            GSR.calibrated (GSR.run l GSR.init) = true
            /\ GSR.baseline (GSR.run l GSR.init)
               = GSR.smoothedValue (GSR.run l GSR.init)
            /\ GSR.sweatLevel (GSR.run l GSR.init) = 0).
  { intros l Hl.
    destruct (exists_last (l := l)) as (pre & [rawValue now] & ->).
    { intros ->. discriminate. }
    rewrite length_app in Hl. cbn [length] in Hl.
    destruct (Hbefore pre) as (I1 & I2 & I3); [lia|].
    rewrite gsr_run_app.
    change (GSR.run [(rawValue, now)] (GSR.run pre GSR.init))
      with (GSR.processGSRSample rawValue now (GSR.run pre GSR.init)).
    destruct (gsr_completion rawValue now (GSR.run pre GSR.init))
      as (J1 & J2 & J3); auto.
    { rewrite I2. lia. }
    rewrite J3, I3. repeat split; auto. }
  split; [intros Hl; split; apply Hbefore; auto|].
  split; [intros Hl; apply Hat; auto|].
  split.
  - intros Hl.
    rewrite <- (firstn_skipn 50 inputs), gsr_run_app.
    apply gsr_calibrated_stays, Hat.
    rewrite length_firstn. lia.
  - intros rawValue now Hc.
    rewrite (gsr_calibrated_step rawValue now _ Hc).
    unfold GSR.getSweatLevel, GSR.getSmoothedValue, GSR.classify, GSR.delta.
    cbn [GSR.smoothedValue GSR.sweatLevel].
    set (t := GSR.run inputs GSR.init).
    change (GSR.baseline (GSR.smooth rawValue t)) with (GSR.baseline t).
    intros ->. rewrite Z.sub_diag. reflexivity.
Qed.

Lemma gsr_calibration_witness :
  length (repeat (500, 7) 50) = 50%nat
  /\ GSR.calibrated gsrCalibrated = true
  /\ GSR.baseline gsrCalibrated = GSR.getSmoothedValue gsrCalibrated
  /\ GSR.getSweatLevel gsrCalibrated = 0.
Proof.
  split; [reflexivity|].
  apply (proj1 (proj2 (gsr_calibration (repeat (500, 7) 50)))).
  reflexivity.
Defined.

(** The baseline moves only on a call made while [millis()] is a multiple
    of 60000; then it becomes the [int] value of
    [(baseline * 99 + smoothedValue) / 100], which is the 99:1 average as
    long as neither [baseline * 99] nor the sum leaves [int]. *)
Lemma gsr_baseline_step (rawValue now : Z) (s : GSR.GSRProcessor) :
  GSR.calibrated s = true ->
  let s' := GSR.processGSRSample rawValue now s in
  (GSR.adaptDue now = false -> GSR.baseline s' = GSR.baseline s)
  /\ (GSR.adaptDue now = true ->
      -32768 <= GSR.baseline s * 99 <= 32767 ->
      -32768 <= GSR.baseline s * 99 + GSR.smoothedValue s' <= 32767 ->
      GSR.baseline s'
      = Z.quot (99 * GSR.baseline s + GSR.smoothedValue s') 100).
Proof.
  intros Hcal. cbv zeta. rewrite (gsr_calibrated_step rawValue now s Hcal).
  unfold GSR.classify, GSR.adapted. cbn [GSR.baseline GSR.smoothedValue].
  change (GSR.baseline (GSR.smooth rawValue s)) with (GSR.baseline s).
  generalize (GSR.smoothedValue (GSR.smooth rawValue s)); intros sm.
  split; intros Hdue; rewrite Hdue; [reflexivity|].
  intros Hb Hr.
  rewrite (int16_id _ Hb), (int16_id _ Hr), (Z.mul_comm 99).
  apply int16_id.
  Z.to_euclidean_division_equations. lia.
Qed.

(** C7 on the code.  A calibrated extractor with baseline 500 is fed
    samples while [millis()] reads 59900 and 60100: a minute boundary goes
    by, the moving average has left the baseline, and the baseline is not
    touched, because no call fell on a multiple of 60000 ms.  When a call
    does fall on one (120000), [baseline * 99] has left the 16-bit [int]
    and the baseline becomes -155 instead of (99 * 500 + 510) / 100 = 500. *)
Theorem gsr_baseline_skips_minute :
  let s1 := GSR.processGSRSample 600 59900 gsrCalibrated in
  let s2 := GSR.processGSRSample 600 60100 s1 in
  let s3 := GSR.processGSRSample 600 120000 s2 in
  GSR.calibrated gsrCalibrated = true
  /\ GSR.baseline gsrCalibrated = 500
  /\ GSR.smoothedValue s1 = 503 /\ GSR.baseline s1 = 500
  /\ GSR.smoothedValue s2 = 506 /\ GSR.baseline s2 = 500
  /\ GSR.smoothedValue s3 = 510 /\ GSR.baseline s3 = -155
  /\ Z.quot (99 * 500 + 510) 100 = 500.
Proof. vm_compute. repeat split. Qed.

(** ** GSR extractor on converter readings *)

Lemma int16_range (x : Z) : -32768 <= int16 x <= 32767.
Proof.
  unfold int16.
  pose proof (Z.mod_pos_bound (x + 32768) 65536 ltac:(lia)). lia.
Qed.

Lemma quot_100_int (x : Z) :
  -32768 <= x <= 32767 -> -327 <= Z.quot x 100 <= 327.
Proof. intros Hx. Z.to_euclidean_division_equations. lia. Qed.

(** A [long] sum of converter readings does not wrap. *)
Lemma long_sum_exact (l : list Z) (acc : Z) :
  Forall adc l ->
  0 <= acc -> acc + 1023 * Z.of_nat (length l) <= 2147483647 ->
  fold_left (fun sum v => int32 (sum + v)) l acc = acc + total l
  /\ 0 <= total l <= 1023 * Z.of_nat (length l).
Proof.
  intros Hl. revert acc.
  induction Hl as [|v t Hv Ht IH]; intros acc H0 Hb.
  - cbn. lia.
  - unfold adc in Hv. cbn [length] in Hb. rewrite Nat2Z.inj_succ in Hb.
    cbn [fold_left total fold_right length]. fold (total t).
    rewrite Nat2Z.inj_succ.
    unfold int32 at 2. rewrite Z.mod_small by lia.
    replace (acc + v + 2147483648 - 2147483648) with (acc + v) by lia.
    destruct (IH (acc + v)) as [E B]; [lia | lia |].
    rewrite E. lia.
Qed.

(** The state of the GSR extractor along a run on converter readings. *)
Lemma gsr_step_adc (rawValue now : Z) (s : GSR.GSRProcessor) :
  adc rawValue -> gsrAdc s -> gsrAdc (GSR.processGSRSample rawValue now s).
Proof.
  intros Hraw (Hlen & Hbuf & Hidx & Hsm & Hbase).
  set (buf := store (GSR.gsrBuffer s) (GSR.bufferIndex s) rawValue).
  assert (Hlen' : length buf = 30%nat)
    by (unfold buf; rewrite store_length; exact Hlen).
  assert (Hbuf' : Forall adc buf)
    by (unfold buf; apply store_Forall; assumption).
  assert (Hsum : 0 <= GSR.windowSum buf <= 30690).
  { unfold GSR.windowSum. rewrite <- Hlen'.
    rewrite (fold_indices (fun sum v => int32 (sum + v)) buf 0).
    destruct (long_sum_exact buf 0 Hbuf' ltac:(lia)
                ltac:(rewrite Hlen'; lia)) as [E B].
    rewrite E. rewrite Hlen' in B. lia. }
  assert (Hsm' : adc (int16 (Z.quot (GSR.windowSum buf) GSR.BUFFER_SIZE))).
  { unfold adc, GSR.BUFFER_SIZE.
    rewrite int16_id; Z.to_euclidean_division_equations; lia. }
  assert (Hidx' : 0 <= Z.rem (int16 (GSR.bufferIndex s + 1)) GSR.BUFFER_SIZE < 30).
  { unfold GSR.BUFFER_SIZE. rewrite int16_id by lia.
    pose proof (Z.rem_bound_pos (GSR.bufferIndex s + 1) 30). lia. }
  unfold GSR.processGSRSample.
  change (GSR.calibrated (GSR.smooth rawValue s)) with (GSR.calibrated s).
  destruct (GSR.calibrated s); cbn [negb].
  - unfold gsrAdc, GSR.classify, GSR.smooth. gsr_fields. fold buf.
    repeat split; try assumption; try (unfold adc in *; lia).
    + destruct (GSR.adaptDue now); [|lia].
      unfold GSR.adapted. gsr_fields.
      pose proof (quot_100_int _ (int16_range
                    (int16 (GSR.baseline s * 99)
                     + int16 (Z.quot (GSR.windowSum buf) GSR.BUFFER_SIZE)))).
      rewrite int16_id; lia.
    + destruct (GSR.adaptDue now); [|lia].
      unfold GSR.adapted. gsr_fields.
      pose proof (quot_100_int _ (int16_range
                    (int16 (GSR.baseline s * 99)
                     + int16 (Z.quot (GSR.windowSum buf) GSR.BUFFER_SIZE)))).
      rewrite int16_id; lia.
  - unfold gsrAdc, GSR.calibrate, GSR.smooth. gsr_fields. fold buf.
    destruct (_ >=? _); gsr_fields; fold buf;
      repeat split; try assumption; unfold adc in *; lia.
Qed.

Lemma gsr_run_adc (inputs : list (Z * Z)) (s : GSR.GSRProcessor) :
  Forall (fun i => adc (fst i)) inputs -> gsrAdc s -> gsrAdc (GSR.run inputs s).
Proof.
  intros Hin. revert s.
  induction Hin as [|[rawValue now] rest Hraw Hrest IH]; intros s Hs;
    [exact Hs|].
  change (GSR.run ((rawValue, now) :: rest) s)
    with (GSR.run rest (GSR.processGSRSample rawValue now s)).
  apply IH, gsr_step_adc; assumption.
Qed.

(** On converter readings [delta] never leaves [int]: the subtraction of
    line 282 is exact along every run from reset. *)
Lemma gsr_delta_exact (inputs : list (Z * Z)) (rawValue now : Z) :
  Forall (fun i => adc (fst i)) inputs -> adc rawValue ->
  let s := GSR.run inputs GSR.init in
  -32768 <= GSR.smoothedValue (GSR.processGSRSample rawValue now s)
            - GSR.baseline s <= 32767.
Proof.
  intros Hin Hraw. cbv zeta.
  assert (Hinit : gsrAdc GSR.init).
  { unfold gsrAdc, adc. cbn. repeat split; try lia.
    repeat constructor; lia. }
  pose proof (gsr_run_adc inputs GSR.init Hin Hinit) as Hs.
  pose proof (gsr_step_adc rawValue now _ Hraw Hs) as Hs'.
  destruct Hs as (_ & _ & _ & _ & Hb). destruct Hs' as (_ & _ & _ & Hsm & _).
  unfold adc in Hsm. lia.
Qed.

(** ** The monad *)

Lemma bind_ret_l {A B : Type} (a : A) (k : A -> M B) : bind (ret a) k = k a.
Proof. unfold bind, ret. destruct (k a). reflexivity. Qed.

Lemma value_bind {A B : Type} (m : M A) (k : A -> M B) :
  value (bind m k) = value (k (value m)).
Proof. unfold bind, value. destruct m as [a fa]. cbn. destruct (k a). reflexivity. Qed.

Lemma faults_bind {A B : Type} (m : M A) (k : A -> M B) :
  faults (bind m k) = faults m ++ faults (k (value m)).
Proof. unfold bind, value, faults. destruct m as [a fa]. cbn. destruct (k a). reflexivity. Qed.

(** ** Interval averager *)

Lemma sumCount_fold (l : list Z) :
  length l = 10%nat -> sumCount l = fold_left sumCountStep l (0, 0).
Proof.
  intros Hl. unfold sumCount. rewrite <- Hl.
  exact (fold_indices sumCountStep l (0, 0)).
Qed.

(** Without overflow the loop computes the sum and the number of the
    populated slots. *)
Lemma sumCountStep_exact (B : Z) (l : list Z) (sum count : Z) :
  Forall (fun v => 0 <= v <= B) l ->
  0 <= sum -> sum + B * Z.of_nat (length l) <= 32767 ->
  0 <= count -> count + Z.of_nat (length l) <= 32767 ->
  fold_left sumCountStep l (sum, count)
  = (sum + total (populated l), count + Z.of_nat (length (populated l))).
Proof.
  intros Hl. revert sum count.
  induction Hl as [|v t Hv Ht IH]; intros sum count Hs Hsb Hc Hcb.
  - cbn. f_equal; lia.
  - cbn [length] in Hsb, Hcb. rewrite Nat2Z.inj_succ in Hsb, Hcb.
    cbv beta in Hv. rewrite Z.mul_succ_r in Hsb.
    assert (HB : 0 <= B * Z.of_nat (length t)) by nia.
    cbn [fold_left sumCountStep populated filter].
    destruct (Z.gtb_spec v 0) as [Hpos|Hnp].
    + rewrite (int16_id (sum + v)), (int16_id (count + 1)) by lia.
      rewrite IH by lia.
      cbn [total fold_right length]. fold (populated t). fold (total (populated t)).
      rewrite Nat2Z.inj_succ. f_equal; lia.
    + rewrite IH by lia. reflexivity.
Qed.

Lemma populated_bounds (lo hi : Z) (l : list Z) :
  Forall (fun v => v = 0 \/ lo < v < hi) l -> 0 <= lo ->
  (lo + 1) * Z.of_nat (length (populated l)) <= total (populated l)
  /\ total (populated l) <= (hi - 1) * Z.of_nat (length (populated l)).
Proof.
  intros Hl Hlo. induction Hl as [|v t Hv Ht IH].
  { change (populated []) with (@nil Z). unfold total.
    cbn [fold_right length]. lia. }
  cbv beta in Hv.
  cbn [populated filter]. destruct (Z.gtb_spec v 0) as [Hpos|Hnp].
  - cbn [total fold_right length]. fold (populated t).
    fold (total (populated t)). rewrite Nat2Z.inj_succ. lia.
  - exact IH.
Qed.

Lemma populated_length (l : list Z) : (length (populated l) <= length l)%nat.
Proof. apply filter_length_le. Qed.

Lemma store_nat_In (a : list Z) (i : nat) (v : Z) :
  (i < length a)%nat -> In v (store_nat a i v).
Proof.
  revert i. induction a as [|h t IH]; intros [|j] Hi; cbn in *; try lia; auto.
  right. apply IH. lia.
Qed.

Lemma populated_store (a : list Z) (i v : Z) :
  0 <= i < Z.of_nat (length a) -> 0 < v -> In v (populated (store a i v)).
Proof.
  intros Hi Hv. unfold populated. apply filter_In. split.
  - apply store_nat_In. lia.
  - apply Z.gtb_lt. exact Hv.
Qed.

Section Averager.
Context {T : Target}.

Lemma c_div_nonzero (a b : Z) : b <> 0 -> c_div a b = ret (Z.quot a b).
Proof.
  intros Hb. unfold c_div. destruct (Z.eqb_spec b 0); [contradiction|reflexivity].
Qed.

(** On a ring of ten slots, each empty or strictly between [lo] and [hi],
    with at least one populated slot and no overflow of the [int] sum, the
    rate is 60000 divided by the mean of the populated slots and no
    division sees a zero divisor. *)
Lemma averageRate_mean (lo hi : Z) (l : list Z) (old : Z) :
  length l = 10%nat ->
  Forall (fun v => v = 0 \/ lo < v < hi) l ->
  1 <= lo -> hi <= 3277 ->
  populated l <> [] ->
  averageRate l old = ret (Z.quot 60000 (mean (populated l)))
  /\ lo < mean (populated l) < hi.
Proof.
  intros Hlen Hl Hlo Hhi Hne.
  assert (Hn : 1 <= Z.of_nat (length (populated l)) <= 10).
  { pose proof (populated_length l). rewrite Hlen in *.
    destruct (populated l); [contradiction|cbn [length] in *; lia]. }
  destruct (populated_bounds lo hi l Hl) as [Hlow Hup]; [lia|].
  assert (Hsc : sumCount l = (total (populated l),
                              Z.of_nat (length (populated l)))).
  { rewrite sumCount_fold by exact Hlen.
    rewrite (sumCountStep_exact (hi - 1)); rewrite ?Hlen; try lia.
    - reflexivity.
    - eapply Forall_impl; [|exact Hl]. cbv beta. intros v Hv. lia. }
  assert (Hmean : lo < mean (populated l) < hi).
  { unfold mean. Z.to_euclidean_division_equations. nia. }
  split; [|exact Hmean].
  unfold averageRate. rewrite Hsc.
  destruct (Z.gtb_spec (Z.of_nat (length (populated l))) 0); [|lia].
  rewrite c_div_nonzero by lia. rewrite bind_ret_l.
  fold (mean (populated l)).
  rewrite (int16_id (mean (populated l))) by lia.
  rewrite c_div_nonzero by lia. rewrite bind_ret_l.
  rewrite int16_id; [reflexivity|].
  Z.to_euclidean_division_equations. nia.
Qed.
End Averager.

(** ** Cardiac extractor *)

Ltac ecg_fields :=
  cbn [ECG.ecgBuffer ECG.bufferIndex ECG.lastPeakTime ECG.rrIntervals
       ECG.rrIndex ECG.currentHeartRate ECG.peakThreshold ECG.signalMin
       ECG.signalMax ECG.leadOff ECG.inPeak ECG.peakValue
       ECG.markLeadOff ECG.pushSample ECG.withThreshold ECG.withPeak
       ECG.withIntervals ECG.withLastPeakTime] in *.

Lemma rrValid_spec (rr : Z) : ECG.rrValid rr = true <-> 300 < rr < 2000.
Proof.
  unfold ECG.rrValid. rewrite andb_true_iff, Z.gtb_lt, Z.ltb_lt. lia.
Qed.

Section Cardiac.
Context {T : Target}.


(** A valid candidate is stored at the cursor and the rate recomputed
    from the ring; any other candidate changes nothing. *)
Lemma ecg_admit (rr : Z) (s : ECG.ECGProcessor) :
  rrRing s ->
  let m := ECG.admitInterval rr s in
  rrRing (value m)
  /\ faults m = []
  /\ ECG.leadOff (value m) = ECG.leadOff s
  /\ (300 < rr < 2000 ->
      ECG.rrIntervals (value m) = store (ECG.rrIntervals s) (ECG.rrIndex s) rr
      /\ ECG.rrIndex (value m) = Z.rem (ECG.rrIndex s + 1) 10
      /\ ECG.currentHeartRate (value m)
         = Z.quot 60000 (mean (populated (ECG.rrIntervals (value m)))))
  /\ (~ 300 < rr < 2000 -> value m = s).
Proof.
  intros (Hlen & Hslots & Hidx). cbv zeta. unfold ECG.admitInterval.
  destruct (ECG.rrValid rr) eqn:Hv.
  - apply rrValid_spec in Hv.
    set (iv := store (ECG.rrIntervals s) (ECG.rrIndex s) rr).
    assert (Hiv : length iv = 10%nat) by (unfold iv; rewrite store_length; exact Hlen).
    assert (Hfa : Forall rrSlot iv).
    { unfold iv. apply store_Forall; [exact Hslots | right; exact Hv]. }
    assert (Hpop : populated iv <> []).
    { intros Hnil.
      assert (Hin : In rr (populated iv)).
      { unfold iv. apply populated_store; lia. }
      rewrite Hnil in Hin. exact Hin. }
    destruct (averageRate_mean 300 2000 iv (ECG.currentHeartRate s))
      as [Hrate _]; auto; try lia.
    rewrite Hrate, bind_ret_l.
    rewrite (int16_id (ECG.rrIndex s + 1)) by lia.
    change (value (ret ?x)) with x. change (faults (ret ?x)) with (@nil fault).
    unfold rrRing. ecg_fields.
    repeat split; auto; try (intros; lia).
    + pose proof (Z.rem_bound_pos (ECG.rrIndex s + 1) 10). lia.
    + pose proof (Z.rem_bound_pos (ECG.rrIndex s + 1) 10). lia.
  - assert (Hn : ~ 300 < rr < 2000).
    { intros H. apply rrValid_spec in H. congruence. }
    change (value (ret ?x)) with x. change (faults (ret ?x)) with (@nil fault).
    unfold rrRing. repeat split; auto; intros; lia.
Qed.

(** A call with the leads on reaches the falling-edge code exactly when it
    is inside a peak and the sample is below the threshold without
    exceeding the peak value. *)
Lemma ecg_peak_exit (loPlus loMinus rawValue now : Z) (s : ECG.ECGProcessor) :
  loPlus <> 1 -> loMinus <> 1 ->
  let s1 := value (ECG.updateThreshold (ECG.pushSample rawValue s)) in
  ECG.inPeak s1 = true ->
  rawValue <= ECG.peakValue s1 -> rawValue < ECG.peakThreshold s1 ->
  value (ECG.processECGSample loPlus loMinus rawValue now s)
  = value (ECG.peakComplete now s1).
Proof.
  intros Hp Hm. cbv zeta. intros Hin Hpv Hthr.
  unfold ECG.processECGSample.
  destruct (Z.eqb_spec loPlus 1) as [|_]; [contradiction|].
  destruct (Z.eqb_spec loMinus 1) as [|_]; [contradiction|].
  cbn [orb]. rewrite value_bind. unfold ECG.detectPeak.
  rewrite Hin. cbn [negb]. rewrite andb_false_r.
  destruct (Z.gtb_spec rawValue
              (ECG.peakValue
                 (value (ECG.updateThreshold (ECG.pushSample rawValue s)))));
    [lia|].
  destruct (Z.ltb_spec rawValue
              (ECG.peakThreshold
                 (value (ECG.updateThreshold (ECG.pushSample rawValue s)))));
    [reflexivity|lia].
Qed.

(** Line 112 on elapsed times of at most 65836 ms: narrowing the elapsed
    time to the 16-bit [int] does not change the outcome of the test of
    line 115, and a value that passes the test is the elapsed time. *)
Lemma int16_elapsed (e : Z) :
  0 <= e <= 65836 ->
  (300 < int16 e < 2000 <-> 300 < e < 2000)
  /\ (300 < e < 2000 -> int16 e = e).
Proof.
  intros He. unfold int16.
  pose proof (Z.div_mod (e + 32768) 65536).
  pose proof (Z.mod_pos_bound (e + 32768) 65536).
  assert ((e + 32768) / 65536 = 0 \/ (e + 32768) / 65536 = 1) as [Hq|Hq].
  { assert (0 <= (e + 32768) / 65536) by (apply Z.div_pos; lia).
    assert ((e + 32768) / 65536 < 2) by (apply Z.div_lt_upper_bound; lia).
    lia. }
  - rewrite Hq in *. lia.
  - rewrite Hq in *. lia.
Qed.

(** C2, as the code has it.  At a peak exit with an earlier peak on
    record, line 112 narrows the elapsed time since that peak (the
    [unsigned long] difference of the clock reading and the time of the
    last peak) to the 16-bit [int] candidate, and line 115 tests the
    candidate.  Whenever the elapsed time is at most 65836 ms the narrowing
    does not matter: the elapsed time is admitted exactly when it lies
    strictly between 300 ms and 2000 ms.  An admitted interval is stored at
    the ring cursor, the cursor advances, and the heart rate becomes 60000
    divided by the mean of the populated slots (both divisions truncating),
    with no division by zero; a rejected one leaves the ring, its cursor,
    the heart rate and the exposed heart rate as they were.  For a longer
    elapsed time the same holds of the narrowed candidate, not of the
    elapsed time. *)
Theorem ecg_interval_admission (now : Z) (s : ECG.ECGProcessor) :
  ECG.lastPeakTime s > 0 ->
  rrRing s ->
  let elapsed := uint32 (now - ECG.lastPeakTime s) in
  let rr := ECG.candidate now s in
  let m := ECG.peakComplete now s in
  let s' := value m in
  faults m = []
  /\ rr = int16 elapsed
  /\ ECG.lastPeakTime s' = now
  /\ (elapsed <= 65836 ->
      (300 < elapsed < 2000 ->
         rr = elapsed
         /\ ECG.rrIntervals s'
            = store (ECG.rrIntervals s) (ECG.rrIndex s) elapsed
         /\ ECG.rrIndex s' = Z.rem (ECG.rrIndex s + 1) 10
         /\ ECG.currentHeartRate s'
            = Z.quot 60000 (mean (populated (ECG.rrIntervals s')))
         /\ (ECG.leadOff s = false ->
             ECG.getHeartRate s'
             = Z.quot 60000 (mean (populated (ECG.rrIntervals s')))))
      /\ (~ 300 < elapsed < 2000 ->
          ECG.rrIntervals s' = ECG.rrIntervals s
          /\ ECG.rrIndex s' = ECG.rrIndex s
          /\ ECG.currentHeartRate s' = ECG.currentHeartRate s
          /\ ECG.getHeartRate s' = ECG.getHeartRate s))
  /\ (300 < rr < 2000 ->
      ECG.rrIntervals s' = store (ECG.rrIntervals s) (ECG.rrIndex s) rr
      /\ ECG.rrIndex s' = Z.rem (ECG.rrIndex s + 1) 10
      /\ ECG.currentHeartRate s'
         = Z.quot 60000 (mean (populated (ECG.rrIntervals s')))
      /\ (ECG.leadOff s = false ->
          ECG.getHeartRate s'
          = Z.quot 60000 (mean (populated (ECG.rrIntervals s')))))
  /\ (~ 300 < rr < 2000 ->
      ECG.rrIntervals s' = ECG.rrIntervals s
      /\ ECG.rrIndex s' = ECG.rrIndex s
      /\ ECG.currentHeartRate s' = ECG.currentHeartRate s
      /\ ECG.getHeartRate s' = ECG.getHeartRate s).
Proof.
  intros Hlast Hring. cbv zeta. unfold ECG.peakComplete.
  set (s1 := ECG.withPeak false (ECG.peakValue s) s).
  assert (Hring1 : rrRing s1) by exact Hring.
  change (ECG.lastPeakTime s1) with (ECG.lastPeakTime s).
  destruct (Z.gtb_spec (ECG.lastPeakTime s) 0) as [_|Hn]; [|lia].
  change (ECG.candidate now s1) with (ECG.candidate now s).
  destruct (ecg_admit (ECG.candidate now s) s1 Hring1)
    as (_ & Hf & Hlead & Hin & Hout).
  change (ECG.leadOff s1) with (ECG.leadOff s) in Hlead.
  change (ECG.rrIntervals s1) with (ECG.rrIntervals s) in Hin.
  change (ECG.rrIndex s1) with (ECG.rrIndex s) in Hin.
  rewrite faults_bind, value_bind, Hf.
  change (value (ret ?x)) with x. change (faults (ret ?x)) with (@nil fault).
  unfold ECG.getHeartRate. ecg_fields.
  assert (Hadm : 300 < ECG.candidate now s < 2000 ->
            ECG.rrIntervals (value (ECG.admitInterval (ECG.candidate now s) s1))
            = store (ECG.rrIntervals s) (ECG.rrIndex s) (ECG.candidate now s)
            /\ ECG.rrIndex (value (ECG.admitInterval (ECG.candidate now s) s1))
               = Z.rem (ECG.rrIndex s + 1) 10
            /\ ECG.currentHeartRate
                 (value (ECG.admitInterval (ECG.candidate now s) s1))
               = Z.quot 60000
                   (mean (populated
                      (ECG.rrIntervals
                         (value (ECG.admitInterval (ECG.candidate now s) s1)))))
            /\ (ECG.leadOff s = false ->
                (if ECG.leadOff (value (ECG.admitInterval (ECG.candidate now s) s1))
                 then 0
                 else ECG.currentHeartRate
                        (value (ECG.admitInterval (ECG.candidate now s) s1)))
                = Z.quot 60000
                    (mean (populated
                       (ECG.rrIntervals
                          (value (ECG.admitInterval (ECG.candidate now s) s1))))))).
  { intros Hv. destruct (Hin Hv) as (H1 & H2 & H3).
    rewrite Hlead. repeat split; auto.
    intros ->. exact H3. }
  assert (Hrej : ~ 300 < ECG.candidate now s < 2000 ->
            ECG.rrIntervals (value (ECG.admitInterval (ECG.candidate now s) s1))
            = ECG.rrIntervals s
            /\ ECG.rrIndex (value (ECG.admitInterval (ECG.candidate now s) s1))
               = ECG.rrIndex s
            /\ ECG.currentHeartRate
                 (value (ECG.admitInterval (ECG.candidate now s) s1))
               = ECG.currentHeartRate s
            /\ (if ECG.leadOff (value (ECG.admitInterval (ECG.candidate now s) s1))
                then 0
                else ECG.currentHeartRate
                       (value (ECG.admitInterval (ECG.candidate now s) s1)))
               = (if ECG.leadOff s then 0 else ECG.currentHeartRate s)).
  { intros Hv. rewrite (Hout Hv). unfold s1. ecg_fields. repeat split. }
  assert (Hpos : 0 <= uint32 (now - ECG.lastPeakTime s)).
  { unfold uint32. apply Z.mod_pos_bound. lia. }
  split; [reflexivity|]. split; [reflexivity|]. split; [reflexivity|].
  split; [|split; assumption].
  intros Hle.
  destruct (int16_elapsed (uint32 (now - ECG.lastPeakTime s)))
    as [Hiff Hid]; [lia|].
  fold (ECG.candidate now s) in Hiff, Hid.
  split.
  - intros Hv. rewrite <- (Hid Hv).
    split; [reflexivity|]. apply Hadm. apply Hiff. exact Hv.
  - intros Hv. apply Hrej. intros Hc. apply Hv. apply Hiff. exact Hc.
Qed.
End Cardiac.


(** Checking a concrete ring. *)
Ltac ring_by_computation :=
  unfold rrRing; split; [reflexivity|];
  split; [cbn; repeat constructor; left; reflexivity | cbn; lia].

Lemma ecg_interval_admission_witness :
  ECG.lastPeakTime ecgInPeak > 0
  /\ rrRing ecgInPeak
  /\ uint32 (1800 - ECG.lastPeakTime ecgInPeak) <= 65836
  /\ 300 < uint32 (1800 - ECG.lastPeakTime ecgInPeak) < 2000
  /\ ECG.currentHeartRate (value (@ECG.peakComplete sampleTarget 1800 ecgInPeak))
     = Z.quot 60000
         (mean (populated
            (ECG.rrIntervals (value (@ECG.peakComplete sampleTarget 1800 ecgInPeak))))).
Proof.
  split; [reflexivity|]. split; [ring_by_computation|].
  assert (Hle : uint32 (1800 - ECG.lastPeakTime ecgInPeak) <= 65836)
    by (vm_compute; discriminate).
  assert (Hrr : 300 < uint32 (1800 - ECG.lastPeakTime ecgInPeak) < 2000)
    by (vm_compute; split; reflexivity).
  split; [exact Hle|]. split; [exact Hrr|].
  destruct (@ecg_interval_admission sampleTarget 1800 ecgInPeak)
    as (_ & _ & _ & Hel & _); [reflexivity | ring_by_computation |].
  destruct (Hel Hle) as (Hin & _).
  destruct (Hin Hrr) as (_ & _ & _ & Hrate & _). exact Hrate.
Defined.

(** C2 as stated fails at both ends of the closed interval.  A peak that
    ends 300 ms (or 2000 ms) after the previous one yields the candidate
    300 (2000), which lies in [300, 2000], and the call drops it: the ring
    is not written and the heart rate stays. *)
Lemma ecg_interval_bounds_rejected :
  let s300 := value (@ECG.processECGSample sampleTarget 0 0 500 1300 ecgInPeak) in
  let s2000 := value (@ECG.processECGSample sampleTarget 0 0 500 3000 ecgInPeak) in
  (ECG.candidate 1300 ecgInPeak = 300 /\ 300 <= 300 <= 2000
   /\ ECG.inPeak s300 = false /\ ECG.lastPeakTime s300 = 1300
   /\ ECG.rrIntervals s300 = ECG.rrIntervals ecgInPeak
   /\ ECG.rrIntervals s300
      <> store (ECG.rrIntervals ecgInPeak) (ECG.rrIndex ecgInPeak) 300
   /\ ECG.getHeartRate s300 = ECG.getHeartRate ecgInPeak)
  /\ (ECG.candidate 3000 ecgInPeak = 2000 /\ 300 <= 2000 <= 2000
      /\ ECG.inPeak s2000 = false /\ ECG.lastPeakTime s2000 = 3000
      /\ ECG.rrIntervals s2000 = ECG.rrIntervals ecgInPeak
      /\ ECG.rrIntervals s2000
         <> store (ECG.rrIntervals ecgInPeak) (ECG.rrIndex ecgInPeak) 2000
      /\ ECG.getHeartRate s2000 = ECG.getHeartRate ecgInPeak).
Proof.
  vm_compute. repeat split; try discriminate.
Qed.

(** Beyond 65836 ms the narrowing of line 112 shows: a peak that ends
    66336 ms after the previous one is tested as 800 ms, stored as 800 and
    reported as 75 beats per minute. *)
Lemma ecg_long_gap_narrowed :
  let s' := value (@ECG.processECGSample sampleTarget 0 0 500 67336 ecgInPeak) in
  uint32 (67336 - ECG.lastPeakTime ecgInPeak) = 66336
  /\ ECG.candidate 67336 ecgInPeak = 800
  /\ ECG.rrIntervals s' = 800 :: repeat 0 9
  /\ ECG.getHeartRate s' = 75.
Proof. vm_compute. repeat split. Qed.

Lemma to_int_no_division `{Target} (x : spec_float) :
  ~ In DivisionByZero (faults (F32.to_int x)).
Proof.
  unfold F32.to_int. destruct (F32.trunc x) as [z|].
  - destruct ((-32768 <=? z) && (z <=? 32767)); cbn; intuition discriminate.
  - cbn. intuition discriminate.
Qed.

Section CardiacRuns.
Context {T : Target}.

Lemma ecg_updateThreshold_ring (s : ECG.ECGProcessor) :
  rrRing s ->
  rrRing (value (ECG.updateThreshold s))
  /\ ~ In DivisionByZero (faults (ECG.updateThreshold s)).
Proof.
  intros Hring. unfold ECG.updateThreshold.
  destruct (ECG.bufferIndex s =? 0); [|split; [exact Hring | intros []]].
  rewrite !value_bind, !faults_bind.
  split; [exact Hring|].
  rewrite !in_app_iff.
  intros [H | [H | [H | []]]]; exact (to_int_no_division _ H).
Qed.

Lemma ecg_peakComplete_ring (now : Z) (s : ECG.ECGProcessor) :
  rrRing s ->
  rrRing (value (ECG.peakComplete now s))
  /\ faults (ECG.peakComplete now s) = [].
Proof.
  intros Hring. unfold ECG.peakComplete.
  set (s1 := ECG.withPeak false (ECG.peakValue s) s).
  assert (Hring1 : rrRing s1) by exact Hring.
  rewrite value_bind, faults_bind.
  destruct (ECG.lastPeakTime s1 >? 0).
  - destruct (ecg_admit (ECG.candidate now s1) s1 Hring1) as (Hr & Hf & _).
    rewrite Hf. split; [exact Hr | reflexivity].
  - split; [exact Hring1 | reflexivity].
Qed.

Lemma ecg_detectPeak_ring (rawValue now : Z) (s : ECG.ECGProcessor) :
  rrRing s ->
  rrRing (value (ECG.detectPeak rawValue now s))
  /\ faults (ECG.detectPeak rawValue now s) = [].
Proof.
  intros Hring. unfold ECG.detectPeak.
  destruct ((rawValue >? ECG.peakThreshold s) && negb (ECG.inPeak s));
    [split; [exact Hring | reflexivity]|].
  destruct (ECG.inPeak s); [|split; [exact Hring | reflexivity]].
  destruct (rawValue >? ECG.peakValue s);
    [split; [exact Hring | reflexivity]|].
  destruct (rawValue <? ECG.peakThreshold s);
    [|split; [exact Hring | reflexivity]].
  apply ecg_peakComplete_ring, Hring.
Qed.

(** One call keeps the RR ring well formed and divides by no zero. *)
Lemma ecg_step_ring (loPlus loMinus rawValue now : Z) (s : ECG.ECGProcessor) :
  rrRing s ->
  rrRing (value (ECG.processECGSample loPlus loMinus rawValue now s))
  /\ ~ In DivisionByZero
         (faults (ECG.processECGSample loPlus loMinus rawValue now s)).
Proof.
  intros Hring. unfold ECG.processECGSample.
  destruct ((loPlus =? 1) || (loMinus =? 1));
    [split; [exact Hring | intros []]|].
  rewrite value_bind, faults_bind.
  assert (Hpush : rrRing (ECG.pushSample rawValue s)) by exact Hring.
  destruct (ecg_updateThreshold_ring _ Hpush) as [Hr Hf].
  destruct (ecg_detectPeak_ring rawValue now _ Hr) as [Hr' Hf'].
  split; [exact Hr'|]. rewrite Hf', app_nil_r. exact Hf.
Qed.

(** The heart-rate half of C10: whatever is fed to the cardiac extractor,
    every stored interval is strictly positive (strictly between 300 and
    2000) and neither [sum / count] nor [60000 / avgRR] sees a zero
    divisor. *)
Lemma ecg_never_divides_by_zero (inputs : list (Z * Z * Z * Z))
  (s : ECG.ECGProcessor) :
  rrRing s ->
  rrRing (value (runECG inputs s))
  /\ ~ In DivisionByZero (faults (runECG inputs s)).
Proof.
  revert s.
  induction inputs as [|[[[loPlus loMinus] rawValue] now] rest IH];
    intros s Hring.
  - split; [exact Hring | intros []].
  - cbn [runECG]. rewrite value_bind, faults_bind.
    destruct (ecg_step_ring loPlus loMinus rawValue now s Hring) as [Hr Hf].
    destruct (IH _ Hr) as [Hr' Hf'].
    split; [exact Hr'|]. rewrite in_app_iff. tauto.
Qed.
End CardiacRuns.

(** ** Cardiac threshold *)

Section CardiacThreshold.
Context {T : Target}.

(** Peak detection leaves the threshold, the running minimum and maximum
    and the window cursor alone. *)
Lemma ecg_detectPeak_frame (rawValue now : Z) (s : ECG.ECGProcessor) :
  let s' := value (ECG.detectPeak rawValue now s) in
  ECG.peakThreshold s' = ECG.peakThreshold s
  /\ ECG.signalMin s' = ECG.signalMin s
  /\ ECG.signalMax s' = ECG.signalMax s
  /\ ECG.bufferIndex s' = ECG.bufferIndex s.
Proof.
  cbv zeta. unfold ECG.detectPeak.
  destruct ((rawValue >? ECG.peakThreshold s) && negb (ECG.inPeak s));
    [repeat split|].
  destruct (ECG.inPeak s); [|repeat split].
  destruct (rawValue >? ECG.peakValue s); [repeat split|].
  destruct (rawValue <? ECG.peakThreshold s); [|repeat split].
  unfold ECG.peakComplete. rewrite value_bind.
  change (value (ret ?x)) with x. ecg_fields.
  destruct (ECG.lastPeakTime s >? 0); [|repeat split].
  unfold ECG.admitInterval.
  destruct (ECG.rrValid _); [|repeat split].
  rewrite value_bind. change (value (ret ?x)) with x. ecg_fields.
  repeat split.
Qed.

(** The recomputation of lines 88-93 on readings of the converter: the
    three binary32 expressions give the truncated exact values. *)
Lemma ecg_updateThreshold_exact (s : ECG.ECGProcessor) :
  ECG.bufferIndex s = 0 ->
  0 <= ECG.signalMin s <= ECG.signalMax s -> ECG.signalMax s <= 1023 ->
  let range := ECG.signalMax s - ECG.signalMin s in
  let thr := ECG.signalMin s + 6 * range / 10 in
  let mn := ECG.signalMax s - (8 * range + 9) / 10 in
  let mx := mn + 8 * range / 10 in
  ECG.updateThreshold s = ret (ECG.withThreshold thr mn mx s)
  /\ ECG.signalMin s <= mn <= thr /\ thr <= mx <= ECG.signalMax s.
Proof.
  intros Hidx Hmin Hmax. cbv zeta.
  set (range := ECG.signalMax s - ECG.signalMin s).
  assert (Hr : 0 <= range <= 1023) by (unfold range; lia).
  assert (Hb : 0 <= (8 * range + 9) / 10 <= range
               /\ 0 <= 8 * range / 10 <= (8 * range + 9) / 10
               /\ 0 <= 6 * range / 10 <= range
               /\ range <= 6 * range / 10 + (8 * range + 9) / 10
               /\ 6 * range / 10 + (8 * range + 9) / 10 - 8 * range / 10
                  <= range).
  { Z.to_euclidean_division_equations. lia. }
  split; [|unfold range in *; lia].
  unfold ECG.updateThreshold. rewrite Hidx. cbn [Z.eqb].
  rewrite (int16_id (ECG.signalMax s - ECG.signalMin s)) by lia.
  fold range.
  rewrite (to_int_exact _ _ (add_scaled_06 (ECG.signalMin s) range
                               ltac:(lia) Hr)) by lia.
  rewrite bind_ret_l.
  rewrite (to_int_exact _ _ (sub_scaled_08 (ECG.signalMax s) range
                               ltac:(unfold range; lia) Hmax)) by lia.
  rewrite bind_ret_l.
  rewrite (to_int_exact _ _ (add_scaled_08
             (ECG.signalMax s - (8 * range + 9) / 10) range
             ltac:(lia) Hr)) by lia.
  rewrite bind_ret_l. reflexivity.
Qed.

(** C6.  With the leads on and readings of the converter, the call that
    completes a window of 100 samples (the cursor wraps from 99 to 0)
    recomputes the threshold from the running minimum and maximum, the
    current sample included: [peakThreshold = min + 0.6 * (max - min)],
    then [signalMin = max - 0.8 * (max - min)] and
    [signalMax = signalMin + 0.8 * (max - min)], each stored in an [int],
    that is truncated.  The binary32 computations give exactly these
    truncated values, so the new band has width [0.8 * (max - min)]
    (truncated), lies inside the old one and has the new threshold at its
    midpoint (the midpoint rounded up when the width is odd).  On every
    other call the threshold is unchanged and minimum and maximum only
    follow the sample. *)
Theorem ecg_threshold_window (loPlus loMinus rawValue now : Z)
  (s : ECG.ECGProcessor) :
  loPlus <> 1 -> loMinus <> 1 ->
  adc rawValue -> adc (ECG.signalMin s) -> adc (ECG.signalMax s) ->
  0 <= ECG.bufferIndex s < 100 ->
  let s' := value (ECG.processECGSample loPlus loMinus rawValue now s) in
  let mn := Z.min (ECG.signalMin s) rawValue in
  let mx := Z.max (ECG.signalMax s) rawValue in
  let range := mx - mn in
  ECG.bufferIndex s' = (ECG.bufferIndex s + 1) mod 100
  /\ (ECG.bufferIndex s = 99 ->
      ECG.peakThreshold s' = mn + 6 * range / 10
      /\ ECG.signalMin s' = mx - (8 * range + 9) / 10
      /\ ECG.signalMax s' = ECG.signalMin s' + 8 * range / 10
      /\ ECG.signalMin s' + ECG.signalMax s'
         <= 2 * ECG.peakThreshold s'
         <= ECG.signalMin s' + ECG.signalMax s' + 1
      /\ mn <= ECG.signalMin s' /\ ECG.signalMax s' <= mx
      /\ faults (ECG.updateThreshold (ECG.pushSample rawValue s)) = [])
  /\ (ECG.bufferIndex s < 99 ->
      ECG.peakThreshold s' = ECG.peakThreshold s
      /\ ECG.signalMin s' = mn
      /\ ECG.signalMax s' = mx).
Proof.
  intros Hp Hm Hraw Hmin Hmax Hidx. cbv zeta. unfold adc in *.
  unfold ECG.processECGSample.
  destruct (Z.eqb_spec loPlus 1) as [|_]; [contradiction|].
  destruct (Z.eqb_spec loMinus 1) as [|_]; [contradiction|].
  cbn [orb]. rewrite value_bind.
  destruct (ecg_detectPeak_frame rawValue now
              (value (ECG.updateThreshold (ECG.pushSample rawValue s))))
    as (F1 & F2 & F3 & F4).
  rewrite F1, F2, F3, F4. clear F1 F2 F3 F4.
  set (p := ECG.pushSample rawValue s).
  assert (Pmin : ECG.signalMin p = Z.min (ECG.signalMin s) rawValue).
  { unfold p. ecg_fields.
    destruct (Z.ltb_spec rawValue (ECG.signalMin s)); lia. }
  assert (Pmax : ECG.signalMax p = Z.max (ECG.signalMax s) rawValue).
  { unfold p. ecg_fields.
    destruct (Z.gtb_spec rawValue (ECG.signalMax s)); lia. }
  assert (Pidx : ECG.bufferIndex p = (ECG.bufferIndex s + 1) mod 100).
  { unfold p. ecg_fields. unfold ECG.BUFFER_SIZE.
    rewrite int16_id by lia. apply Z.rem_mod_nonneg; lia. }
  assert (Pthr : ECG.peakThreshold p = ECG.peakThreshold s) by reflexivity.
  destruct (Z.eq_dec (ECG.bufferIndex s) 99) as [H99 | Hn99].
  - assert (P0 : ECG.bufferIndex p = 0) by (rewrite Pidx, H99; reflexivity).
    destruct (ecg_updateThreshold_exact p P0) as [Hup Hband];
      [rewrite Pmin, Pmax; lia | rewrite Pmax; lia |].
    rewrite Hup. change (value (ret ?x)) with x.
    change (faults (ret ?x)) with (@nil fault). ecg_fields.
    rewrite Pmin, Pmax in *.
    split; [exact Pidx|]. split; [|intros; lia].
    intros _. repeat split; try lia.
    + Z.to_euclidean_division_equations. lia.
    + Z.to_euclidean_division_equations. lia.
  - assert (Pn0 : ECG.bufferIndex p <> 0).
    { rewrite Pidx. rewrite Z.mod_small by lia. lia. }
    unfold ECG.updateThreshold.
    destruct (Z.eqb_spec (ECG.bufferIndex p) 0) as [|_]; [contradiction|].
    change (value (ret ?x)) with x.
    split; [exact Pidx|]. split; [intros; contradiction|].
    intros _. rewrite Pthr, Pmin, Pmax. repeat split.
Qed.
End CardiacThreshold.

Lemma ecg_threshold_window_witness :
  0 <> 1 /\ adc 510 /\ adc (ECG.signalMin ecgWindowEnd)
  /\ adc (ECG.signalMax ecgWindowEnd)
  /\ 0 <= ECG.bufferIndex ecgWindowEnd < 100
  /\ ECG.peakThreshold
       (value (@ECG.processECGSample sampleTarget 0 0 510 0 ecgWindowEnd))
     = Z.min 500 510 + 6 * (Z.max 520 510 - Z.min 500 510) / 10.
Proof.
  assert (H01 : 0 <> 1) by discriminate.
  assert (Ha : adc 510) by (unfold adc; lia).
  assert (Hmin : adc (ECG.signalMin ecgWindowEnd)) by (unfold adc; cbn; lia).
  assert (Hmax : adc (ECG.signalMax ecgWindowEnd)) by (unfold adc; cbn; lia).
  assert (Hidx : 0 <= ECG.bufferIndex ecgWindowEnd < 100) by (cbn; lia).
  repeat (split; [assumption|]).
  destruct (@ecg_threshold_window sampleTarget 0 0 510 0 ecgWindowEnd
              H01 H01 Ha Hmin Hmax Hidx) as (_ & Hwin & _).
  destruct (Hwin eq_refl) as (Hthr & _). exact Hthr.
Defined.

(** ** Cardiac extractor on converter readings *)

Section CardiacDefined.
Context {T : Target}.

(** One call on a reading of the converter runs into nothing undefined. *)
Lemma ecg_step_adc (loPlus loMinus rawValue now : Z) (s : ECG.ECGProcessor) :
  adc rawValue -> ecgAdc s ->
  ecgAdc (value (ECG.processECGSample loPlus loMinus rawValue now s))
  /\ faults (ECG.processECGSample loPlus loMinus rawValue now s) = [].
Proof.
  intros Hraw (Hring & Hmin & Hmax & Hidx). unfold adc in *.
  unfold ECG.processECGSample.
  destruct ((loPlus =? 1) || (loMinus =? 1)).
  { split; [|reflexivity]. unfold ecgAdc, adc. repeat split; try apply Hring;
      change (value (ret ?x)) with x; ecg_fields; lia. }
  rewrite value_bind, faults_bind.
  set (p := ECG.pushSample rawValue s).
  assert (Pring : rrRing p) by exact Hring.
  assert (Pmin : ECG.signalMin p = Z.min (ECG.signalMin s) rawValue).
  { unfold p. ecg_fields.
    destruct (Z.ltb_spec rawValue (ECG.signalMin s)); lia. }
  assert (Pmax : ECG.signalMax p = Z.max (ECG.signalMax s) rawValue).
  { unfold p. ecg_fields.
    destruct (Z.gtb_spec rawValue (ECG.signalMax s)); lia. }
  assert (Pidx : 0 <= ECG.bufferIndex p < 100).
  { unfold p. ecg_fields. unfold ECG.BUFFER_SIZE.
    rewrite int16_id by lia.
    pose proof (Z.rem_bound_pos (ECG.bufferIndex s + 1) 100). lia. }
  assert (Hup : exists u : ECG.ECGProcessor,
            ECG.updateThreshold p = ret u /\ rrRing u
            /\ 0 <= ECG.signalMin u <= 1023 /\ 0 <= ECG.signalMax u <= 1023
            /\ ECG.bufferIndex u = ECG.bufferIndex p).
  { destruct (Z.eq_dec (ECG.bufferIndex p) 0) as [P0 | Pn0].
    - destruct (ecg_updateThreshold_exact p P0) as [E B];
        [rewrite Pmin, Pmax; lia | rewrite Pmax; lia |].
      eexists. split; [exact E|]. ecg_fields.
      rewrite Pmin, Pmax in B |- *.
      split; [exact Pring|]. split; [lia|]. split; [lia|reflexivity].
    - exists p. unfold ECG.updateThreshold.
      destruct (Z.eqb_spec (ECG.bufferIndex p) 0) as [|_]; [contradiction|].
      split; [reflexivity|]. split; [exact Pring|].
      rewrite Pmin, Pmax. split; [lia|]. split; [lia|reflexivity]. }
  destruct Hup as (u & -> & Uring & Umin & Umax & Uidx).
  change (value (ret u)) with u. change (faults (ret u)) with (@nil fault).
  destruct (ecg_detectPeak_ring rawValue now u Uring) as [Dring Df].
  destruct (ecg_detectPeak_frame rawValue now u) as (_ & Dmin & Dmax & Didx).
  split; [|rewrite Df; reflexivity].
  unfold ecgAdc, adc. rewrite Dmin, Dmax, Didx, Uidx.
  split; [exact Dring|]. split; [exact Umin|]. split; [exact Umax|exact Pidx].
Qed.

(** Along every run of the cardiac extractor from reset on readings of the
    converter, whatever the leads and the clock do, no division sees a
    zero divisor and every conversion to [int] is defined. *)
Lemma ecg_run_defined (inputs : list (Z * Z * Z * Z)) (s : ECG.ECGProcessor) :
  Forall (fun i => adc (snd (fst i))) inputs -> ecgAdc s ->
  ecgAdc (value (runECG inputs s)) /\ faults (runECG inputs s) = [].
Proof.
  intros Hin. revert s.
  induction Hin as [|[[[loPlus loMinus] rawValue] now] rest Hraw Hrest IH];
    intros s Hs.
  - split; [exact Hs | reflexivity].
  - cbn [runECG]. rewrite value_bind, faults_bind.
    cbn [fst snd] in Hraw.
    destruct (ecg_step_adc loPlus loMinus rawValue now s Hraw Hs) as [Hs' Hf].
    destruct (IH _ Hs') as [Hs'' Hf'].
    split; [exact Hs''|]. rewrite Hf, Hf'. reflexivity.
Qed.

Lemma ecg_init_adc : ecgAdc ECG.init.
Proof.
  unfold ecgAdc, rrRing, adc. cbn.
  repeat split; try lia. repeat constructor; left; reflexivity.
Qed.
End CardiacDefined.

(** ** Respiratory extractor *)

Ltac resp_fields :=
  cbn [Resp.respBuffer Resp.bufferIndex Resp.currentState Resp.lastState
       Resp.lastBreathTime Resp.breathIntervals Resp.breathIndex
       Resp.currentBreathRate Resp.baseline Resp.inhaleThreshold
       Resp.exhaleThreshold Resp.pushSample Resp.withThresholds
       Resp.classify Resp.withIntervals Resp.withLastBreathTime
       Resp.phase Resp.counted Resp.interval Resp.rate] in *.

Section Respiratory.
Context {T : Target}.

(** The threshold update touches the baseline and the threshold pair only. *)
Lemma resp_updateBaseline_frame (s : Resp.RespiratoryProcessor) :
  let s' := value (Resp.updateBaseline s) in
  Resp.currentState s' = Resp.currentState s
  /\ Resp.lastState s' = Resp.lastState s
  /\ Resp.lastBreathTime s' = Resp.lastBreathTime s
  /\ Resp.breathIntervals s' = Resp.breathIntervals s
  /\ Resp.breathIndex s' = Resp.breathIndex s
  /\ Resp.currentBreathRate s' = Resp.currentBreathRate s
  /\ Resp.respBuffer s' = Resp.respBuffer s
  /\ Resp.bufferIndex s' = Resp.bufferIndex s.
Proof.
  cbv zeta. unfold Resp.updateBaseline.
  destruct (Resp.bufferIndex s =? 0); [|repeat split].
  rewrite !value_bind. change (value (ret ?x)) with x.
  resp_fields. repeat split.
Qed.

Lemma resp_classified_frame (rawValue : Z) (s : Resp.RespiratoryProcessor) :
  Resp.lastState (Resp.classified rawValue s) = Resp.currentState s
  /\ Resp.lastBreathTime (Resp.classified rawValue s) = Resp.lastBreathTime s
  /\ Resp.breathIntervals (Resp.classified rawValue s) = Resp.breathIntervals s
  /\ Resp.breathIndex (Resp.classified rawValue s) = Resp.breathIndex s
  /\ Resp.currentBreathRate (Resp.classified rawValue s) = Resp.currentBreathRate s.
Proof.
  unfold Resp.classified.
  destruct (resp_updateBaseline_frame (Resp.pushSample rawValue s))
    as (H1 & H2 & H3 & H4 & H5 & H6 & _).
  resp_fields. repeat split; assumption.
Qed.

Lemma resp_step_unfold (rawValue now : Z) (s : Resp.RespiratoryProcessor) :
  value (Resp.processRespSample rawValue now s)
  = if Resp.breathEdge (Resp.classified rawValue s)
    then value (Resp.breathComplete now (Resp.classified rawValue s))
    else Resp.classified rawValue s.
Proof.
  unfold Resp.processRespSample. rewrite value_bind.
  fold (Resp.classified rawValue s).
  destruct (Resp.breathEdge (Resp.classified rawValue s)); reflexivity.
Qed.

Lemma resp_breathComplete_frame (now : Z) (s : Resp.RespiratoryProcessor) :
  let s' := value (Resp.breathComplete now s) in
  Resp.currentState s' = Resp.currentState s
  /\ Resp.lastState s' = Resp.lastState s
  /\ Resp.lastBreathTime s' = now
  /\ Resp.respBuffer s' = Resp.respBuffer s
  /\ Resp.bufferIndex s' = Resp.bufferIndex s
  /\ Resp.baseline s' = Resp.baseline s
  /\ Resp.inhaleThreshold s' = Resp.inhaleThreshold s
  /\ Resp.exhaleThreshold s' = Resp.exhaleThreshold s.
Proof.
  cbv zeta. unfold Resp.breathComplete. rewrite value_bind.
  change (value (ret ?x)) with x.
  destruct (Resp.lastBreathTime s >? 0); [|resp_fields; repeat split].
  unfold Resp.admitInterval.
  destruct (Resp.breathValid (Resp.candidate now s));
    [|resp_fields; repeat split].
  rewrite value_bind. change (value (ret ?x)) with x.
  resp_fields. repeat split.
Qed.

(** What a call shows and what it does: the phase it reports is the one it
    stores; the phase it compares with is the one the previous call
    stored; off a breath edge the breath record is untouched; on a breath
    edge the time of the last breath becomes the clock reading. *)
Lemma resp_step_observed (rawValue now : Z) (s : Resp.RespiratoryProcessor) :
  let o := Resp.observe rawValue now s in
  let s' := value (Resp.processRespSample rawValue now s) in
  Resp.currentState s' = Resp.phase o
  /\ Resp.lastState s' = Resp.currentState s
  /\ Resp.counted o
     = Resp.BreathState_eqb (Resp.phase o) Resp.INHALE
       && Resp.BreathState_eqb (Resp.currentState s) Resp.EXHALE
  /\ Resp.interval o
     = (if Resp.counted o && (Resp.lastBreathTime s >? 0)
        then Some (Resp.candidate now s) else None)
  /\ (Resp.counted o = true -> Resp.lastBreathTime s' = now)
  /\ (Resp.counted o = false ->
      Resp.lastBreathTime s' = Resp.lastBreathTime s
      /\ Resp.breathIntervals s' = Resp.breathIntervals s
      /\ Resp.currentBreathRate s' = Resp.currentBreathRate s).
Proof.
  cbv zeta. rewrite resp_step_unfold. unfold Resp.observe.
  fold (Resp.classified rawValue s). resp_fields.
  destruct (resp_classified_frame rawValue s) as (L1 & L2 & L3 & L4 & L5).
  unfold Resp.candidate. rewrite L2.
  assert (Hedge : Resp.breathEdge (Resp.classified rawValue s)
                  = Resp.BreathState_eqb
                      (Resp.currentState (Resp.classified rawValue s)) Resp.INHALE
                    && Resp.BreathState_eqb (Resp.currentState s) Resp.EXHALE).
  { unfold Resp.breathEdge. rewrite L1. reflexivity. }
  destruct (Resp.breathEdge (Resp.classified rawValue s)) eqn:He.
  - destruct (resp_breathComplete_frame now (Resp.classified rawValue s))
      as (B1 & B2 & B3 & _).
    rewrite B1, B2, B3, L1. repeat split; auto; congruence.
  - rewrite L1, L2, L3, L5. repeat split; auto; congruence.
Qed.

(** Along a run from any state the counted breaths are the breath edges
    of the phase sequence. *)
Lemma resp_run_edges (inputs : list (Z * Z)) (s : Resp.RespiratoryProcessor) :
  map Resp.counted (fst (Resp.run inputs s))
  = edges (Resp.currentState s) (map Resp.phase (fst (Resp.run inputs s))).
Proof.
  revert s. induction inputs as [|[rawValue now] rest IH]; intros s;
    [reflexivity|].
  cbn [Resp.run].
  destruct (Resp.run rest (value (Resp.processRespSample rawValue now s)))
    as [obs final] eqn:Hrun.
  cbn [fst map edges].
  destruct (resp_step_observed rawValue now s) as (H1 & _ & H3 & _).
  rewrite H3. f_equal.
  specialize (IH (value (Resp.processRespSample rawValue now s))).
  rewrite Hrun, H1 in IH. exact IH.
Qed.

(** What the body run on a breath edge does to the breath record: with no
    earlier breath on record nothing is stored; otherwise the candidate is
    stored at the ring cursor and the rate recomputed when it passes the
    test of line 209, and nothing is stored when it does not. *)
Lemma resp_breathComplete_record (now : Z) (s : Resp.RespiratoryProcessor) :
  let s' := value (Resp.breathComplete now s) in
  let c := Resp.candidate now s in
  let iv := store (Resp.breathIntervals s) (Resp.breathIndex s) c in
  (~ Resp.lastBreathTime s > 0 \/ ~ 1500 < c < 10000 ->
     Resp.breathIntervals s' = Resp.breathIntervals s
     /\ Resp.breathIndex s' = Resp.breathIndex s
     /\ Resp.currentBreathRate s' = Resp.currentBreathRate s)
  /\ (Resp.lastBreathTime s > 0 -> 1500 < c < 10000 ->
      Resp.breathIntervals s' = iv
      /\ Resp.breathIndex s' = Z.rem (int16 (Resp.breathIndex s + 1)) 10
      /\ Resp.currentBreathRate s'
         = value (averageRate iv (Resp.currentBreathRate s))).
Proof.
  cbv zeta. unfold Resp.breathComplete. rewrite value_bind.
  change (value (ret ?x)) with x.
  assert (Hv : Resp.breathValid (Resp.candidate now s) = true
               <-> 1500 < Resp.candidate now s < 10000).
  { unfold Resp.breathValid. rewrite andb_true_iff, Z.gtb_lt, Z.ltb_lt. lia. }
  destruct (Z.gtb_spec (Resp.lastBreathTime s) 0) as [Hpos|Hzero].
  - unfold Resp.admitInterval.
    destruct (Resp.breathValid (Resp.candidate now s)) eqn:Hb.
    + rewrite value_bind. change (value (ret ?x)) with x. resp_fields.
      split; [|intros; repeat split].
      intros [Hn|Hn]; [lia|]. exfalso. apply Hn. apply Hv. reflexivity.
    + change (value (ret ?x)) with x. resp_fields.
      split; [intros; repeat split|].
      intros _ Hc. apply Hv in Hc. discriminate.
  - change (value (ret ?x)) with x. resp_fields.
    split; [intros; repeat split | intros; lia].
Qed.

(** C1, as the code has it.  Along every run, from reset or from any
    other state, a breath is counted exactly on the calls whose phase is
    INHALE while the phase of the call before was EXHALE; in particular
    the phases EXHALE, HOLD, INHALE in a row count no breath.  Counting a
    breath stamps the time of the last breath.  A candidate interval (the
    elapsed time since the last breath, narrowed to the 16-bit [int] of
    line 206) is formed on a counted breath only when an earlier breath is
    on record (a nonzero time of the last breath): the first counted
    breath forms none and leaves the interval ring, its cursor and the
    breath rate as they were.  A candidate that is formed is stored at the
    ring cursor, and the rate recomputed from the ring, when it lies
    strictly between 1500 ms and 10000 ms; otherwise ring, cursor and rate
    stay.  A call that counts no breath leaves them as well. *)
Theorem resp_breath_edges (inputs : list (Z * Z))
  (s : Resp.RespiratoryProcessor) :
  let obs := fst (Resp.run inputs s) in
  map Resp.counted obs = edges (Resp.currentState s) (map Resp.phase obs)
  /\ (map Resp.phase obs = [Resp.EXHALE; Resp.HOLD; Resp.INHALE] ->
      map Resp.counted obs = [false; false; false])
  /\ (forall rawValue now : Z,
        let o := Resp.observe rawValue now s in
        let s' := value (Resp.processRespSample rawValue now s) in
        let c := Resp.candidate now s in
        let iv := store (Resp.breathIntervals s) (Resp.breathIndex s) c in
        (Resp.counted o = true <->
           Resp.phase o = Resp.INHALE /\ Resp.currentState s = Resp.EXHALE)
        /\ (Resp.interval o <> None <->
              Resp.counted o = true /\ Resp.lastBreathTime s > 0)
        /\ (Resp.counted o = true -> Resp.lastBreathTime s' = now)
        /\ (Resp.counted o = false ->
              Resp.lastBreathTime s' = Resp.lastBreathTime s
              /\ Resp.breathIntervals s' = Resp.breathIntervals s
              /\ Resp.currentBreathRate s' = Resp.currentBreathRate s)
        /\ (Resp.interval o = None ->
              Resp.breathIntervals s' = Resp.breathIntervals s
              /\ Resp.breathIndex s' = Resp.breathIndex s
              /\ Resp.currentBreathRate s' = Resp.currentBreathRate s)
        /\ (Resp.interval o <> None ->
              Resp.interval o = Some c
              /\ c = int16 (uint32 (now - Resp.lastBreathTime s))
              /\ (1500 < c < 10000 ->
                  Resp.breathIntervals s' = iv
                  /\ Resp.breathIndex s'
                     = Z.rem (int16 (Resp.breathIndex s + 1)) 10
                  /\ Resp.currentBreathRate s'
                     = value (averageRate iv (Resp.currentBreathRate s)))
              /\ (~ 1500 < c < 10000 ->
                  Resp.breathIntervals s' = Resp.breathIntervals s
                  /\ Resp.breathIndex s' = Resp.breathIndex s
                  /\ Resp.currentBreathRate s' = Resp.currentBreathRate s))
        /\ (Resp.counted o = true -> ~ Resp.lastBreathTime s > 0 ->
              Resp.interval o = None)).
Proof.
  cbv zeta. split; [apply resp_run_edges|]. split.
  - intros Hph. rewrite resp_run_edges, Hph. reflexivity.
  - intros rawValue now.
    destruct (resp_step_observed rawValue now s)
      as (_ & _ & H3 & H4 & H5 & H6).
    assert (Hint : Resp.interval (Resp.observe rawValue now s) <> None <->
              Resp.counted (Resp.observe rawValue now s) = true
              /\ Resp.lastBreathTime s > 0).
    { rewrite H4.
      destruct (Resp.counted (Resp.observe rawValue now s));
        destruct (Z.gtb_spec (Resp.lastBreathTime s) 0); cbn;
        intuition (try congruence; try lia). }
    (* the call on a breath edge, read off the code *)
    assert (Hstep : Resp.counted (Resp.observe rawValue now s) = true ->
              value (Resp.processRespSample rawValue now s)
              = value (Resp.breathComplete now (Resp.classified rawValue s))).
    { intros Hc. rewrite resp_step_unfold.
      unfold Resp.observe in Hc. fold (Resp.classified rawValue s) in Hc.
      resp_fields. rewrite Hc. reflexivity. }
    destruct (resp_classified_frame rawValue s) as (_ & L2 & L3 & L4 & L5).
    destruct (resp_breathComplete_record now (Resp.classified rawValue s))
      as (Bkeep & Bstore).
    unfold Resp.candidate in Bkeep, Bstore.
    rewrite L2, L3, L4, L5 in Bkeep, Bstore.
    fold (Resp.candidate now s) in Bkeep, Bstore.
    split; [|split; [exact Hint|split; [exact H5|split; [exact H6|]]]].
    + rewrite H3, andb_true_iff.
      destruct (Resp.phase (Resp.observe rawValue now s)),
               (Resp.currentState s); cbn; intuition congruence.
    + split; [|split].
      * intros Hnone.
        destruct (Resp.counted (Resp.observe rawValue now s)) eqn:Hc.
        -- rewrite (Hstep eq_refl). apply Bkeep. left. intros Hpos.
           apply (proj2 Hint); [split; [reflexivity|exact Hpos]|exact Hnone].
        -- destruct (H6 eq_refl) as (K1 & K2 & K3).
           rewrite resp_step_unfold.
           unfold Resp.observe in Hc. fold (Resp.classified rawValue s) in Hc.
           resp_fields. rewrite Hc. repeat split; assumption.
      * intros Hsome. destruct (proj1 Hint Hsome) as (Hc & Hpos).
        rewrite (Hstep Hc). split; [|split; [reflexivity|split]].
        -- rewrite H4, Hc.
           destruct (Z.gtb_spec (Resp.lastBreathTime s) 0); [reflexivity|lia].
        -- intros Hv. apply Bstore; assumption.
        -- intros Hv. apply Bkeep. right. exact Hv.
      * intros Hc Hzero. rewrite H4, Hc.
        destruct (Z.gtb_spec (Resp.lastBreathTime s) 0); [lia|reflexivity].
Qed.
End Respiratory.

Lemma resp_breath_edges_witness :
  map Resp.phase
      (fst (@Resp.run sampleTarget [(400, 1000); (512, 1050); (600, 1100)] Resp.init))
  = [Resp.EXHALE; Resp.HOLD; Resp.INHALE]
  /\ map Resp.counted
         (fst (@Resp.run sampleTarget [(400, 1000); (512, 1050); (600, 1100)] Resp.init))
     = [false; false; false].
Proof.
  split; [vm_compute; reflexivity|].
  apply (proj1 (proj2 (@resp_breath_edges sampleTarget
           [(400, 1000); (512, 1050); (600, 1100)] Resp.init))).
  vm_compute. reflexivity.
Defined.

(** C1 as stated fails on the first breath.  From reset, an EXHALE sample
    followed by an INHALE sample at 3000 ms is counted as a breath and its
    time is stamped, but no candidate interval is formed, because no
    earlier breath is on record: the interval ring, its cursor and the
    breath rate are left as they were, although the elapsed time, 3000 ms,
    would pass the test of line 209.  The next breath, 3000 ms later, does
    form its candidate, which is stored and gives the rate 20. *)
Lemma resp_first_breath_no_interval :
  let inputs := [(400, 2950); (600, 3000)] in
  let obs := fst (@Resp.run sampleTarget inputs Resp.init) in
  let s1 := value (@Resp.processRespSample sampleTarget 400 2950 Resp.init) in
  let s2 := value (@Resp.processRespSample sampleTarget 600 3000 s1) in
  let s3 := value (@Resp.processRespSample sampleTarget 400 5950 s2) in
  let s4 := value (@Resp.processRespSample sampleTarget 600 6000 s3) in
  map Resp.phase obs = [Resp.EXHALE; Resp.INHALE]
  /\ map Resp.counted obs = [false; true]
  /\ map Resp.interval obs = [None; None]
  /\ value (snd (@Resp.run sampleTarget inputs Resp.init)) = s2
  /\ Resp.lastBreathTime s1 = 0
  /\ Resp.breathValid (Resp.candidate 3000 s1) = true
  /\ Resp.lastBreathTime s2 = 3000
  /\ Resp.breathIntervals s2 = Resp.breathIntervals s1
  /\ Resp.breathIntervals s2 = repeat 0 10
  /\ Resp.breathIndex s2 = 0
  /\ Resp.getBreathRate s2 = 0
  /\ Resp.counted (@Resp.observe sampleTarget 600 6000 s3) = true
  /\ Resp.interval (@Resp.observe sampleTarget 600 6000 s3) = Some 3000
  /\ Resp.breathIntervals s4 = 3000 :: repeat 0 9
  /\ Resp.getBreathRate s4 = 20.
Proof. vm_compute. repeat split. Qed.

Section RespiratoryClock.
Context {T : Target}.

(** The phase side of a call does not see the clock, nor the breath
    record. *)
Lemma resp_classified_phaseState (rawValue : Z)
  (s1 s2 : Resp.RespiratoryProcessor) :
  phaseState s1 = phaseState s2 ->
  phaseState (Resp.classified rawValue s1)
  = phaseState (Resp.classified rawValue s2).
Proof.
  unfold phaseState. intros Heq.
  injection Heq as Hbuf Hidx Hcur Hb Hinh Hexh.
  unfold Resp.classified, Resp.updateBaseline. resp_fields.
  rewrite Hbuf, Hidx.
  destruct (Z.rem (int16 (Resp.bufferIndex s2 + 1)) Resp.BUFFER_SIZE =? 0).
  - rewrite !value_bind. change (value (ret ?x)) with x.
    unfold Resp.phaseOf. resp_fields. rewrite ?Hbuf, ?Hidx. reflexivity.
  - change (value (ret ?x)) with x.
    unfold Resp.phaseOf. resp_fields.
    rewrite ?Hbuf, ?Hidx, Hb, Hinh, Hexh. reflexivity.
Qed.

Lemma resp_step_phaseState (rawValue now : Z) (s : Resp.RespiratoryProcessor) :
  phaseState (value (Resp.processRespSample rawValue now s))
  = phaseState (Resp.classified rawValue s).
Proof.
  rewrite resp_step_unfold.
  destruct (Resp.breathEdge (Resp.classified rawValue s)); [|reflexivity].
  destruct (resp_breathComplete_frame now (Resp.classified rawValue s))
    as (B1 & _ & _ & B4 & B5 & B6 & B7 & B8).
  unfold phaseState. rewrite B1, B4, B5, B6, B7, B8. reflexivity.
Qed.

Lemma resp_run_phases (in1 in2 : list (Z * Z))
  (s1 s2 : Resp.RespiratoryProcessor) :
  map fst in1 = map fst in2 ->
  phaseState s1 = phaseState s2 ->
  map Resp.phase (fst (Resp.run in1 s1))
  = map Resp.phase (fst (Resp.run in2 s2)).
Proof.
  revert in2 s1 s2.
  induction in1 as [|[raw1 now1] rest1 IH];
    intros [|[raw2 now2] rest2] s1 s2 Hin Hst; try discriminate;
    [reflexivity|].
  cbn [map fst] in Hin. injection Hin as -> Hrest.
  cbn [Resp.run].
  destruct (Resp.run rest1 _) as [obs1 fin1] eqn:H1.
  destruct (Resp.run rest2 _) as [obs2 fin2] eqn:H2.
  cbn [fst map]. f_equal.
  - unfold Resp.observe. resp_fields.
    pose proof (resp_classified_phaseState raw2 s1 s2 Hst) as Hc.
    unfold phaseState in Hc. congruence.
  - specialize (IH rest2
      (value (Resp.processRespSample raw2 now1 s1))
      (value (Resp.processRespSample raw2 now2 s2)) Hrest).
    rewrite H1, H2 in IH. apply IH.
    rewrite !resp_step_phaseState.
    apply resp_classified_phaseState, Hst.
Qed.

(** Off a breath edge the clock reading is not used at all. *)
Lemma resp_step_clock (rawValue now1 now2 : Z)
  (s : Resp.RespiratoryProcessor) :
  Resp.breathEdge (Resp.classified rawValue s) = false ->
  Resp.processRespSample rawValue now1 s
  = Resp.processRespSample rawValue now2 s
  /\ Resp.observe rawValue now1 s = Resp.observe rawValue now2 s.
Proof.
  intros He.
  assert (Hstep : Resp.processRespSample rawValue now1 s
                  = Resp.processRespSample rawValue now2 s).
  { unfold Resp.processRespSample, Resp.classified in *.
    destruct (Resp.updateBaseline (Resp.pushSample rawValue s)) as [a fa].
    unfold bind. change (value (a, fa)) with a in He.
    cbv zeta. rewrite He. reflexivity. }
  split; [exact Hstep|].
  unfold Resp.observe. rewrite Hstep, He. reflexivity.
Qed.

Lemma resp_run_clock (in1 in2 : list (Z * Z))
  (s : Resp.RespiratoryProcessor) :
  map fst in1 = map fst in2 ->
  clockReads in1 s = clockReads in2 s ->
  Resp.run in1 s = Resp.run in2 s.
Proof.
  revert in2 s.
  induction in1 as [|[raw1 now1] rest1 IH];
    intros [|[raw2 now2] rest2] s Hin Hck; try discriminate;
    [reflexivity|].
  cbn [map fst] in Hin. injection Hin as -> Hrest.
  cbn [clockReads] in Hck. injection Hck as Hhead Htail.
  assert (Hstep : Resp.processRespSample raw2 now1 s
                  = Resp.processRespSample raw2 now2 s
                  /\ Resp.observe raw2 now1 s = Resp.observe raw2 now2 s).
  { unfold Resp.observe in Hhead. resp_fields.
    destruct (Resp.breathEdge (Resp.classified raw2 s)) eqn:He.
    - injection Hhead as ->. split; reflexivity.
    - apply resp_step_clock, He. }
  destruct Hstep as [Hp Ho].
  cbn [Resp.run]. rewrite Hp, Ho. rewrite Hp in Htail.
  rewrite (IH rest2 _ Hrest Htail). reflexivity.
Qed.

(** C4, as the code has it.  Two runs from reset over the same raw
    samples compute the same phase sequence, whatever the clock reads.
    The call reads [millis()] on every breath edge, so the breath-rate
    sequence is a function of the samples and of those readings: the two
    runs agree on everything, rates included, when the readings taken on
    their breath edges agree. *)
Theorem resp_determinism (in1 in2 : list (Z * Z)) :
  map fst in1 = map fst in2 ->
  Resp.phases in1 = Resp.phases in2
  /\ (clockReads in1 Resp.init = clockReads in2 Resp.init ->
      Resp.rates in1 = Resp.rates in2
      /\ Resp.run in1 Resp.init = Resp.run in2 Resp.init).
Proof.
  intros Hin. split.
  - unfold Resp.phases. apply resp_run_phases; [exact Hin | reflexivity].
  - intros Hck. unfold Resp.rates.
    rewrite (resp_run_clock in1 in2 Resp.init Hin Hck). split; reflexivity.
Qed.

(** C10 on the code, breath-rate half.  Eight breath edges 9362 ms apart
    put seven intervals of 9362 ms into the ring.  Their sum 65534 does
    not fit the 16-bit [int sum]: it wraps to -2, [avgBreath = -2 / 7] is
    0, and [60000 / avgBreath] divides by zero. *)
Theorem resp_rate_divides_by_zero :
  let r := Resp.run (slowBreaths 8 1000) Resp.init in
  Forall (fun i => adc (fst i) /\ clock (snd i)) (slowBreaths 8 1000)
  /\ Resp.breathIntervals (value (snd r))
     = [9362; 9362; 9362; 9362; 9362; 9362; 9362; 0; 0; 0]
  /\ sumCount (Resp.breathIntervals (value (snd r))) = (-2, 7)
  /\ Z.quot (-2) 7 = 0
  /\ faults (snd r) = [DivisionByZero].
Proof.
  cbv zeta. split.
  - unfold adc, clock. cbn [slowBreaths].
    repeat (constructor; [cbn [fst snd]; lia|]). constructor.
  - vm_compute. repeat split.
Qed.
End RespiratoryClock.

Lemma resp_determinism_witness :
  map fst fourSamplesA = map fst fourSamplesB
  /\ @Resp.phases sampleTarget fourSamplesA = @Resp.phases sampleTarget fourSamplesB.
Proof.
  split; [reflexivity|].
  apply (@resp_determinism sampleTarget fourSamplesA fourSamplesB). reflexivity.
Defined.

(** C4 as stated fails: the same four samples, fed twice from reset under
    two different clocks, give two different breath-rate sequences. *)
Lemma resp_rates_depend_on_clock :
  map fst fourSamplesA = map fst fourSamplesB
  /\ @Resp.rates sampleTarget fourSamplesA = [0; 0; 0; 20]
  /\ @Resp.rates sampleTarget fourSamplesB = [0; 0; 0; 15]
  /\ @Resp.rates sampleTarget fourSamplesA <> @Resp.rates sampleTarget fourSamplesB.
Proof. vm_compute. repeat split. discriminate. Qed.

(** ** The sketch *)

Ltac sketch_fields :=
  cbn [Sketch.control Sketch.ecgProc Sketch.respProc Sketch.gsrProc
       Sketch.lastECGSample Sketch.lastRespSample Sketch.lastGSRSample
       Sketch.lastLCDUpdate Sketch.lastDataLog Sketch.sessionStartTime
       Sketch.displayMode Sketch.vitals Sketch.serial Sketch.undefined
       Sketch.withControl Sketch.withLog Sketch.core
       Sketch.sdBegin Sketch.sdOpen Sketch.buttonMode Sketch.now
       Sketch.ecgValue Sketch.loPlus Sketch.loMinus Sketch.ecgClock
       Sketch.respValue Sketch.respClock Sketch.gsrValue Sketch.gsrClock
       Sketch.logClock Sketch.openAvailable] in *.

(** Two systems that agree on everything but the two output files. *)
Ltac same_processing H :=
  match type of H with
  | processing ?a = processing ?b =>
      destruct a, b; unfold processing in H; sketch_fields;
      injection H as; subst
  end.

Section SketchFacts.
Context {T : Target}.

Lemma ecgTask_processing (r : Sketch.Readings) (a b : Sketch.System) :
  processing a = processing b ->
  processing (Sketch.ecgTask r a)
  = processing (Sketch.ecgTask (Sketch.openAvailable r) b).
Proof.
  intros H. same_processing H. unfold Sketch.ecgTask. sketch_fields.
  destruct (Sketch.due _ _ _); reflexivity.
Qed.

Lemma respTask_processing (r : Sketch.Readings) (a b : Sketch.System) :
  processing a = processing b ->
  processing (Sketch.respTask r a)
  = processing (Sketch.respTask (Sketch.openAvailable r) b).
Proof.
  intros H. same_processing H. unfold Sketch.respTask. sketch_fields.
  destruct (Sketch.due _ _ _); reflexivity.
Qed.

Lemma gsrTask_processing (r : Sketch.Readings) (a b : Sketch.System) :
  processing a = processing b ->
  processing (Sketch.gsrTask r a)
  = processing (Sketch.gsrTask (Sketch.openAvailable r) b).
Proof.
  intros H. same_processing H. unfold Sketch.gsrTask. sketch_fields.
  destruct (Sketch.due _ _ _); reflexivity.
Qed.

Lemma lcdTask_processing (r : Sketch.Readings) (a b : Sketch.System) :
  processing a = processing b ->
  processing (Sketch.lcdTask r a)
  = processing (Sketch.lcdTask (Sketch.openAvailable r) b).
Proof.
  intros H. same_processing H. unfold Sketch.lcdTask. sketch_fields.
  destruct (Sketch.due _ _ _); reflexivity.
Qed.

(** [logData] writes to the card and to the serial port only: whether the
    file opens or not, the rest of the system is the same. *)
Lemma logTask_processing (r : Sketch.Readings) (a b : Sketch.System) :
  processing a = processing b ->
  processing (Sketch.logTask r a)
  = processing (Sketch.logTask (Sketch.openAvailable r) b).
Proof.
  intros H. same_processing H. unfold Sketch.logTask. sketch_fields.
  destruct (Sketch.due _ _ _); [|reflexivity].
  destruct (Sketch.logData r _) as [rows1 lines1].
  destruct (Sketch.logData (Sketch.openAvailable r) _) as [rows2 lines2].
  reflexivity.
Qed.

Lemma buttonTask_processing (r : Sketch.Readings) (a b : Sketch.System) :
  processing a = processing b ->
  processing (Sketch.buttonTask r a)
  = processing (Sketch.buttonTask (Sketch.openAvailable r) b).
Proof.
  intros H. same_processing H. unfold Sketch.buttonTask. sketch_fields.
  destruct (_ =? _); reflexivity.
Qed.

Lemma step_processing (r : Sketch.Readings) (a b : Sketch.System) :
  processing a = processing b ->
  processing (Sketch.step r a)
  = processing (Sketch.step (Sketch.openAvailable r) b).
Proof.
  intros H.
  assert (Hc : Sketch.control a = Sketch.control b).
  { unfold processing in H. congruence. }
  unfold Sketch.step. rewrite <- Hc.
  destruct (Sketch.control a) eqn:Ha.
  - sketch_fields. rewrite Hc in Ha. same_processing H.
    destruct (Sketch.sdBegin r); reflexivity.
  - exact H.
  - sketch_fields. rewrite Hc in Ha. same_processing H.
    destruct (_ =? _); reflexivity.
  - unfold Sketch.loop.
    apply buttonTask_processing, logTask_processing, lcdTask_processing,
      gsrTask_processing, respTask_processing, ecgTask_processing, H.
Qed.

Lemma exec_processing (rs : list Sketch.Readings) (a b : Sketch.System) :
  processing a = processing b ->
  processing (Sketch.exec rs a)
  = processing (Sketch.exec (map Sketch.openAvailable rs) b).
Proof.
  revert a b. induction rs as [|r rest IH]; intros a b H; [exact H|].
  cbn [map Sketch.exec fold_left]. apply IH, step_processing, H.
Qed.

(** Once in the [while(1);] of line 346 the sketch stays there. *)
Lemma exec_halted (rs : list Sketch.Readings) (sys : Sketch.System) :
  Sketch.control sys = Sketch.SdHalted -> Sketch.exec rs sys = sys.
Proof.
  intros H. induction rs as [|r rest IH]; [reflexivity|].
  cbn [Sketch.exec fold_left]. unfold Sketch.step at 2. rewrite H. exact IH.
Qed.

End SketchFacts.



(* ================================================================== *)
(** * Part III: further properties of the code *)
(* ================================================================== *)

(** ** Sample rings *)

Lemma total_app (a b : list Z) : total (a ++ b) = total a + total b.
Proof.
  unfold total. induction a as [|x a IH]; cbn [app fold_right]; lia.
Qed.

Lemma store_nat_app (a b : list Z) (x v : Z) :
  store_nat (a ++ x :: b) (length a) v = a ++ v :: b.
Proof.
  induction a as [|y a IH]; cbn [app length store_nat]; [reflexivity|].
  rewrite IH. reflexivity.
Qed.

Lemma nth_app_here (a b : list Z) (x : Z) :
  nth (length a) (a ++ x :: b) 0 = x.
Proof.
  induction a as [|y a IH]; cbn [app length nth]; [reflexivity|exact IH].
Qed.

Lemma window_length (n : nat) (l : list Z) : length (window n l) = n.
Proof.
  unfold window. rewrite length_skipn, length_app, repeat_length. lia.
Qed.

Lemma window_snoc (n : nat) (l : list Z) (v : Z) :
  (0 < n)%nat -> window n (l ++ [v]) = tl (window n l) ++ [v].
Proof.
  intros Hn. unfold window.
  rewrite length_app. cbn [length].
  replace (length l + 1)%nat with (1 + length l)%nat by lia.
  rewrite <- skipn_skipn, app_assoc, skipn_app.
  rewrite length_app, repeat_length.
  replace (length l - (n + length l))%nat with 0%nat by lia.
  cbn [skipn].
  assert (Hlen : length (skipn (length l) (repeat 0 n ++ l)) = n).
  { rewrite length_skipn, length_app, repeat_length. lia. }
  destruct (skipn (length l) (repeat 0 n ++ l)) as [|h t];
    [cbn [length] in Hlen; lia|].
  reflexivity.
Qed.

Lemma window_last (n : nat) (l : list Z) :
  (0 < n)%nat -> last (window n l) 0 = last l 0.
Proof.
  intros Hn. destruct l as [|x l] using rev_ind.
  - unfold window. cbn [length skipn]. rewrite app_nil_r.
    destruct n as [|n]; [lia|]. clear Hn.
    induction n as [|n IH]; [reflexivity|].
    change (repeat 0 (S (S n))) with (0 :: repeat 0 (S n)).
    change (repeat 0 (S n)) with (0 :: repeat 0 n) in *.
    cbn [last] in *. exact IH.
  - rewrite window_snoc by exact Hn. rewrite !last_last. reflexivity.
Qed.

(** The ring a reset state starts with holds the empty stream. *)
Lemma ringHolds_reset (n : nat) :
  (0 < n)%nat -> ringHolds (window n []) (repeat 0 n) 0.
Proof.
  intros Hn. unfold ringHolds, window. cbn [length skipn].
  rewrite app_nil_r, repeat_length.
  split; [lia|].
  change (Z.to_nat 0) with 0%nat. rewrite Nat.sub_0_r.
  rewrite skipn_all2 by (rewrite repeat_length; lia).
  rewrite firstn_all2 by (rewrite repeat_length; lia).
  reflexivity.
Qed.

(** Lines 79-80, 168-169 and 261-262 on a ring of [N] cells: the sample
    replaces the oldest one and the cursor moves on, wrapping at [N]. *)
Lemma ringHolds_push (N : Z) (w buf : list Z) (idx v : Z) :
  Z.of_nat (length w) = N -> N <= 32767 ->
  ringHolds w buf idx ->
  ringHolds (tl w ++ [v]) (store buf idx v) (Z.rem (int16 (idx + 1)) N).
Proof.
  intros HN Hmax (Hidx & Hbuf).
  rewrite (int16_id (idx + 1)) by lia.
  assert (Hrem : Z.rem (idx + 1) N
                 = if idx + 1 =? N then 0 else idx + 1).
  { destruct (Z.eqb_spec (idx + 1) N) as [->|Hne].
    - apply Z.rem_same. lia.
    - apply Z.rem_small. lia. }
  destruct w as [|h t]; [cbn [length] in Hidx; lia|].
  cbn [tl]. cbn [length] in HN, Hidx, Hbuf.
  assert (Hlen' : length (t ++ [v]) = S (length t)).
  { rewrite length_app. cbn [length]. lia. }
  unfold ringHolds. rewrite Hlen'.
  remember (Z.to_nat idx) as i eqn:Hi.
  assert (Hii : (i <= length t)%nat) by lia.
  replace (S (length t) - i)%nat with (S (length t - i)) in Hbuf by lia.
  cbn [skipn firstn] in Hbuf.
  assert (Hsk : length (skipn (length t - i) t) = i).
  { rewrite length_skipn. lia. }
  assert (Hst : store buf idx v
                = skipn (length t - i) t ++ v :: firstn (length t - i) t).
  { unfold store. rewrite <- Hi, Hbuf.
    set (A := skipn (length t - i) t) in *.
    set (B := firstn (length t - i) t).
    transitivity (store_nat (A ++ h :: B) (length A) v);
      [rewrite Hsk; reflexivity | apply store_nat_app]. }
  rewrite Hst, Hrem.
  destruct (Z.eqb_spec (idx + 1) N) as [He|Hne].
  - split; [lia|].
    change (Z.to_nat 0) with 0%nat. rewrite Nat.sub_0_r.
    rewrite (@skipn_all2 Z (S (length t)) (t ++ [v])) by (rewrite Hlen'; lia).
    rewrite (@firstn_all2 Z (S (length t)) (t ++ [v])) by (rewrite Hlen'; lia).
    replace (length t - i)%nat with 0%nat by lia.
    cbn [skipn firstn app]. reflexivity.
  - split; [lia|].
    replace (Z.to_nat (idx + 1)) with (S i) by lia.
    replace (S (length t) - S i)%nat with (length t - i)%nat by lia.
    rewrite skipn_app, firstn_app.
    replace (length t - i - length t)%nat with 0%nat by lia.
    cbn [skipn firstn]. rewrite app_nil_r, <- app_assoc. reflexivity.
Qed.

(** Lines 141, 233 and 301: the cell before the cursor holds the newest
    sample. *)
Lemma ringHolds_latest (N : Z) (w buf : list Z) (idx : Z) :
  Z.of_nat (length w) = N -> N <= 16383 ->
  ringHolds w buf idx ->
  load buf (Z.rem (int16 (int16 (idx + N) - 1)) N) = last w 0.
Proof.
  intros HN Hmax (Hidx & Hbuf).
  rewrite (int16_id (idx + N)) by lia.
  rewrite (int16_id (idx + N - 1)) by lia.
  unfold load.
  destruct (Z.eqb_spec idx 0) as [->|Hne].
  - replace (0 + N - 1) with (N - 1) by lia.
    rewrite Z.rem_small by lia.
    change (Z.to_nat 0) with 0%nat in Hbuf. rewrite Nat.sub_0_r in Hbuf.
    rewrite skipn_all2, firstn_all2 in Hbuf by lia.
    cbn [app] in Hbuf. subst buf.
    destruct w as [|h t] using rev_ind; [cbn [length] in Hidx; lia|].
    rewrite last_last. rewrite length_app in HN. cbn [length] in HN.
    replace (Z.to_nat (N - 1)) with (length t) by lia.
    apply nth_app_here.
  - assert (Hr : Z.rem (idx + N - 1) N = idx - 1).
    { rewrite Z.rem_mod_nonneg by lia.
      symmetry. apply (Z.mod_unique _ _ 1); lia. }
    rewrite Hr.
    destruct w as [|h t] using rev_ind; [cbn [length] in Hidx; lia|].
    clear IHt. rewrite last_last.
    rewrite length_app in HN, Hidx, Hbuf. cbn [length] in HN, Hidx, Hbuf.
    rewrite skipn_app in Hbuf.
    replace (length t + 1 - Z.to_nat idx - length t)%nat with 0%nat in Hbuf
      by lia.
    cbn [skipn] in Hbuf. rewrite <- app_assoc in Hbuf. subst buf.
    replace (Z.to_nat (idx - 1))
      with (length (skipn (length t + 1 - Z.to_nat idx) t))
      by (rewrite length_skipn; lia).
    apply nth_app_here.
Qed.

Lemma ringHolds_total (w buf : list Z) (idx : Z) :
  ringHolds w buf idx -> total buf = total w.
Proof.
  intros (_ & ->). rewrite total_app.
  assert (H : total w
              = total (firstn (length w - Z.to_nat idx) w)
                + total (skipn (length w - Z.to_nat idx) w))
    by (rewrite <- total_app, firstn_skipn; reflexivity).
  lia.
Qed.

Lemma ringHolds_length (w buf : list Z) (idx : Z) :
  ringHolds w buf idx -> length buf = length w.
Proof.
  intros (_ & ->). rewrite length_app, Nat.add_comm, <- length_app.
  rewrite firstn_skipn. reflexivity.
Qed.

Lemma ringHolds_Forall (P : Z -> Prop) (w buf : list Z) (idx : Z) :
  ringHolds w buf idx -> Forall P w -> Forall P buf.
Proof.
  intros (_ & ->) Hw. apply Forall_app. split.
  - apply Forall_forall. intros x Hx.
    rewrite Forall_forall in Hw. apply Hw.
    rewrite <- (firstn_skipn (length w - Z.to_nat idx) w).
    apply in_or_app. right. exact Hx.
  - apply Forall_forall. intros x Hx.
    rewrite Forall_forall in Hw. apply Hw.
    rewrite <- (firstn_skipn (length w - Z.to_nat idx) w).
    apply in_or_app. left. exact Hx.
Qed.

Lemma total_zeros (l : list Z) : Forall (fun v => v = 0) l -> total l = 0.
Proof.
  induction 1 as [|v t Hv Ht IH]; [reflexivity|].
  unfold total in *. cbn [fold_right]. lia.
Qed.

Lemma skipn_In (k : nat) (l : list Z) (x : Z) : In x (skipn k l) -> In x l.
Proof.
  intros H. rewrite <- (firstn_skipn k l). apply in_or_app. right. exact H.
Qed.

(** Until the ring is full the window is the stream behind leading zeros;
    from then on it is the last [n] samples. *)
Lemma window_short (n : nat) (l : list Z) :
  (length l <= n)%nat -> total (window n l) = total l.
Proof.
  intros Hl. unfold window. rewrite skipn_app, repeat_length.
  replace (length l - n)%nat with 0%nat by lia. cbn [skipn].
  rewrite total_app, total_zeros; [lia|].
  apply Forall_forall. intros x Hx. apply skipn_In in Hx.
  apply repeat_spec in Hx. exact Hx.
Qed.

Lemma window_long (n : nat) (l : list Z) :
  (n <= length l)%nat -> window n l = lastn n l.
Proof.
  intros Hl. unfold window, lastn. rewrite skipn_app, repeat_length.
  rewrite skipn_all2 by (rewrite repeat_length; lia). reflexivity.
Qed.

Lemma window_Forall (P : Z -> Prop) (n : nat) (l : list Z) :
  P 0 -> Forall P l -> Forall P (window n l).
Proof.
  intros H0 Hl. apply Forall_forall. intros x Hx.
  unfold window in Hx. apply skipn_In in Hx.
  apply in_app_or in Hx. destruct Hx as [Hx|Hx].
  - apply repeat_spec in Hx. subst x. exact H0.
  - rewrite Forall_forall in Hl. apply Hl. exact Hx.
Qed.

Section SampleRings.
Context {T : Target}.

Lemma ecg_step_buffer (loPlus loMinus rawValue now : Z) (s : ECG.ECGProcessor) :
  let s' := value (ECG.processECGSample loPlus loMinus rawValue now s) in
  if (loPlus =? 1) || (loMinus =? 1)
  then ECG.ecgBuffer s' = ECG.ecgBuffer s
       /\ ECG.bufferIndex s' = ECG.bufferIndex s
  else ECG.ecgBuffer s' = store (ECG.ecgBuffer s) (ECG.bufferIndex s) rawValue
       /\ ECG.bufferIndex s' = Z.rem (int16 (ECG.bufferIndex s + 1)) 100.
Proof.
  cbv zeta. unfold ECG.processECGSample.
  destruct ((loPlus =? 1) || (loMinus =? 1)); [split; reflexivity|].
  rewrite value_bind.
  set (s1 := value (ECG.updateThreshold (ECG.pushSample rawValue s))).
  assert (H1 : ECG.ecgBuffer s1
               = store (ECG.ecgBuffer s) (ECG.bufferIndex s) rawValue
               /\ ECG.bufferIndex s1
                  = Z.rem (int16 (ECG.bufferIndex s + 1)) 100).
  { unfold s1, ECG.updateThreshold.
    destruct (ECG.bufferIndex (ECG.pushSample rawValue s) =? 0).
    - rewrite !value_bind. change (value (ret ?x)) with x.
      ecg_fields. split; reflexivity.
    - change (value (ret ?x)) with x. ecg_fields. split; reflexivity. }
  destruct H1 as [H1 H2]. rewrite <- H1, <- H2.
  generalize s1. clear. intros s.
  unfold ECG.detectPeak.
  destruct ((rawValue >? ECG.peakThreshold s) && negb (ECG.inPeak s));
    [split; reflexivity|].
  destruct (ECG.inPeak s); [|split; reflexivity].
  destruct (rawValue >? ECG.peakValue s); [split; reflexivity|].
  destruct (rawValue <? ECG.peakThreshold s); [|split; reflexivity].
  unfold ECG.peakComplete. rewrite value_bind.
  change (value (ret ?x)) with x. ecg_fields.
  destruct (ECG.lastPeakTime s >? 0); [|split; reflexivity].
  unfold ECG.admitInterval.
  destruct (ECG.rrValid _); [|split; reflexivity].
  rewrite value_bind. change (value (ret ?x)) with x. ecg_fields.
  split; reflexivity.
Qed.

Lemma ecg_run_ring (inputs : list (Z * Z * Z * Z)) :
  forall (pre : list Z) (s : ECG.ECGProcessor),
    ringHolds (window 100 pre) (ECG.ecgBuffer s) (ECG.bufferIndex s) ->
    ringHolds (window 100 (pre ++ ecgStored inputs))
              (ECG.ecgBuffer (value (runECG inputs s)))
              (ECG.bufferIndex (value (runECG inputs s))).
Proof.
  induction inputs as [|[[[loPlus loMinus] rawValue] now] rest IH];
    intros pre s Hs.
  - unfold ecgStored. cbn [filter map runECG]. rewrite app_nil_r. exact Hs.
  - cbn [runECG]. rewrite value_bind.
    pose proof (ecg_step_buffer loPlus loMinus rawValue now s) as Hstep.
    cbv zeta in Hstep. unfold ecgStored. cbn [filter fst snd].
    fold (ecgStored rest).
    destruct ((loPlus =? 1) || (loMinus =? 1)); cbn [negb].
    + fold (ecgStored rest). apply IH.
      destruct Hstep as [-> ->]. exact Hs.
    + cbn [map fst snd]. fold (ecgStored rest).
      replace (pre ++ rawValue :: ecgStored rest)
        with ((pre ++ [rawValue]) ++ ecgStored rest)
        by (rewrite <- app_assoc; reflexivity).
      apply IH. destruct Hstep as [-> ->].
      rewrite window_snoc by lia.
      apply ringHolds_push; [rewrite window_length; reflexivity | lia | exact Hs].
Qed.

(** X1.  The cardiac sample ring.  After any run from reset the ring
    holds the last hundred samples taken with the leads on (zeros where
    fewer have been taken), the oldest at the write cursor, and
    [getRawValue] returns the newest of them: a call made with a lead off
    stores nothing, so the value exposed then is the last sample taken
    with the leads on. *)
Theorem ecg_ring_latest (inputs : list (Z * Z * Z * Z)) :
  let s := value (runECG inputs ECG.init) in
  ringHolds (window 100 (ecgStored inputs))
            (ECG.ecgBuffer s) (ECG.bufferIndex s)
  /\ ECG.getRawValue s = last (ecgStored inputs) 0.
Proof.
  cbv zeta.
  assert (H : ringHolds (window 100 (ecgStored inputs))
                (ECG.ecgBuffer (value (runECG inputs ECG.init)))
                (ECG.bufferIndex (value (runECG inputs ECG.init)))).
  { apply (ecg_run_ring inputs [] ECG.init).
    apply (ringHolds_reset 100). lia. }
  split; [exact H|].
  unfold ECG.getRawValue, ECG.BUFFER_SIZE.
  rewrite (ringHolds_latest 100 (window 100 (ecgStored inputs)) _ _); 
    [apply window_last; lia | rewrite window_length; reflexivity | lia | exact H].
Qed.

Lemma resp_step_buffer (rawValue now : Z) (s : Resp.RespiratoryProcessor) :
  let s' := value (Resp.processRespSample rawValue now s) in
  Resp.respBuffer s' = store (Resp.respBuffer s) (Resp.bufferIndex s) rawValue
  /\ Resp.bufferIndex s' = Z.rem (int16 (Resp.bufferIndex s + 1)) 60.
Proof.
  cbv zeta. rewrite resp_step_unfold.
  assert (Hc : Resp.respBuffer (Resp.classified rawValue s)
               = store (Resp.respBuffer s) (Resp.bufferIndex s) rawValue
               /\ Resp.bufferIndex (Resp.classified rawValue s)
                  = Z.rem (int16 (Resp.bufferIndex s + 1)) 60).
  { unfold Resp.classified.
    destruct (resp_updateBaseline_frame (Resp.pushSample rawValue s))
      as (_ & _ & _ & _ & _ & _ & H7 & H8).
    resp_fields. split; assumption. }
  destruct (Resp.breathEdge (Resp.classified rawValue s)); [|exact Hc].
  destruct (resp_breathComplete_frame now (Resp.classified rawValue s))
    as (_ & _ & _ & B4 & B5 & _).
  rewrite B4, B5. exact Hc.
Qed.

Lemma runResp_cons (rawValue now : Z) (rest : list (Z * Z))
  (s : Resp.RespiratoryProcessor) :
  runResp ((rawValue, now) :: rest) s
  = runResp rest (value (Resp.processRespSample rawValue now s)).
Proof.
  unfold runResp. cbn [Resp.run].
  destruct (Resp.run rest (value (Resp.processRespSample rawValue now s)))
    as [obs final].
  reflexivity.
Qed.

Lemma resp_run_ring (inputs : list (Z * Z)) :
  forall (pre : list Z) (s : Resp.RespiratoryProcessor),
    ringHolds (window 60 pre) (Resp.respBuffer s) (Resp.bufferIndex s) ->
    ringHolds (window 60 (pre ++ map fst inputs))
              (Resp.respBuffer (runResp inputs s))
              (Resp.bufferIndex (runResp inputs s)).
Proof.
  induction inputs as [|[rawValue now] rest IH]; intros pre s Hs.
  - cbn [map]. rewrite app_nil_r. exact Hs.
  - rewrite runResp_cons. cbn [map fst].
    replace (pre ++ rawValue :: map fst rest)
      with ((pre ++ [rawValue]) ++ map fst rest)
      by (rewrite <- app_assoc; reflexivity).
    apply IH.
    destruct (resp_step_buffer rawValue now s) as [-> ->].
    rewrite window_snoc by lia.
    apply ringHolds_push; [rewrite window_length; reflexivity | lia | exact Hs].
Qed.

(** X2.  The respiratory sample ring.  After any run from reset the ring
    holds the last sixty samples (zeros where fewer have arrived), the
    oldest at the write cursor, and [getRawValue] returns the sample of
    the last call; before the first call it returns 0. *)
Theorem resp_ring_latest (inputs : list (Z * Z)) :
  let s := runResp inputs Resp.init in
  ringHolds (window 60 (map fst inputs))
            (Resp.respBuffer s) (Resp.bufferIndex s)
  /\ Resp.getRawValue s = last (map fst inputs) 0.
Proof.
  cbv zeta.
  assert (H : ringHolds (window 60 (map fst inputs))
                (Resp.respBuffer (runResp inputs Resp.init))
                (Resp.bufferIndex (runResp inputs Resp.init))).
  { apply (resp_run_ring inputs [] Resp.init).
    apply (ringHolds_reset 60). lia. }
  split; [exact H|].
  unfold Resp.getRawValue, Resp.BUFFER_SIZE.
  rewrite (ringHolds_latest 60 (window 60 (map fst inputs)) _ _); 
    [apply window_last; lia | rewrite window_length; reflexivity | lia | exact H].
Qed.

End SampleRings.

Lemma gsr_step_buffer (rawValue now : Z) (s : GSR.GSRProcessor) :
  let s' := GSR.processGSRSample rawValue now s in
  GSR.gsrBuffer s' = store (GSR.gsrBuffer s) (GSR.bufferIndex s) rawValue
  /\ GSR.bufferIndex s' = Z.rem (int16 (GSR.bufferIndex s + 1)) 30
  /\ GSR.smoothedValue s'
     = int16 (Z.quot (GSR.windowSum (GSR.gsrBuffer s')) 30).
Proof.
  cbv zeta. unfold GSR.processGSRSample.
  change (GSR.calibrated (GSR.smooth rawValue s)) with (GSR.calibrated s).
  destruct (GSR.calibrated s); cbn [negb].
  - unfold GSR.classify, GSR.smooth. gsr_fields. repeat split.
  - unfold GSR.calibrate, GSR.smooth. gsr_fields.
    destruct (_ >=? _); gsr_fields; repeat split.
Qed.

Lemma gsr_run_ring (inputs : list (Z * Z)) :
  ringHolds (window 30 (map fst inputs))
            (GSR.gsrBuffer (GSR.run inputs GSR.init))
            (GSR.bufferIndex (GSR.run inputs GSR.init)).
Proof.
  induction inputs as [|[rawValue now] l IH] using rev_ind.
  - apply (ringHolds_reset 30). lia.
  - rewrite gsr_run_app, map_app. cbn [map fst].
    change (GSR.run [(rawValue, now)] (GSR.run l GSR.init))
      with (GSR.processGSRSample rawValue now (GSR.run l GSR.init)).
    destruct (gsr_step_buffer rawValue now (GSR.run l GSR.init))
      as (-> & -> & _).
    rewrite window_snoc by lia.
    apply ringHolds_push; [rewrite window_length; reflexivity | lia | exact IH].
Qed.

Lemma gsr_run_smoothed (inputs : list (Z * Z)) :
  Forall (fun i => adc (fst i)) inputs ->
  GSR.smoothedValue (GSR.run inputs GSR.init)
  = Z.quot (total (window 30 (map fst inputs))) 30.
Proof.
  intros Hin.
  destruct inputs as [|[rawValue now] l _] using rev_ind; [reflexivity|].
  pose proof (gsr_run_ring (l ++ [(rawValue, now)])) as Hring.
  assert (Hadc : gsrAdc (GSR.run (l ++ [(rawValue, now)]) GSR.init)).
  { apply gsr_run_adc; [exact Hin|].
    unfold gsrAdc, adc. cbn.
    repeat split; try lia; try reflexivity.
    repeat constructor; lia. }
  destruct Hadc as (Hlen & Hbuf & _ & _ & _).
  rewrite <- (ringHolds_total _ _ _ Hring).
  revert Hlen Hbuf. rewrite gsr_run_app.
  change (GSR.run [(rawValue, now)] (GSR.run l GSR.init))
    with (GSR.processGSRSample rawValue now (GSR.run l GSR.init)).
  destruct (gsr_step_buffer rawValue now (GSR.run l GSR.init))
    as (_ & _ & ->).
  generalize (GSR.gsrBuffer
                (GSR.processGSRSample rawValue now (GSR.run l GSR.init))).
  intros buf Hlen Hbuf.
  unfold GSR.windowSum. rewrite <- Hlen.
  rewrite (fold_indices (fun sum v => int32 (sum + v)) buf 0).
  destruct (long_sum_exact buf 0 Hbuf ltac:(lia) ltac:(rewrite Hlen; lia))
    as [E B].
  rewrite E, Hlen in *. rewrite Z.add_0_l.
  apply int16_id. Z.to_euclidean_division_equations. lia.
Qed.

(** X3.  The GSR moving average.  After any run of converter readings
    from reset the ring holds the last thirty readings (zeros where fewer
    have arrived), [getRawValue] returns the newest, and the smoothed value
    is the sum of those thirty cells divided by thirty.  So until thirty
    readings have arrived the average is the sum of all readings so far
    over thirty, not over their number; from then on it is the mean of the
    last thirty. *)
Theorem gsr_moving_average (inputs : list (Z * Z)) :
  Forall (fun i => adc (fst i)) inputs ->
  let s := GSR.run inputs GSR.init in
  let samples := map fst inputs in
  ringHolds (window 30 samples) (GSR.gsrBuffer s) (GSR.bufferIndex s)
  /\ GSR.getRawValue s = last samples 0
  /\ GSR.getSmoothedValue s = Z.quot (total (window 30 samples)) 30
  /\ ((length inputs <= 30)%nat ->
      GSR.getSmoothedValue s = Z.quot (total samples) 30)
  /\ ((30 <= length inputs)%nat ->
      GSR.getSmoothedValue s = mean (lastn 30 samples)).
Proof.
  intros Hin. cbv zeta.
  pose proof (gsr_run_ring inputs) as Hring.
  pose proof (gsr_run_smoothed inputs Hin) as Hsm.
  unfold GSR.getSmoothedValue.
  split; [exact Hring|]. split; [|split; [exact Hsm|split]].
  - unfold GSR.getRawValue, GSR.BUFFER_SIZE.
    rewrite (ringHolds_latest 30 (window 30 (map fst inputs)) _ _);
      [apply window_last; lia | rewrite window_length; reflexivity | lia
      | exact Hring].
  - intros Hlen. rewrite Hsm, window_short; [reflexivity|].
    rewrite length_map. exact Hlen.
  - intros Hlen. rewrite Hsm.
    assert (Hl : (30 <= length (map fst inputs))%nat)
      by (rewrite length_map; exact Hlen).
    unfold mean. rewrite <- (window_long 30 _ Hl), window_length.
    reflexivity.
Qed.

Lemma gsr_moving_average_witness :
  Forall (fun i => adc (fst i)) [(300, 0); (600, 200)]
  /\ GSR.getSmoothedValue (GSR.run [(300, 0); (600, 200)] GSR.init)
     = Z.quot (total [300; 600]) 30.
Proof.
  assert (H : Forall (fun i => adc (fst i)) [(300, 0); (600, 200)])
    by (repeat constructor; cbn; lia).
  split; [exact H|].
  destruct (gsr_moving_average [(300, 0); (600, 200)] H)
    as (_ & _ & _ & Hshort & _).
  apply Hshort. cbn. lia.
Defined.

(** X4.  The calibrated baseline.  The fiftieth reading ends the
    calibration with the baseline set to the mean of readings 21 to 50:
    the first twenty readings have left the ring by then and do not
    count. *)
Theorem gsr_baseline_mean (inputs : list (Z * Z)) :
  Forall (fun i => adc (fst i)) inputs ->
  length inputs = 50%nat ->
  let s := GSR.run inputs GSR.init in
  GSR.calibrated s = true
  /\ GSR.baseline s = mean (skipn 20 (map fst inputs))
  /\ GSR.baseline s = GSR.getSmoothedValue s.
Proof.
  intros Hin Hlen. cbv zeta.
  pose proof (gsr_run_smoothed inputs Hin) as Hsm.
  assert (Hl : (30 <= length (map fst inputs))%nat)
    by (rewrite length_map; lia).
  rewrite (window_long 30 _ Hl) in Hsm. unfold lastn in Hsm.
  rewrite length_map, Hlen in Hsm.
  change (50 - 30)%nat with 20%nat in Hsm.
  assert (Hm : mean (skipn 20 (map fst inputs))
               = Z.quot (total (skipn 20 (map fst inputs))) 30).
  { unfold mean. rewrite length_skipn, length_map, Hlen. reflexivity. }
  rewrite Hm, <- Hsm. unfold GSR.getSmoothedValue. clear Hsm Hm Hl Hin.
  destruct inputs as [|[rawValue now] l _] using rev_ind;
    [discriminate|].
  rewrite length_app in Hlen. cbn [length] in Hlen.
  rewrite gsr_run_app.
  change (GSR.run [(rawValue, now)] (GSR.run l GSR.init))
    with (GSR.processGSRSample rawValue now (GSR.run l GSR.init)).
  destruct (gsr_calibrating l GSR.init) as (Hc & Hn & _);
    [reflexivity | cbn; lia | cbn; lia |].
  destruct (gsr_completion rawValue now (GSR.run l GSR.init) Hc)
    as (H1 & H2 & _).
  { rewrite Hn. cbn. lia. }
  repeat split; assumption.
Qed.

Lemma gsr_baseline_mean_witness :
  Forall (fun i => adc (fst i)) (repeat (100, 0) 20 ++ repeat (400, 0) 30)
  /\ length (repeat (100, 0) 20 ++ repeat (400, 0) 30) = 50%nat
  /\ GSR.baseline (GSR.run (repeat (100, 0) 20 ++ repeat (400, 0) 30) GSR.init)
     = 400.
Proof.
  assert (H : Forall (fun i => adc (fst i))
                (repeat (100, 0) 20 ++ repeat (400, 0) 30)).
  { apply Forall_forall. intros x Hx. apply in_app_or in Hx.
    destruct Hx as [Hx|Hx]; apply repeat_spec in Hx; subst x; cbn;
      unfold adc; lia. }
  split; [exact H|]. split; [reflexivity|].
  destruct (gsr_baseline_mean _ H eq_refl) as (_ & Hb & _).
  rewrite Hb. reflexivity.
Defined.

(** ** The exposed levels and rates *)

Lemma gsr_step_level (rawValue now : Z) (s : GSR.GSRProcessor) :
  0 <= GSR.sweatLevel s <= 3 ->
  0 <= GSR.sweatLevel (GSR.processGSRSample rawValue now s) <= 3.
Proof.
  intros Hs. unfold GSR.processGSRSample.
  change (GSR.calibrated (GSR.smooth rawValue s)) with (GSR.calibrated s).
  destruct (GSR.calibrated s); cbn [negb].
  - unfold GSR.classify. gsr_fields.
    unfold GSR.level.
    destruct (_ <? 10); [lia|]. destruct (_ <? 30); [lia|].
    destruct (_ <? 60); lia.
  - unfold GSR.calibrate, GSR.smooth. gsr_fields.
    destruct (_ >=? _); gsr_fields; exact Hs.
Qed.

(** X5.  The sweat level and its label.  After any run from reset,
    whatever the samples and the clock, the sweat level is one of 0, 1, 2,
    3, so [getSweatString] returns one of its four labels and never
    ["ERR "]; through the first fifty samples, the calibration, the label
    is ["DRY "] whatever the skin conductance. *)
Theorem gsr_sweat_label (inputs : list (Z * Z)) :
  let s := GSR.run inputs GSR.init in
  0 <= GSR.getSweatLevel s <= 3
  /\ GSR.getSweatString s <> "ERR "%string
  /\ (GSR.getSweatString s = "DRY "%string <-> GSR.getSweatLevel s = 0)
  /\ (GSR.getSweatString s = "HIGH"%string <-> GSR.getSweatLevel s = 3)
  /\ ((length inputs <= 50)%nat -> GSR.getSweatString s = "DRY "%string).
Proof.
  cbv zeta.
  assert (Hr : 0 <= GSR.sweatLevel (GSR.run inputs GSR.init) <= 3).
  { induction inputs as [|[rawValue now] l IH] using rev_ind; [cbn; lia|].
    rewrite gsr_run_app.
    change (GSR.run [(rawValue, now)] (GSR.run l GSR.init))
      with (GSR.processGSRSample rawValue now (GSR.run l GSR.init)).
    apply gsr_step_level. exact IH. }
  assert (Hcal : (length inputs <= 50)%nat ->
                 GSR.sweatLevel (GSR.run inputs GSR.init) = 0).
  { intros Hlen.
    destruct (Nat.eq_dec (length inputs) 50) as [H50|Hne].
    - destruct inputs as [|[rawValue now] l _] using rev_ind; [discriminate|].
      rewrite length_app in H50. cbn [length] in H50.
      rewrite gsr_run_app.
      change (GSR.run [(rawValue, now)] (GSR.run l GSR.init))
        with (GSR.processGSRSample rawValue now (GSR.run l GSR.init)).
      destruct (gsr_calibrating l GSR.init) as (Hc & Hn & Hl & _);
        [reflexivity | cbn; lia | cbn; lia |].
      destruct (gsr_completion rawValue now (GSR.run l GSR.init) Hc)
        as (_ & _ & H3).
      { rewrite Hn. cbn. lia. }
      rewrite H3, Hl. reflexivity.
    - destruct (gsr_calibrating inputs GSR.init) as (_ & _ & Hl & _);
        [reflexivity | cbn; lia | cbn; lia |].
      rewrite Hl. reflexivity. }
  unfold GSR.getSweatLevel, GSR.getSweatString.
  split; [exact Hr|].
  split; [|split; [|split]].
  - destruct (GSR.sweatLevel (GSR.run inputs GSR.init)) as [|[p|p|]|p];
      try discriminate; try lia;
      destruct p as [p|p|]; try discriminate; lia.
  - destruct (GSR.sweatLevel (GSR.run inputs GSR.init)) as [|[p|p|]|p];
      try (split; [discriminate|lia]); try (split; reflexivity);
      destruct p as [p|p|]; split; try discriminate; lia.
  - destruct (GSR.sweatLevel (GSR.run inputs GSR.init)) as [|[p|p|]|p];
      try (split; [discriminate|lia]); try (split; reflexivity);
      destruct p as [p|p|]; split; try discriminate; try lia; reflexivity.
  - intros Hlen. rewrite (Hcal Hlen). reflexivity.
Qed.

Lemma gsr_sweat_label_witness :
  (length (repeat (900, 0) 50) <= 50)%nat
  /\ GSR.getSweatString (GSR.run (repeat (900, 0) 50) GSR.init) = "DRY "%string.
Proof.
  split; [cbn; lia|].
  destruct (gsr_sweat_label (repeat (900, 0) 50)) as (_ & _ & _ & _ & H).
  apply H. cbn. lia.
Defined.

Lemma mean_bounds (lo hi : Z) (l : list Z) :
  l <> [] ->
  lo * Z.of_nat (length l) <= total l <= hi * Z.of_nat (length l) ->
  lo <= mean l <= hi.
Proof.
  intros Hne Hb. unfold mean.
  assert (0 < Z.of_nat (length l)).
  { destruct l; [congruence|cbn [length]; lia]. }
  generalize dependent (Z.of_nat (length l)). intros n Hb Hn.
  Z.to_euclidean_division_equations. nia.
Qed.

Lemma rate_bounds (m : Z) : 300 < m < 2000 -> 30 <= Z.quot 60000 m <= 199.
Proof. intros Hm. Z.to_euclidean_division_equations. nia. Qed.

Section HeartRate.
Context {T : Target}.

Lemma ecg_admit_rate (rr : Z) (s : ECG.ECGProcessor) :
  rrRing s ->
  ECG.currentHeartRate s = 0 \/ 30 <= ECG.currentHeartRate s <= 199 ->
  let s' := value (ECG.admitInterval rr s) in
  ECG.currentHeartRate s' = 0 \/ 30 <= ECG.currentHeartRate s' <= 199.
Proof.
  intros Hring Hhr. cbv zeta.
  destruct (ecg_admit rr s Hring) as (Hring' & _ & _ & Hin & Hout).
  destruct (rrValid_spec rr) as [_ Hv].
  destruct (ECG.rrValid rr) eqn:Hrr.
  - assert (H : 300 < rr < 2000) by (apply rrValid_spec; exact Hrr).
    destruct (Hin H) as (Hst & _ & Hrate).
    right. rewrite Hrate. apply rate_bounds.
    destruct Hring' as (Hlen & Hslots & _).
    destruct Hring as (Hlen0 & _ & Hidx).
    assert (Hne : populated (ECG.rrIntervals (value (ECG.admitInterval rr s)))
                  <> []).
    { rewrite Hst. intros Hnil.
      pose proof (populated_store (ECG.rrIntervals s) (ECG.rrIndex s) rr) as Hp.
      rewrite Hnil in Hp. apply Hp; lia. }
    pose proof (populated_bounds 300 2000 _ Hslots ltac:(lia)) as Hb.
    pose proof (mean_bounds 301 1999 _ Hne) as Hm.
    lia.
  - rewrite Hout; [exact Hhr|].
    intros H. apply Hv in H. congruence.
Qed.

Lemma ecg_step_rate (loPlus loMinus rawValue now : Z) (s : ECG.ECGProcessor) :
  rrRing s ->
  ECG.currentHeartRate s = 0 \/ 30 <= ECG.currentHeartRate s <= 199 ->
  let s' := value (ECG.processECGSample loPlus loMinus rawValue now s) in
  ECG.currentHeartRate s' = 0 \/ 30 <= ECG.currentHeartRate s' <= 199.
Proof.
  intros Hring Hhr. cbv zeta. unfold ECG.processECGSample.
  destruct ((loPlus =? 1) || (loMinus =? 1)); [left; reflexivity|].
  rewrite value_bind.
  set (s1 := value (ECG.updateThreshold (ECG.pushSample rawValue s))).
  assert (H1 : rrRing s1
               /\ ECG.currentHeartRate s1 = ECG.currentHeartRate s).
  { split.
    - apply ecg_updateThreshold_ring. exact Hring.
    - unfold s1, ECG.updateThreshold.
      destruct (ECG.bufferIndex (ECG.pushSample rawValue s) =? 0).
      + rewrite !value_bind. change (value (ret ?x)) with x.
        ecg_fields. reflexivity.
      + reflexivity. }
  destruct H1 as [Hring1 H1]. rewrite <- H1 in Hhr.
  revert Hring1 Hhr. generalize s1. clear. intros s Hring Hhr.
  unfold ECG.detectPeak.
  destruct ((rawValue >? ECG.peakThreshold s) && negb (ECG.inPeak s));
    [exact Hhr|].
  destruct (ECG.inPeak s); [|exact Hhr].
  destruct (rawValue >? ECG.peakValue s); [exact Hhr|].
  destruct (rawValue <? ECG.peakThreshold s); [|exact Hhr].
  unfold ECG.peakComplete. rewrite value_bind.
  change (value (ret ?x)) with x. ecg_fields.
  destruct (ECG.lastPeakTime s >? 0); [|exact Hhr].
  apply ecg_admit_rate; assumption.
Qed.


End HeartRate.

(** ** The interval averager over a sequence of peak exits *)

Lemma populated_app (a b : list Z) :
  populated (a ++ b) = populated a ++ populated b.
Proof. apply filter_app. Qed.

Lemma populated_positive (l : list Z) :
  Forall (fun v => 0 < v) l -> populated l = l.
Proof.
  induction 1 as [|v t Hv Ht IH]; [reflexivity|].
  unfold populated in *. cbn [filter].
  destruct (Z.gtb_spec v 0); [|lia]. rewrite IH. reflexivity.
Qed.

Lemma populated_zeros (l : list Z) :
  Forall (fun v => v = 0) l -> populated l = [].
Proof.
  induction 1 as [|v t Hv Ht IH]; [reflexivity|].
  unfold populated in *. cbn [filter].
  destruct (Z.gtb_spec v 0); [lia|]. exact IH.
Qed.

Lemma populated_window (n : nat) (l : list Z) :
  Forall (fun v => 0 < v) l -> populated (window n l) = lastn n l.
Proof.
  intros Hl. destruct (Nat.le_ge_cases (length l) n) as [Hle|Hge].
  - unfold window, lastn. rewrite skipn_app, repeat_length.
    replace (length l - n)%nat with 0%nat by lia. cbn [skipn].
    rewrite populated_app, populated_zeros, populated_positive;
      [reflexivity | exact Hl |].
    apply Forall_forall. intros x Hx. apply skipn_In in Hx.
    apply repeat_spec in Hx. exact Hx.
  - rewrite window_long by exact Hge. apply populated_positive.
    apply Forall_forall. intros x Hx. unfold lastn in Hx.
    apply skipn_In in Hx. rewrite Forall_forall in Hl. apply Hl. exact Hx.
Qed.

(** The populated slots of a ring are those of its window, in another
    order: same sum, same number. *)
Lemma ringHolds_populated (w buf : list Z) (idx : Z) :
  ringHolds w buf idx ->
  total (populated buf) = total (populated w)
  /\ length (populated buf) = length (populated w).
Proof.
  intros (_ & ->).
  set (k := (length w - Z.to_nat idx)%nat).
  assert (Hw : populated w = populated (firstn k w) ++ populated (skipn k w))
    by (rewrite <- populated_app, firstn_skipn; reflexivity).
  rewrite populated_app, Hw, !total_app, !length_app. lia.
Qed.

Lemma mean_constant (v : Z) (l : list Z) :
  l <> [] -> Forall (fun x => x = v) l -> mean l = v.
Proof.
  intros Hne Hl. unfold mean.
  assert (Ht : total l = v * Z.of_nat (length l)).
  { clear Hne. induction Hl as [|x t Hx Ht IH]; [cbn; lia|].
    unfold total in *. cbn [fold_right length]. rewrite IH. lia. }
  rewrite Ht. apply Z.quot_mul.
  destruct l; [congruence | cbn [length]; lia].
Qed.

Lemma lastn_nonempty (n : nat) (l : list Z) :
  (0 < n)%nat -> l <> [] -> lastn n l <> [].
Proof.
  intros Hn Hl Hnil.
  assert (H : length (lastn n l) = 0%nat) by (rewrite Hnil; reflexivity).
  unfold lastn in H. rewrite length_skipn in H.
  destruct l; [congruence | cbn [length] in H; lia].
Qed.

Section AveragerRuns.
Context {T : Target}.

Lemma admitAll_snoc (rrs : list Z) (rr : Z) (s : ECG.ECGProcessor) :
  admitAll (rrs ++ [rr]) s = value (ECG.admitInterval rr (admitAll rrs s)).
Proof. unfold admitAll. rewrite fold_left_app. reflexivity. Qed.

Lemma admitAll_ring (cands : list Z) :
  let s := admitAll cands ECG.init in
  let rrs := filter ECG.rrValid cands in
  rrRing s
  /\ ringHolds (window 10 rrs) (ECG.rrIntervals s) (ECG.rrIndex s)
  /\ (rrs <> [] ->
      ECG.currentHeartRate s
      = Z.quot 60000 (mean (populated (ECG.rrIntervals s)))).
Proof.
  cbv zeta. induction cands as [|rr l IH] using rev_ind.
  - split; [|split].
    + unfold rrRing. split; [reflexivity|].
      split; [cbn; repeat constructor; left; reflexivity | cbn; lia].
    + apply (ringHolds_reset 10). lia.
    + intros H. exfalso. apply H. reflexivity.
  - destruct IH as (Hring & Hholds & Hrate).
    rewrite admitAll_snoc, filter_app. cbn [filter].
    destruct (ecg_admit rr (admitAll l ECG.init) Hring)
      as (Hring' & _ & _ & Hin & Hout).
    split; [exact Hring'|].
    destruct (ECG.rrValid rr) eqn:Hv.
    + assert (H : 300 < rr < 2000) by (apply rrValid_spec; exact Hv).
      destruct (Hin H) as (Hst & Hix & Hr).
      split; [|intros _; exact Hr].
      rewrite Hst, Hix.
      rewrite <- (int16_id (ECG.rrIndex (admitAll l ECG.init) + 1))
        by (destruct Hring as (_ & _ & ?); lia).
      rewrite window_snoc by lia.
      apply ringHolds_push;
        [rewrite window_length; reflexivity | lia | exact Hholds].
    + assert (H : ~ 300 < rr < 2000).
      { intros H. apply rrValid_spec in H. congruence. }
      rewrite (Hout H), app_nil_r. split; assumption.
Qed.

(** X7.  The heart rate over a sequence of peak exits.  When the
    candidates of a sequence of peak exits are handed to lines 115-131
    from reset, the ring holds the last ten candidates that passed the
    test of line 115 (the others are skipped), and the heart rate is 60000
    divided by the mean of those: of all admitted intervals while there
    are fewer than ten, of the last ten afterwards.  In particular, when
    they are all equal to [v] the rate is 60000 / v. *)
Theorem ecg_rate_last_ten (cands : list Z) :
  let s := admitAll cands ECG.init in
  let rrs := filter ECG.rrValid cands in
  rrs <> [] ->
  ringHolds (window 10 rrs) (ECG.rrIntervals s) (ECG.rrIndex s)
  /\ ECG.currentHeartRate s = Z.quot 60000 (mean (lastn 10 rrs))
  /\ (forall v : Z,
        Forall (fun rr => rr = v) (lastn 10 rrs) ->
        ECG.currentHeartRate s = Z.quot 60000 v).
Proof.
  cbv zeta. intros Hne.
  destruct (admitAll_ring cands) as (_ & Hholds & Hrate).
  assert (Hpos : Forall (fun v => 0 < v) (filter ECG.rrValid cands)).
  { apply Forall_forall. intros x Hx. apply filter_In in Hx.
    destruct Hx as [_ Hx]. apply rrValid_spec in Hx. lia. }
  assert (Hmean : mean (populated (ECG.rrIntervals (admitAll cands ECG.init)))
                  = mean (lastn 10 (filter ECG.rrValid cands))).
  { destruct (ringHolds_populated _ _ _ Hholds) as [Ht Hl].
    unfold mean. rewrite Ht, Hl, populated_window by exact Hpos.
    reflexivity. }
  split; [exact Hholds|].
  rewrite (Hrate Hne), Hmean. split; [reflexivity|].
  intros v Hv. rewrite (mean_constant v); [reflexivity | | exact Hv].
  apply lastn_nonempty; [lia | exact Hne].
Qed.

End AveragerRuns.

Lemma ecg_rate_last_ten_witness :
  filter ECG.rrValid [800; 100; 800; 2000; 800] <> []
  /\ ECG.currentHeartRate
       (@admitAll sampleTarget [800; 100; 800; 2000; 800] ECG.init) = 75.
Proof.
  assert (H : filter ECG.rrValid [800; 100; 800; 2000; 800] <> [])
    by (cbn; discriminate).
  split; [exact H|].
  destruct (@ecg_rate_last_ten sampleTarget [800; 100; 800; 2000; 800] H)
    as (_ & _ & Hc).
  apply (Hc 800). cbn. repeat constructor.
Defined.

(** ** Narrowing of the elapsed time *)

Lemma int16_period (x k : Z) : int16 (x + 65536 * k) = int16 x.
Proof.
  unfold int16. f_equal.
  replace (x + 65536 * k + 32768) with (x + 32768 + k * 65536) by lia.
  apply Z.mod_add. lia.
Qed.

Lemma int16_uint32 (x : Z) : int16 (uint32 x) = int16 x.
Proof.
  unfold uint32.
  rewrite (Z.div_mod x 4294967296) at 2 by lia.
  replace (4294967296 * (x / 4294967296) + x mod 4294967296)
    with (x mod 4294967296 + 65536 * (65536 * (x / 4294967296))) by lia.
  rewrite int16_period. reflexivity.
Qed.

(** X8.  The candidate interval is the elapsed time modulo 65536.  Lines
    112 and 206 keep the low sixteen bits of the elapsed milliseconds, so
    a peak exit (a breath) that comes 65536 ms later forms the same
    candidate and has the same effect on the interval ring and the rate:
    the extractors cannot tell a gap from the same gap plus any multiple of
    65.536 s. *)
Theorem candidate_period `{Target} (now k : Z)
  (e : ECG.ECGProcessor) (r : Resp.RespiratoryProcessor) :
  ECG.candidate (now + 65536 * k) e = ECG.candidate now e
  /\ Resp.candidate (now + 65536 * k) r = Resp.candidate now r
  /\ ECG.rrIntervals (value (ECG.peakComplete (now + 65536 * k) e))
     = ECG.rrIntervals (value (ECG.peakComplete now e))
  /\ ECG.currentHeartRate (value (ECG.peakComplete (now + 65536 * k) e))
     = ECG.currentHeartRate (value (ECG.peakComplete now e))
  /\ Resp.breathIntervals (value (Resp.breathComplete (now + 65536 * k) r))
     = Resp.breathIntervals (value (Resp.breathComplete now r))
  /\ Resp.currentBreathRate (value (Resp.breathComplete (now + 65536 * k) r))
     = Resp.currentBreathRate (value (Resp.breathComplete now r)).
Proof.
  assert (He : ECG.candidate (now + 65536 * k) e = ECG.candidate now e).
  { unfold ECG.candidate. rewrite !int16_uint32.
    replace (now + 65536 * k - ECG.lastPeakTime e)
      with (now - ECG.lastPeakTime e + 65536 * k) by lia.
    apply int16_period. }
  assert (Hr : Resp.candidate (now + 65536 * k) r = Resp.candidate now r).
  { unfold Resp.candidate. rewrite !int16_uint32.
    replace (now + 65536 * k - Resp.lastBreathTime r)
      with (now - Resp.lastBreathTime r + 65536 * k) by lia.
    apply int16_period. }
  split; [exact He|]. split; [exact Hr|].
  unfold ECG.peakComplete, Resp.breathComplete.
  rewrite !value_bind. change (value (ret ?x)) with x.
  change (ECG.candidate ?n (ECG.withPeak false (ECG.peakValue e) e))
    with (ECG.candidate n e).
  rewrite He, Hr. ecg_fields. resp_fields. repeat split.
Qed.

(** ** The respiratory thresholds and the breath rate *)

Lemma half_table (r : Z) :
  In r (indices 1024) ->
  fracOk (r / 2) (F32.mul (F32.of_Z r) F32.c05) = true.
Proof. revert r. apply forallb_forall. vm_compute. reflexivity. Qed.

Lemma ceil_half_table (r : Z) :
  In r (indices 1024) ->
  ceilOk ((r + 1) / 2) ((r + 1) / 2) (F32.mul (F32.of_Z r) F32.c05) = true.
Proof. revert r. apply forallb_forall. vm_compute. reflexivity. Qed.

(** [b + sd * 0.5] and [b - sd * 0.5], truncated. *)
Lemma add_half (b sd : Z) :
  0 <= b <= 1023 -> 0 <= sd <= 1023 ->
  F32.trunc (F32.add (F32.of_Z b) (F32.mul (F32.of_Z sd) F32.c05))
  = Some (b + sd / 2).
Proof.
  intros Hb Hsd. apply add_trunc; [exact Hb | apply of_Z_int, Hb |].
  apply half_table, indices_In, Hsd.
Qed.

Lemma sub_half (b sd : Z) :
  0 <= b <= 1023 -> 0 <= sd <= 1023 -> (sd + 1) / 2 <= b ->
  F32.trunc (F32.sub (F32.of_Z b) (F32.mul (F32.of_Z sd) F32.c05))
  = Some (b - (sd + 1) / 2).
Proof.
  intros Hb Hsd Hle. apply sub_trunc; [exact Hb | apply of_Z_int, Hb |].
  apply (ceilOk_mono ((sd + 1) / 2) b); [exact Hle|].
  apply ceil_half_table, indices_In, Hsd.
Qed.

Lemma resp_windowSum_exact (buf : list Z) :
  length buf = 60%nat -> Forall adc buf ->
  Resp.windowSum buf = total buf /\ 0 <= total buf <= 61380.
Proof.
  intros Hlen Hbuf. unfold Resp.windowSum. rewrite <- Hlen.
  rewrite (fold_indices (fun sum v => int32 (sum + v)) buf 0).
  destruct (long_sum_exact buf 0 Hbuf ltac:(lia) ltac:(rewrite Hlen; lia))
    as [E B].
  rewrite E, Hlen in *. lia.
Qed.

Lemma resp_windowVariance_fold (buf : list Z) (b : Z) :
  length buf = 60%nat ->
  Resp.windowVariance buf b
  = fold_left (fun variance v =>
                 int32 (variance + int16 (int16 (v - b) * int16 (v - b))))
              buf 0.
Proof.
  intros Hlen. unfold Resp.windowVariance. rewrite <- Hlen.
  apply (fold_indices
           (fun variance v =>
              int32 (variance + int16 (int16 (v - b) * int16 (v - b))))
           buf 0).
Qed.

Lemma int32_id (x : Z) : -2147483648 <= x <= 2147483647 -> int32 x = x.
Proof.
  intros Hx. unfold int32. rewrite Z.mod_small by lia. lia.
Qed.

(** The [int] product [diff * diff] is exact for differences of at most
    181 and wraps to [diff * diff - 65536] for differences from 182 to
    255. *)
Lemma square_int (d : Z) :
  (-181 <= d <= 181 -> int16 (d * d) = d * d)
  /\ (182 <= Z.abs d <= 255 -> int16 (d * d) = d * d - 65536).
Proof.
  split; intros Hd.
  - apply int16_id. nia.
  - unfold int16.
    replace (d * d + 32768) with (d * d - 32768 + 1 * 65536) by lia.
    rewrite Z.mod_add by lia. rewrite Z.mod_small by nia. lia.
Qed.

Lemma variance_sum (f : Z -> Z) (lo hi b : Z) (buf : list Z) (acc : Z) :
  (forall v, In v buf ->
     int16 (int16 (v - b) * int16 (v - b)) = f v /\ lo <= f v <= hi) ->
  lo <= 0 <= hi ->
  -2147483648 <= acc + lo * Z.of_nat (length buf) ->
  acc + hi * Z.of_nat (length buf) <= 2147483647 ->
  fold_left (fun variance v =>
               int32 (variance + int16 (int16 (v - b) * int16 (v - b))))
            buf acc
  = acc + total (map f buf)
  /\ lo * Z.of_nat (length buf) <= total (map f buf)
     <= hi * Z.of_nat (length buf).
Proof.
  revert acc. induction buf as [|v t IH]; intros acc Hf Hz Hlo Hhi.
  - cbn. lia.
  - cbn [length] in Hlo, Hhi. rewrite Nat2Z.inj_succ in Hlo, Hhi.
    destruct (Hf v (or_introl eq_refl)) as [Ev Bv].
    cbn [fold_left map length]. rewrite Nat2Z.inj_succ.
    unfold total. cbn [fold_right]. fold (total (map f t)).
    rewrite Ev, int32_id by nia.
    destruct (IH (acc + f v)) as [E B];
      [intros x Hx; apply Hf; right; exact Hx | lia | nia | nia |].
    rewrite E. nia.
Qed.

Lemma total_repeat (c : Z) (n : nat) : total (repeat c n) = Z.of_nat n * c.
Proof.
  induction n as [|n IH]; [reflexivity|].
  cbn [repeat]. unfold total in *. cbn [fold_right].
  rewrite IH. lia.
Qed.

Section RespiratoryThresholds.
Context {T : Target}.

(** The threshold update on a window of converter readings, given the
    [int] the square root was converted to. *)
Lemma resp_updateBaseline_exact (s : Resp.RespiratoryProcessor) :
  Resp.bufferIndex s = 0 ->
  length (Resp.respBuffer s) = 60%nat ->
  Forall adc (Resp.respBuffer s) ->
  let b := Z.quot (total (Resp.respBuffer s)) 60 in
  let sdm := F32.to_int
               (F32.sqrt
                  (F32.of_Z
                     (Z.quot (Resp.windowVariance (Resp.respBuffer s) b) 60))) in
  0 <= b <= 1023
  /\ (0 <= value sdm <= 1023 -> (value sdm + 1) / 2 <= b ->
      value (Resp.updateBaseline s)
      = Resp.withThresholds b (b + value sdm / 2)
                            (b - (value sdm + 1) / 2) s
      /\ faults (Resp.updateBaseline s) = faults sdm).
Proof.
  intros Hidx Hlen Hbuf. cbv zeta.
  destruct (resp_windowSum_exact _ Hlen Hbuf) as [Esum Bsum].
  assert (Hb : 0 <= Z.quot (total (Resp.respBuffer s)) 60 <= 1023)
    by (Z.to_euclidean_division_equations; lia).
  split; [exact Hb|].
  unfold Resp.updateBaseline. rewrite Hidx. cbn [Z.eqb].
  unfold Resp.BUFFER_SIZE. rewrite Esum.
  rewrite (int16_id (Z.quot (total (Resp.respBuffer s)) 60)) by lia.
  set (b := Z.quot (total (Resp.respBuffer s)) 60) in *.
  set (sdm := F32.to_int
                (F32.sqrt
                   (F32.of_Z
                      (Z.quot (Resp.windowVariance (Resp.respBuffer s) b) 60)))).
  intros Hsd Hle.
  rewrite value_bind, faults_bind.
  assert (Hdiv : 0 <= value sdm / 2 <= 511 /\ 0 <= (value sdm + 1) / 2 <= 512)
    by (Z.to_euclidean_division_equations; lia).
  rewrite (to_int_exact _ _ (add_half b (value sdm) Hb Hsd)) by lia.
  rewrite bind_ret_l.
  rewrite (to_int_exact _ _ (sub_half b (value sdm) Hb Hsd Hle)) by lia.
  rewrite bind_ret_l.
  change (value (ret ?x)) with x. change (faults (ret ?x)) with (@nil fault).
  rewrite app_nil_r. split; reflexivity.
Qed.

(** X10.  The threshold update.  When the write cursor wraps on a window
    of converter readings, the baseline becomes the mean of the sixty
    readings (truncated), and, with [sd] the [int] the square root of the
    variance was converted to, the thresholds become
    [baseline + sd / 2] rounded down and [baseline - sd / 2] rounded down
    as well: for an odd [sd] the exhale threshold lies one count further
    from the baseline than the inhale threshold.  The two threshold
    expressions themselves are defined (no conversion out of range). *)
Theorem resp_threshold_update (s : Resp.RespiratoryProcessor) :
  Resp.bufferIndex s = 0 ->
  length (Resp.respBuffer s) = 60%nat ->
  Forall adc (Resp.respBuffer s) ->
  let b := mean (Resp.respBuffer s) in
  let sdm := F32.to_int
               (F32.sqrt
                  (F32.of_Z
                     (Z.quot (Resp.windowVariance (Resp.respBuffer s) b) 60))) in
  let sd := value sdm in
  let s' := value (Resp.updateBaseline s) in
  0 <= sd <= 1023 -> (sd + 1) / 2 <= b ->
  Resp.baseline s' = b
  /\ Resp.inhaleThreshold s' = b + sd / 2
  /\ Resp.exhaleThreshold s' = b - (sd + 1) / 2
  /\ Resp.inhaleThreshold s' - b <= b - Resp.exhaleThreshold s'
     <= Resp.inhaleThreshold s' - b + 1
  /\ faults (Resp.updateBaseline s) = faults sdm.
Proof.
  intros Hidx Hlen Hbuf. cbv zeta. unfold mean. rewrite Hlen.
  change (Z.of_nat 60) with 60.
  destruct (resp_updateBaseline_exact s Hidx Hlen Hbuf) as [Hb Hup].
  cbv zeta in Hup. intros Hsd Hle.
  destruct (Hup Hsd Hle) as [-> ->]. resp_fields.
  repeat split; Z.to_euclidean_division_equations; lia.
Qed.

(** X11.  A flat signal collapses the band.  When the write cursor wraps
    on a window of sixty equal readings [c], the variance is 0 and the
    baseline and both thresholds become [c]: from then on a sample one
    count above [c] is INHALE and a sample one count below is EXHALE, and
    only [c] itself is HOLD. *)
Theorem resp_flat_signal (c : Z) (s : Resp.RespiratoryProcessor) :
  adc c ->
  Resp.bufferIndex s = 0 ->
  Resp.respBuffer s = repeat c 60 ->
  let m := Resp.updateBaseline s in
  faults m = []
  /\ Resp.baseline (value m) = c
  /\ Resp.inhaleThreshold (value m) = c
  /\ Resp.exhaleThreshold (value m) = c
  /\ (forall rawValue : Z,
        Resp.phaseOf rawValue (value m)
        = if rawValue >? c then Resp.INHALE
          else if rawValue <? c then Resp.EXHALE
          else Resp.HOLD).
Proof.
  intros Hc Hidx Hbuf. cbv zeta.
  assert (Hlen : length (Resp.respBuffer s) = 60%nat)
    by (rewrite Hbuf; apply repeat_length).
  assert (Hadc : Forall adc (Resp.respBuffer s)).
  { rewrite Hbuf. apply Forall_forall. intros x Hx.
    apply repeat_spec in Hx. subst x. exact Hc. }
  assert (Ht : total (Resp.respBuffer s) = 60 * c).
  { rewrite Hbuf, total_repeat. reflexivity. }
  assert (Hq : Z.quot (total (Resp.respBuffer s)) 60 = c).
  { rewrite Ht, Z.mul_comm. apply Z.quot_mul. lia. }
  assert (Hvar : Resp.windowVariance (Resp.respBuffer s) c = 0).
  { rewrite (resp_windowVariance_fold _ _ Hlen).
    assert (Hf : forall v, In v (Resp.respBuffer s) ->
              int16 (int16 (v - c) * int16 (v - c)) = 0 /\ 0 <= 0 <= 0).
    { intros v Hv. rewrite Hbuf in Hv. apply repeat_spec in Hv. subst v.
      rewrite Z.sub_diag. split; [reflexivity|lia]. }
    destruct (variance_sum (fun _ => 0) 0 0 c (Resp.respBuffer s) 0 Hf)
      as [E B]; [lia | lia | lia |].
    rewrite E. lia. }
  destruct (resp_updateBaseline_exact s Hidx Hlen Hadc) as [_ Hup].
  cbv zeta in Hup. rewrite Hq, Hvar in Hup.
  change (F32.to_int (F32.sqrt (F32.of_Z (Z.quot 0 60)))) with (ret 0) in Hup.
  change (value (ret 0)) with 0 in Hup.
  change (faults (ret 0)) with (@nil fault) in Hup.
  unfold adc in Hc.
  destruct Hup as [-> ->]; [lia | change ((0 + 1) / 2) with 0; lia |].
  change (0 / 2) with 0. change ((0 + 1) / 2) with 0.
  rewrite Z.add_0_r, Z.sub_0_r. unfold Resp.phaseOf. resp_fields.
  repeat split.
Qed.

Lemma resp_admit_fast (bi : Z) (s : Resp.RespiratoryProcessor) :
  length (Resp.breathIntervals s) = 10%nat ->
  Forall fastSlot (Resp.breathIntervals s) ->
  0 <= Resp.breathIndex s < 10 ->
  1500 < bi < 3277 ->
  let m := Resp.admitInterval bi s in
  let iv := store (Resp.breathIntervals s) (Resp.breathIndex s) bi in
  m = ret (Resp.withIntervals iv (Z.rem (Resp.breathIndex s + 1) 10)
             (Z.quot 60000 (mean (populated iv))) s)
  /\ 1500 < mean (populated iv) < 3277
  /\ Forall fastSlot iv /\ length iv = 10%nat.
Proof.
  intros Hlen Hslots Hidx Hbi. cbv zeta.
  set (iv := store (Resp.breathIntervals s) (Resp.breathIndex s) bi).
  assert (Hiv : length iv = 10%nat)
    by (unfold iv; rewrite store_length; exact Hlen).
  assert (Hfa : Forall fastSlot iv).
  { unfold iv. apply store_Forall; [exact Hslots | right; exact Hbi]. }
  assert (Hpop : populated iv <> []).
  { intros Hnil.
    assert (Hin : In bi (populated iv)).
    { unfold iv. apply populated_store; lia. }
    rewrite Hnil in Hin. exact Hin. }
  destruct (averageRate_mean 1500 3277 iv (Resp.currentBreathRate s))
    as [Hrate Hmean]; auto; try lia.
  split; [|split; [exact Hmean | split; assumption]].
  unfold Resp.admitInterval, Resp.breathValid.
  destruct (Z.gtb_spec bi 1500); [|lia].
  destruct (Z.ltb_spec bi 10000); [|lia].
  cbn [andb]. fold iv. rewrite Hrate, bind_ret_l.
  rewrite (int16_id (Resp.breathIndex s + 1)) by lia.
  reflexivity.
Qed.

(** X9.  The breath rate of fast breathing.  While every stored breath
    interval is below 3277 ms (breathing faster than about 18 breaths per
    minute), admitting another such interval involves no overflow and no
    division by zero: the breath rate becomes 60000 divided by the mean of
    the populated slots (both divisions truncating) and lies between 18
    and 39 breaths per minute, and the ring keeps the property. *)
Theorem resp_rate_fast_breathing (bi : Z) (s : Resp.RespiratoryProcessor) :
  length (Resp.breathIntervals s) = 10%nat ->
  Forall fastSlot (Resp.breathIntervals s) ->
  0 <= Resp.breathIndex s < 10 ->
  1500 < bi < 3277 ->
  let m := Resp.admitInterval bi s in
  let s' := value m in
  faults m = []
  /\ Resp.breathIntervals s'
     = store (Resp.breathIntervals s) (Resp.breathIndex s) bi
  /\ Resp.getBreathRate s'
     = Z.quot 60000 (mean (populated (Resp.breathIntervals s')))
  /\ 18 <= Resp.getBreathRate s' <= 39
  /\ length (Resp.breathIntervals s') = 10%nat
  /\ Forall fastSlot (Resp.breathIntervals s')
  /\ 0 <= Resp.breathIndex s' < 10.
Proof.
  intros Hlen Hslots Hidx Hbi. cbv zeta.
  destruct (resp_admit_fast bi s Hlen Hslots Hidx Hbi)
    as (-> & Hmean & Hfa & Hiv).
  change (value (ret ?x)) with x. change (faults (ret ?x)) with (@nil fault).
  unfold Resp.getBreathRate. resp_fields.
  split; [reflexivity|]. split; [reflexivity|]. split; [reflexivity|].
  split; [|split; [exact Hiv | split; [exact Hfa|]]].
  - revert Hmean.
    generalize (mean (populated
                 (store (Resp.breathIntervals s) (Resp.breathIndex s) bi))).
    intros mn Hm. Z.to_euclidean_division_equations. nia.
  - pose proof (Z.rem_bound_pos (Resp.breathIndex s + 1) 10). lia.
Qed.

End RespiratoryThresholds.

Lemma resp_threshold_update_witness :
  let s := @runResp sampleTarget
             (repeat (500, 0) 30 ++ repeat (520, 0) 29) Resp.init in
  let s1 := Resp.pushSample 520 s in
  Resp.bufferIndex s1 = 0
  /\ length (Resp.respBuffer s1) = 60%nat
  /\ Forall adc (Resp.respBuffer s1)
  /\ Resp.baseline (value (@Resp.updateBaseline sampleTarget s1)) = 510
  /\ Resp.inhaleThreshold (value (@Resp.updateBaseline sampleTarget s1)) = 515
  /\ Resp.exhaleThreshold (value (@Resp.updateBaseline sampleTarget s1)) = 505.
Proof.
  cbv zeta.
  set (s1 := Resp.pushSample 520
               (@runResp sampleTarget
                  (repeat (500, 0) 30 ++ repeat (520, 0) 29) Resp.init)).
  assert (H1 : Resp.bufferIndex s1 = 0) by (vm_compute; reflexivity).
  assert (H2 : length (Resp.respBuffer s1) = 60%nat)
    by (vm_compute; reflexivity).
  assert (H3 : Forall adc (Resp.respBuffer s1)).
  { apply Forall_forall. intros x Hx. vm_compute in Hx. unfold adc.
    repeat (destruct Hx as [Hx|Hx]; [lia|]). contradiction. }
  split; [exact H1|]. split; [exact H2|]. split; [exact H3|].
  pose proof (@resp_threshold_update sampleTarget s1 H1 H2 H3) as H.
  cbv zeta in H.
  assert (Hm : mean (Resp.respBuffer s1) = 510) by (vm_compute; reflexivity).
  assert (Hsd : value (@F32.to_int sampleTarget
                   (F32.sqrt
                      (F32.of_Z
                         (Z.quot
                            (Resp.windowVariance (Resp.respBuffer s1)
                               (mean (Resp.respBuffer s1))) 60)))) = 10)
    by (vm_compute; reflexivity).
  rewrite Hsd, Hm in H.
  destruct H as (Hb & Hi & He & _); [lia | vm_compute; discriminate |].
  split; [exact Hb|]. split; [exact Hi | exact He].
Defined.

Lemma resp_flat_signal_witness :
  let s := Resp.pushSample 512
             (@runResp sampleTarget (repeat (512, 0) 59) Resp.init) in
  adc 512 /\ Resp.bufferIndex s = 0 /\ Resp.respBuffer s = repeat 512 60
  /\ Resp.phaseOf 513 (value (@Resp.updateBaseline sampleTarget s))
     = Resp.INHALE.
Proof.
  cbv zeta.
  set (s := Resp.pushSample 512
              (@runResp sampleTarget (repeat (512, 0) 59) Resp.init)).
  assert (H1 : adc 512) by (unfold adc; lia).
  assert (H2 : Resp.bufferIndex s = 0) by (vm_compute; reflexivity).
  assert (H3 : Resp.respBuffer s = repeat 512 60) by (vm_compute; reflexivity).
  split; [exact H1|]. split; [exact H2|]. split; [exact H3|].
  destruct (@resp_flat_signal sampleTarget 512 s H1 H2 H3)
    as (_ & _ & _ & _ & Hph).
  rewrite Hph. reflexivity.
Defined.

Lemma resp_rate_fast_breathing_witness :
  length (Resp.breathIntervals Resp.init) = 10%nat
  /\ Forall fastSlot (Resp.breathIntervals Resp.init)
  /\ 0 <= Resp.breathIndex Resp.init < 10
  /\ 1500 < 3000 < 3277
  /\ Resp.getBreathRate
       (value (@Resp.admitInterval sampleTarget 3000 Resp.init)) = 20.
Proof.
  assert (H1 : length (Resp.breathIntervals Resp.init) = 10%nat)
    by reflexivity.
  assert (H2 : Forall fastSlot (Resp.breathIntervals Resp.init))
    by (cbn; repeat constructor; left; reflexivity).
  assert (H3 : 0 <= Resp.breathIndex Resp.init < 10) by (cbn; lia).
  assert (H4 : 1500 < 3000 < 3277) by lia.
  split; [exact H1|]. split; [exact H2|]. split; [exact H3|].
  split; [exact H4|].
  destruct (@resp_rate_fast_breathing sampleTarget 3000 Resp.init
              H1 H2 H3 H4) as (_ & _ & Hr & _).
  rewrite Hr. vm_compute. reflexivity.
Defined.

(** ** The variance of a wide swing *)

Lemma round_aux_exact_signed (sx : bool) (m : positive) (e : Z) :
  Zpos (digits2_pos m) = 24 -> -149 <= e <= 104 ->
  binary_round_aux 24 128 sx (Zpos m) e loc_Exact = S754_finite sx m e.
Proof.
  intros Hm He.
  unfold binary_round_aux, shr_fexp, Zdigits2, fexp, emin.
  rewrite Hm, Z.max_l by lia.
  replace (24 + e - 24 - e) with 0 by lia.
  cbn [shr shr_record_of_loc shr_m loc_of_shr_record round_nearest_even
       Zdigits2].
  rewrite Hm, Z.max_l by lia.
  replace (24 + e - 24 - e) with 0 by lia.
  cbn [shr shr_record_of_loc shr_m].
  destruct (Z.leb_spec e (128 - 24)); [reflexivity|lia].
Qed.

(** A negative integer of fewer than 25 bits converts to a negative
    binary32 number, whose square root is not a number. *)
Lemma of_Z_negative (p : positive) :
  Zpos p < 2 ^ 24 ->
  exists (m : positive) (e : Z), F32.of_Z (Zneg p) = S754_finite true m e.
Proof.
  intros Hp.
  unfold F32.of_Z, F32.prec, F32.emax, binary_normalize, binary_round,
    fexp, emin.
  pose proof (digits2_pos_bounds p) as Hd.
  assert (HD : 1 <= Zpos (digits2_pos p) <= 24).
  { split; [lia|].
    destruct (Z.le_gt_cases (Zpos (digits2_pos p)) 24) as [H|H]; [exact H|].
    assert (2 ^ 24 <= 2 ^ (Zpos (digits2_pos p) - 1))
      by (apply Z.pow_le_mono_r; lia).
    lia. }
  rewrite Z.add_0_r, Z.max_l by lia.
  set (D := Zpos (digits2_pos p)) in *.
  pose proof (shl_align_value p 0 (D - 24) ltac:(lia)) as Hv.
  assert (Hs : snd (shl_align p 0 (D - 24)) = D - 24).
  { unfold shl_align.
    destruct (D - 24 - 0) as [|d|d] eqn:Hd'; cbn [snd]; lia. }
  destruct (shl_align p 0 (D - 24)) as [mz ez]. cbn [fst snd] in Hv, Hs.
  subst ez. exists mz, (D - 24).
  apply round_aux_exact_signed; [|lia].
  apply digits2_pos_unique. rewrite Hv.
  replace (0 - (D - 24)) with (24 - D) by lia.
  assert (E1 : 2 ^ (24 - 1) = 2 ^ (D - 1) * 2 ^ (24 - D)).
  { rewrite <- Z.pow_add_r by lia. f_equal. lia. }
  assert (E2 : 2 ^ 24 = 2 ^ D * 2 ^ (24 - D)).
  { rewrite <- Z.pow_add_r by lia. f_equal. lia. }
  rewrite E1, E2.
  assert (0 < 2 ^ (24 - D)) by (apply Z.pow_pos_nonneg; lia).
  split; [apply Z.mul_le_mono_nonneg_r; lia
         | apply Z.mul_lt_mono_pos_r; lia].
Qed.

Lemma sqrt_negative `{Target} (z : Z) :
  -16777216 < z < 0 ->
  faults (F32.to_int (F32.sqrt (F32.of_Z z))) = [FloatToInt].
Proof.
  intros Hz. destruct z as [|p|p]; try lia.
  destruct (of_Z_negative p) as (m & e & ->); [lia|].
  reflexivity.
Qed.

Lemma total_map_bounds (f : Z -> Z) (lo hi : Z) (l : list Z) :
  (forall v, In v l -> lo <= f v <= hi) ->
  lo * Z.of_nat (length l) <= total (map f l) <= hi * Z.of_nat (length l).
Proof.
  induction l as [|v t IH]; intros Hf; [cbn; lia|].
  cbn [map length]. rewrite Nat2Z.inj_succ.
  unfold total. cbn [fold_right]. fold (total (map f t)).
  pose proof (Hf v (or_introl eq_refl)).
  assert (lo * Z.of_nat (length t) <= total (map f t)
          <= hi * Z.of_nat (length t))
    by (apply IH; intros x Hx; apply Hf; right; exact Hx).
  lia.
Qed.

Lemma square_bounds (d : Z) :
  (-181 <= d <= 181 -> 0 <= d * d <= 32761)
  /\ (182 <= Z.abs d <= 255 -> 33124 <= d * d <= 65025).
Proof.
  split; intros Hd.
  - assert (0 <= (181 - d) * (181 + d)) by (apply Z.mul_nonneg_nonneg; lia).
    nia.
  - rewrite <- Z.abs_square.
    assert (0 <= (Z.abs d - 182) * (Z.abs d + 182))
      by (apply Z.mul_nonneg_nonneg; lia).
    assert (0 <= (255 - Z.abs d) * (255 + Z.abs d))
      by (apply Z.mul_nonneg_nonneg; lia).
    nia.
Qed.

Section RespiratoryVariance.
Context {T : Target}.

(** X19.  The variance of a window.  When the write cursor wraps on a
    window of converter readings whose samples all lie within 181 counts
    of the mean, the [int] squares do not wrap and the variance is the
    exact sum of the squared differences.  When instead every sample lies
    between 182 and 255 counts from the mean, every [int] square wraps to
    a negative number, the variance is negative, its square root is not a
    number and the conversion to the [int] standard deviation is
    undefined. *)
Theorem resp_variance_swing (s : Resp.RespiratoryProcessor) :
  Resp.bufferIndex s = 0 ->
  length (Resp.respBuffer s) = 60%nat ->
  Forall adc (Resp.respBuffer s) ->
  let b := mean (Resp.respBuffer s) in
  let variance := Resp.windowVariance (Resp.respBuffer s) b in
  (Forall (fun v => -181 <= v - b <= 181) (Resp.respBuffer s) ->
   variance = total (map (fun v => (v - b) * (v - b)) (Resp.respBuffer s))
   /\ 0 <= Z.quot variance 60 <= 32761)
  /\ (Forall (fun v => 182 <= Z.abs (v - b) <= 255) (Resp.respBuffer s) ->
      variance
      = total (map (fun v => (v - b) * (v - b) - 65536) (Resp.respBuffer s))
      /\ -32412 <= Z.quot variance 60 <= -511
      /\ In FloatToInt (faults (Resp.updateBaseline s))).
Proof.
  intros Hidx Hlen Hbuf. cbv zeta.
  assert (Hb : mean (Resp.respBuffer s)
               = Z.quot (total (Resp.respBuffer s)) 60).
  { unfold mean. rewrite Hlen. reflexivity. }
  destruct (resp_windowSum_exact _ Hlen Hbuf) as [Esum Bsum].
  assert (Hb' : 0 <= mean (Resp.respBuffer s) <= 1023)
    by (rewrite Hb; Z.to_euclidean_division_equations; lia).
  split.
  - intros Hsw. rewrite (resp_windowVariance_fold _ _ Hlen).
    destruct (variance_sum
                (fun v => (v - mean (Resp.respBuffer s))
                          * (v - mean (Resp.respBuffer s)))
                0 32761 (mean (Resp.respBuffer s)) (Resp.respBuffer s) 0)
      as [E B]; [|lia|rewrite Hlen; lia|rewrite Hlen; lia|].
    + intros v Hv. rewrite Forall_forall in Hsw. specialize (Hsw v Hv).
      cbv beta in Hsw.
      rewrite (int16_id (v - mean (Resp.respBuffer s))) by lia.
      rewrite (proj1 (square_int _) Hsw). split; [reflexivity|].
      apply square_bounds. exact Hsw.
    + rewrite E, Z.add_0_l. split; [reflexivity|].
      rewrite Hlen in B. Z.to_euclidean_division_equations. lia.
  - intros Hsw.
    assert (Hf : forall v, In v (Resp.respBuffer s) ->
              int16 (int16 (v - mean (Resp.respBuffer s))
                     * int16 (v - mean (Resp.respBuffer s)))
              = (v - mean (Resp.respBuffer s))
                * (v - mean (Resp.respBuffer s)) - 65536
              /\ -32412 <= (v - mean (Resp.respBuffer s))
                           * (v - mean (Resp.respBuffer s)) - 65536 <= -511).
    { intros v Hv. rewrite Forall_forall in Hsw. specialize (Hsw v Hv).
      cbv beta in Hsw.
      rewrite (int16_id (v - mean (Resp.respBuffer s))) by lia.
      rewrite (proj2 (square_int _) Hsw). split; [reflexivity|].
      pose proof (proj2 (square_bounds _) Hsw). lia. }
    assert (Hvar : Resp.windowVariance (Resp.respBuffer s)
                     (mean (Resp.respBuffer s))
                   = total (map (fun v => (v - mean (Resp.respBuffer s))
                                          * (v - mean (Resp.respBuffer s))
                                          - 65536) (Resp.respBuffer s))).
    { rewrite (resp_windowVariance_fold _ _ Hlen).
      destruct (variance_sum
                  (fun v => (v - mean (Resp.respBuffer s))
                            * (v - mean (Resp.respBuffer s)) - 65536)
                  (-32412) 0 (mean (Resp.respBuffer s))
                  (Resp.respBuffer s) 0)
        as [E _]; [|lia|rewrite Hlen; lia|rewrite Hlen; lia|].
      - intros v Hv. destruct (Hf v Hv) as [Ev Bv]. split; [exact Ev|lia].
      - rewrite E. lia. }
    pose proof (total_map_bounds
                  (fun v => (v - mean (Resp.respBuffer s))
                            * (v - mean (Resp.respBuffer s)) - 65536)
                  (-32412) (-511) (Resp.respBuffer s)
                  (fun v Hv => proj2 (Hf v Hv))) as B.
    rewrite Hlen in B.
    assert (Hq : -32412 <= Z.quot (Resp.windowVariance (Resp.respBuffer s)
                                     (mean (Resp.respBuffer s))) 60 <= -511).
    { rewrite Hvar. Z.to_euclidean_division_equations. lia. }
    split; [exact Hvar|]. split; [exact Hq|].
    unfold Resp.updateBaseline. rewrite Hidx. cbn [Z.eqb].
    unfold Resp.BUFFER_SIZE. rewrite Esum, <- Hb.
    rewrite (int16_id (mean (Resp.respBuffer s))) by lia.
    rewrite faults_bind, sqrt_negative by lia.
    left. reflexivity.
Qed.

End RespiratoryVariance.

Lemma resp_variance_swing_witness :
  let s := Resp.pushSample 700
             (@runResp sampleTarget
                (repeat (300, 0) 30 ++ repeat (700, 0) 29) Resp.init) in
  Resp.bufferIndex s = 0
  /\ length (Resp.respBuffer s) = 60%nat
  /\ Forall adc (Resp.respBuffer s)
  /\ Forall (fun v => 182 <= Z.abs (v - mean (Resp.respBuffer s)) <= 255)
            (Resp.respBuffer s)
  /\ In FloatToInt (faults (@Resp.updateBaseline sampleTarget s)).
Proof.
  cbv zeta.
  set (s := Resp.pushSample 700
              (@runResp sampleTarget
                 (repeat (300, 0) 30 ++ repeat (700, 0) 29) Resp.init)).
  assert (H1 : Resp.bufferIndex s = 0) by (vm_compute; reflexivity).
  assert (H2 : length (Resp.respBuffer s) = 60%nat)
    by (vm_compute; reflexivity).
  assert (H3 : Forall adc (Resp.respBuffer s)).
  { apply Forall_forall. intros x Hx. vm_compute in Hx. unfold adc.
    repeat (destruct Hx as [Hx|Hx]; [lia|]). contradiction. }
  assert (Hm : mean (Resp.respBuffer s) = 500) by (vm_compute; reflexivity).
  assert (H4 : Forall (fun v => 182 <= Z.abs (v - mean (Resp.respBuffer s))
                                 <= 255) (Resp.respBuffer s)).
  { rewrite Hm. apply Forall_forall. intros x Hx. vm_compute in Hx.
    repeat (destruct Hx as [Hx|Hx]; [lia|]). contradiction. }
  split; [exact H1|]. split; [exact H2|]. split; [exact H3|].
  split; [exact H4|].
  destruct (@resp_variance_swing sampleTarget s H1 H2 H3) as [_ Hw].
  destruct (Hw H4) as (_ & _ & Hfault). exact Hfault.
Defined.

(** ** The scheduler *)

(** X12.  The period test survives the wrap of [millis()].  When the
    clock has advanced by [d] milliseconds since a task last ran, the task
    is due exactly when [d] has reached its period, also when the 32-bit
    clock has wrapped around in between (after about 49.7 days). *)
Theorem due_rollover (last d p : Z) :
  clock last -> 0 <= d < 4294967296 ->
  Sketch.due (uint32 (last + d)) last p = (d >=? p)
  /\ (last + d >= 4294967296 -> uint32 (last + d) < last).
Proof.
  intros Hl Hd. unfold clock in Hl. unfold Sketch.due, uint32. split.
  - rewrite Zminus_mod_idemp_l.
    replace (last + d - last) with d by lia.
    rewrite Z.mod_small by lia. reflexivity.
  - intros Hw.
    replace (last + d) with (last + d - 4294967296 + 1 * 4294967296) by lia.
    rewrite Z.mod_add by lia. rewrite Z.mod_small by lia. lia.
Qed.

Lemma due_rollover_witness :
  clock 4294967290 /\ 0 <= 10 < 4294967296
  /\ Sketch.due 4 4294967290 Sketch.ECG_SAMPLE_INTERVAL = true.
Proof.
  assert (Hc : clock 4294967290) by (unfold clock; lia).
  assert (Hd : 0 <= 10 < 4294967296) by lia.
  split; [exact Hc|]. split; [exact Hd|].
  destruct (due_rollover 4294967290 10 Sketch.ECG_SAMPLE_INTERVAL Hc Hd)
    as [H _].
  exact H.
Defined.

Section Scheduler.
Context {T : Target}.

(** What each task of [loop] changes among the fields the log and the
    display depend on. *)
Lemma ecgTask_effect (r : Sketch.Readings) (sys : Sketch.System) :
  let sys' := Sketch.ecgTask r sys in
  Sketch.control sys' = Sketch.control sys
  /\ Sketch.sessionStartTime sys' = Sketch.sessionStartTime sys
  /\ Sketch.ecgProc sys'
     = (if Sketch.due (Sketch.now r) (Sketch.lastECGSample sys)
                      Sketch.ECG_SAMPLE_INTERVAL
        then value (ECG.processECGSample (Sketch.loPlus r) (Sketch.loMinus r)
                      (Sketch.ecgValue r) (Sketch.ecgClock r)
                      (Sketch.ecgProc sys))
        else Sketch.ecgProc sys)
  /\ Sketch.respProc sys' = Sketch.respProc sys
  /\ Sketch.gsrProc sys' = Sketch.gsrProc sys
  /\ Sketch.displayMode sys' = Sketch.displayMode sys
  /\ Sketch.vitals sys' = Sketch.vitals sys
  /\ Sketch.serial sys' = Sketch.serial sys
  /\ Sketch.lastRespSample sys' = Sketch.lastRespSample sys
  /\ Sketch.lastGSRSample sys' = Sketch.lastGSRSample sys
  /\ Sketch.lastDataLog sys' = Sketch.lastDataLog sys.
Proof.
  cbv zeta. unfold Sketch.ecgTask.
  destruct (Sketch.due _ _ _); sketch_fields; repeat split.
Qed.

Lemma respTask_effect (r : Sketch.Readings) (sys : Sketch.System) :
  let sys' := Sketch.respTask r sys in
  Sketch.control sys' = Sketch.control sys
  /\ Sketch.sessionStartTime sys' = Sketch.sessionStartTime sys
  /\ Sketch.ecgProc sys' = Sketch.ecgProc sys
  /\ Sketch.respProc sys'
     = (if Sketch.due (Sketch.now r) (Sketch.lastRespSample sys)
                      Sketch.RESP_SAMPLE_INTERVAL
        then value (Resp.processRespSample (Sketch.respValue r)
                      (Sketch.respClock r) (Sketch.respProc sys))
        else Sketch.respProc sys)
  /\ Sketch.gsrProc sys' = Sketch.gsrProc sys
  /\ Sketch.displayMode sys' = Sketch.displayMode sys
  /\ Sketch.vitals sys' = Sketch.vitals sys
  /\ Sketch.serial sys' = Sketch.serial sys
  /\ Sketch.lastGSRSample sys' = Sketch.lastGSRSample sys
  /\ Sketch.lastDataLog sys' = Sketch.lastDataLog sys.
Proof.
  cbv zeta. unfold Sketch.respTask.
  destruct (Sketch.due _ _ _); sketch_fields; repeat split.
Qed.

Lemma gsrTask_effect (r : Sketch.Readings) (sys : Sketch.System) :
  let sys' := Sketch.gsrTask r sys in
  Sketch.control sys' = Sketch.control sys
  /\ Sketch.sessionStartTime sys' = Sketch.sessionStartTime sys
  /\ Sketch.ecgProc sys' = Sketch.ecgProc sys
  /\ Sketch.respProc sys' = Sketch.respProc sys
  /\ Sketch.gsrProc sys'
     = (if Sketch.due (Sketch.now r) (Sketch.lastGSRSample sys)
                      Sketch.GSR_SAMPLE_INTERVAL
        then GSR.processGSRSample (Sketch.gsrValue r) (Sketch.gsrClock r)
                                  (Sketch.gsrProc sys)
        else Sketch.gsrProc sys)
  /\ Sketch.displayMode sys' = Sketch.displayMode sys
  /\ Sketch.vitals sys' = Sketch.vitals sys
  /\ Sketch.serial sys' = Sketch.serial sys
  /\ Sketch.lastDataLog sys' = Sketch.lastDataLog sys.
Proof.
  cbv zeta. unfold Sketch.gsrTask.
  destruct (Sketch.due _ _ _); sketch_fields; repeat split.
Qed.

Lemma lcdTask_effect (r : Sketch.Readings) (sys : Sketch.System) :
  let sys' := Sketch.lcdTask r sys in
  Sketch.control sys' = Sketch.control sys
  /\ Sketch.sessionStartTime sys' = Sketch.sessionStartTime sys
  /\ Sketch.ecgProc sys' = Sketch.ecgProc sys
  /\ Sketch.respProc sys' = Sketch.respProc sys
  /\ Sketch.gsrProc sys' = Sketch.gsrProc sys
  /\ Sketch.displayMode sys' = Sketch.displayMode sys
  /\ Sketch.vitals sys' = Sketch.vitals sys
  /\ Sketch.serial sys' = Sketch.serial sys
  /\ Sketch.lastDataLog sys' = Sketch.lastDataLog sys.
Proof.
  cbv zeta. unfold Sketch.lcdTask.
  destruct (Sketch.due _ _ _); sketch_fields; repeat split.
Qed.

Lemma logTask_effect (r : Sketch.Readings) (sys : Sketch.System) :
  let sys' := Sketch.logTask r sys in
  Sketch.control sys' = Sketch.control sys
  /\ Sketch.sessionStartTime sys' = Sketch.sessionStartTime sys
  /\ Sketch.ecgProc sys' = Sketch.ecgProc sys
  /\ Sketch.respProc sys' = Sketch.respProc sys
  /\ Sketch.gsrProc sys' = Sketch.gsrProc sys
  /\ Sketch.displayMode sys' = Sketch.displayMode sys
  /\ Sketch.vitals sys'
     = (if Sketch.due (Sketch.now r) (Sketch.lastDataLog sys)
                      Sketch.DATA_LOG_INTERVAL
           && Sketch.sdOpen r
        then Sketch.vitals sys
             ++ [Sketch.Vitals (Sketch.logClock r)
                   (ECG.getHeartRate (Sketch.ecgProc sys))
                   (Resp.getBreathRate (Sketch.respProc sys))
                   (GSR.getSweatLevel (Sketch.gsrProc sys))
                   (ECG.getRawValue (Sketch.ecgProc sys))
                   (Resp.getRawValue (Sketch.respProc sys))
                   (GSR.getSmoothedValue (Sketch.gsrProc sys))]
        else Sketch.vitals sys)
  /\ Sketch.serial sys'
     = (if Sketch.due (Sketch.now r) (Sketch.lastDataLog sys)
                      Sketch.DATA_LOG_INTERVAL
        then Sketch.serial sys
             ++ [if Sketch.sdOpen r
                 then Sketch.Summary
                        (ECG.getHeartRate (Sketch.ecgProc sys))
                        (Resp.getBreathRate (Sketch.respProc sys))
                        (GSR.getSweatLevel (Sketch.gsrProc sys))
                 else Sketch.OpenError]
        else Sketch.serial sys).
Proof.
  cbv zeta. unfold Sketch.logTask, Sketch.logData.
  destruct (Sketch.due _ _ _); cbn [andb]; [|repeat split].
  destruct (Sketch.sdOpen r); sketch_fields; repeat split.
Qed.

Lemma buttonTask_effect (r : Sketch.Readings) (sys : Sketch.System) :
  let sys' := Sketch.buttonTask r sys in
  Sketch.control sys' = Sketch.control sys
  /\ Sketch.sessionStartTime sys' = Sketch.sessionStartTime sys
  /\ Sketch.ecgProc sys' = Sketch.ecgProc sys
  /\ Sketch.respProc sys' = Sketch.respProc sys
  /\ Sketch.gsrProc sys' = Sketch.gsrProc sys
  /\ Sketch.displayMode sys'
     = (if Sketch.buttonMode r =? Sketch.LOW
        then Z.rem (int16 (Sketch.displayMode sys + 1)) 3
        else Sketch.displayMode sys)
  /\ Sketch.vitals sys' = Sketch.vitals sys
  /\ Sketch.serial sys' = Sketch.serial sys.
Proof.
  cbv zeta. unfold Sketch.buttonTask.
  destruct (_ =? _); sketch_fields; repeat split.
Qed.

(** One pass through [loop], field by field. *)
Lemma loop_effect (r : Sketch.Readings) (sys : Sketch.System) :
  let sys' := Sketch.loop r sys in
  Sketch.control sys' = Sketch.control sys
  /\ Sketch.sessionStartTime sys' = Sketch.sessionStartTime sys
  /\ Sketch.ecgProc sys'
     = (if Sketch.due (Sketch.now r) (Sketch.lastECGSample sys)
                      Sketch.ECG_SAMPLE_INTERVAL
        then value (ECG.processECGSample (Sketch.loPlus r) (Sketch.loMinus r)
                      (Sketch.ecgValue r) (Sketch.ecgClock r)
                      (Sketch.ecgProc sys))
        else Sketch.ecgProc sys)
  /\ Sketch.respProc sys'
     = (if Sketch.due (Sketch.now r) (Sketch.lastRespSample sys)
                      Sketch.RESP_SAMPLE_INTERVAL
        then value (Resp.processRespSample (Sketch.respValue r)
                      (Sketch.respClock r) (Sketch.respProc sys))
        else Sketch.respProc sys)
  /\ Sketch.gsrProc sys'
     = (if Sketch.due (Sketch.now r) (Sketch.lastGSRSample sys)
                      Sketch.GSR_SAMPLE_INTERVAL
        then GSR.processGSRSample (Sketch.gsrValue r) (Sketch.gsrClock r)
                                  (Sketch.gsrProc sys)
        else Sketch.gsrProc sys)
  /\ Sketch.displayMode sys'
     = (if Sketch.buttonMode r =? Sketch.LOW
        then Z.rem (int16 (Sketch.displayMode sys + 1)) 3
        else Sketch.displayMode sys)
  /\ Sketch.vitals sys'
     = (if Sketch.due (Sketch.now r) (Sketch.lastDataLog sys)
                      Sketch.DATA_LOG_INTERVAL
           && Sketch.sdOpen r
        then Sketch.vitals sys
             ++ [Sketch.Vitals (Sketch.logClock r)
                   (ECG.getHeartRate (Sketch.ecgProc sys'))
                   (Resp.getBreathRate (Sketch.respProc sys'))
                   (GSR.getSweatLevel (Sketch.gsrProc sys'))
                   (ECG.getRawValue (Sketch.ecgProc sys'))
                   (Resp.getRawValue (Sketch.respProc sys'))
                   (GSR.getSmoothedValue (Sketch.gsrProc sys'))]
        else Sketch.vitals sys)
  /\ Sketch.serial sys'
     = (if Sketch.due (Sketch.now r) (Sketch.lastDataLog sys)
                      Sketch.DATA_LOG_INTERVAL
        then Sketch.serial sys
             ++ [if Sketch.sdOpen r
                 then Sketch.Summary
                        (ECG.getHeartRate (Sketch.ecgProc sys'))
                        (Resp.getBreathRate (Sketch.respProc sys'))
                        (GSR.getSweatLevel (Sketch.gsrProc sys'))
                 else Sketch.OpenError]
        else Sketch.serial sys).
Proof.
  cbv zeta. unfold Sketch.loop.
  set (s1 := Sketch.ecgTask r sys).
  set (s2 := Sketch.respTask r s1).
  set (s3 := Sketch.gsrTask r s2).
  set (s4 := Sketch.lcdTask r s3).
  set (s5 := Sketch.logTask r s4).
  destruct (ecgTask_effect r sys)
    as (A1 & A2 & A3 & A4 & A5 & A6 & A7 & A8 & A9 & A10 & A11).
  destruct (respTask_effect r s1)
    as (B1 & B2 & B3 & B4 & B5 & B6 & B7 & B8 & B9 & B10).
  destruct (gsrTask_effect r s2)
    as (C1 & C2 & C3 & C4 & C5 & C6 & C7 & C8 & C9).
  destruct (lcdTask_effect r s3)
    as (D1 & D2 & D3 & D4 & D5 & D6 & D7 & D8 & D9).
  destruct (logTask_effect r s4)
    as (E1 & E2 & E3 & E4 & E5 & E6 & E7 & E8).
  destruct (buttonTask_effect r s5)
    as (F1 & F2 & F3 & F4 & F5 & F6 & F7 & F8).
  fold s1 in A1, A2, A3, A4, A5, A6, A7, A8, A9, A10, A11.
  fold s2 in B1, B2, B3, B4, B5, B6, B7, B8, B9, B10.
  fold s3 in C1, C2, C3, C4, C5, C6, C7, C8, C9.
  fold s4 in D1, D2, D3, D4, D5, D6, D7, D8, D9.
  fold s5 in E1, E2, E3, E4, E5, E6, E7, E8.
  assert (He : Sketch.ecgProc (Sketch.buttonTask r s5) = Sketch.ecgProc s4)
    by congruence.
  assert (Hp : Sketch.respProc (Sketch.buttonTask r s5) = Sketch.respProc s4)
    by congruence.
  assert (Hg : Sketch.gsrProc (Sketch.buttonTask r s5) = Sketch.gsrProc s4)
    by congruence.
  assert (Hl : Sketch.lastDataLog s4 = Sketch.lastDataLog sys) by congruence.
  rewrite He, Hp, Hg.
  split; [congruence|]. split; [congruence|].
  split; [rewrite D3, C3, B3; exact A3|].
  split; [rewrite D4, C4, B4, A9, A4 in *; reflexivity|].
  split; [rewrite D5, C5, B9, A10, B5, A5; reflexivity|].
  split.
  { assert (Hd : Sketch.displayMode s5 = Sketch.displayMode sys)
      by congruence.
    rewrite F6, Hd. reflexivity. }
  split.
  - rewrite F7, E7, Hl, D7, C7, B7, A7. reflexivity.
  - rewrite F8, E8, Hl, D8, C8, B8, A8. reflexivity.
Qed.

Lemma step_looping (r : Sketch.Readings) (sys : Sketch.System) :
  Sketch.control sys = Sketch.Looping ->
  Sketch.step r sys = Sketch.loop r sys.
Proof. intros H. unfold Sketch.step. rewrite H. reflexivity. Qed.

Lemma exec_snoc (rs : list Sketch.Readings) (r : Sketch.Readings)
  (sys : Sketch.System) :
  Sketch.exec (rs ++ [r]) sys = Sketch.step r (Sketch.exec rs sys).
Proof. unfold Sketch.exec. rewrite fold_left_app. reflexivity. Qed.

Lemma exec_looping (rs : list Sketch.Readings) (sys : Sketch.System) :
  Sketch.control sys = Sketch.Looping ->
  Sketch.control (Sketch.exec rs sys) = Sketch.Looping
  /\ Sketch.sessionStartTime (Sketch.exec rs sys)
     = Sketch.sessionStartTime sys.
Proof.
  intros H. induction rs as [|r l IH] using rev_ind; [split; [exact H|reflexivity]|].
  destruct IH as [IH1 IH2].
  rewrite exec_snoc, (step_looping _ _ IH1).
  destruct (loop_effect r (Sketch.exec l sys)) as (Hc & Hs & _).
  rewrite Hc, Hs. split; assumption.
Qed.

(** X13.  Nothing is sampled before the session starts.  Until [setup]
    has returned (the card initialised and the mode button pressed), the
    three extractors are in their reset state whatever the inputs read,
    nothing has been written to the serial port, and the log file is empty
    or holds the header line alone; once [loop] runs, control never leaves
    it. *)
Theorem sketch_start_order (rs : list Sketch.Readings) :
  let sys := Sketch.exec rs Sketch.boot in
  (Sketch.control sys <> Sketch.Looping ->
   Sketch.core sys = (ECG.init, Resp.init, GSR.init)
   /\ Sketch.serial sys = []
   /\ Sketch.undefined sys = []
   /\ Sketch.displayMode sys = 0
   /\ (Sketch.vitals sys = [] \/ Sketch.vitals sys = [Sketch.Header]))
  /\ (forall more : list Sketch.Readings,
        Sketch.control sys = Sketch.Looping ->
        Sketch.control (Sketch.exec (rs ++ more) Sketch.boot)
        = Sketch.Looping
        /\ Sketch.sessionStartTime (Sketch.exec (rs ++ more) Sketch.boot)
           = Sketch.sessionStartTime sys).
Proof.
  cbv zeta. split.
  - induction rs as [|r l IH] using rev_ind.
    + intros _. repeat split. left. reflexivity.
    + rewrite exec_snoc. unfold Sketch.step.
      destruct (Sketch.control (Sketch.exec l Sketch.boot)) eqn:Hc.
      * destruct IH as (H1 & H2 & H3 & H4 & H5); [discriminate|].
        intros _. unfold Sketch.core in *.
        destruct (Sketch.sdBegin r); sketch_fields;
          (split; [exact H1|]); (split; [exact H2|]);
          (split; [exact H3|]); (split; [exact H4|]).
        -- destruct (Sketch.sdOpen r); [right|left]; reflexivity.
        -- exact H5.
      * intros _. apply IH. discriminate.
      * destruct IH as (H1 & H2 & H3 & H4 & H5); [discriminate|].
        destruct (Sketch.buttonMode r =? Sketch.HIGH).
        -- intros _. repeat split; assumption.
        -- sketch_fields. intros H. exfalso. apply H. reflexivity.
      * intros H. exfalso. apply H.
        destruct (loop_effect r (Sketch.exec l Sketch.boot)) as (Hk & _).
        rewrite Hk. exact Hc.
  - intros more H. unfold Sketch.exec. rewrite fold_left_app.
    apply exec_looping. exact H.
Qed.

(** Past the creation of the file, a run appends to the log and to the
    serial port and never rewrites them. *)
Lemma exec_log_append (rs : list Sketch.Readings)
  (sys : Sketch.System) :
  Sketch.control sys <> Sketch.Setup ->
  exists (rows : list Sketch.Row) (lines : list Sketch.SerialLine),
    Sketch.vitals (Sketch.exec rs sys) = Sketch.vitals sys ++ rows
    /\ Sketch.serial (Sketch.exec rs sys) = Sketch.serial sys ++ lines
    /\ (length rows <= length lines <= length rs)%nat
    /\ Forall isVitals rows
    /\ Sketch.control (Sketch.exec rs sys) <> Sketch.Setup.
Proof.
  intros Hc. induction rs as [|r l IH] using rev_ind.
  - exists [], []. rewrite !app_nil_r. cbn [length].
    repeat split; try lia; [constructor | exact Hc].
  - destruct IH as (rows & lines & Hv & Hs & Hlen & Hrows & Hc').
    rewrite exec_snoc, length_app. cbn [length]. unfold Sketch.step.
    destruct (Sketch.control (Sketch.exec l sys)) eqn:Hk;
      [congruence | | |].
    + exists rows, lines. rewrite Hk.
      repeat split; try assumption; try lia; discriminate.
    + destruct (Sketch.buttonMode r =? Sketch.HIGH).
      * exists rows, lines. rewrite Hk.
        repeat split; try assumption; try lia; discriminate.
      * exists rows, lines. sketch_fields.
        repeat split; try assumption; try lia; discriminate.
    + destruct (loop_effect r (Sketch.exec l sys))
        as (Hk' & _ & _ & _ & _ & _ & Hvit & Hser).
      rewrite Hk', Hk, Hvit, Hser, Hv, Hs.
      destruct (Sketch.due _ _ Sketch.DATA_LOG_INTERVAL); cbn [andb].
      * destruct (Sketch.sdOpen r).
        -- eexists (rows ++ [_]), (lines ++ [_]).
           rewrite !app_assoc, !length_app. cbn [length].
           repeat split; try lia; try discriminate.
           apply Forall_app. split; [exact Hrows|].
           repeat constructor.
        -- exists rows. eexists (lines ++ [_]).
           rewrite !app_assoc, !length_app. cbn [length].
           repeat split; try lia; try discriminate. exact Hrows.
      * exists rows, lines.
        repeat split; try assumption; try lia; discriminate.
Qed.

(** X14.  The log file only grows.  From any state past the creation of
    the file, every run leaves the rows and the serial lines written so
    far in place, in order, and appends at most one row and one serial
    line per pass; the appended rows are data rows, so the header line is
    never written again.  A step outside [loop], or a pass through [loop]
    in which the log is not due, writes nothing. *)
Theorem sketch_log_append_only (rs : list Sketch.Readings)
  (r : Sketch.Readings) (sys : Sketch.System) :
  Sketch.control sys <> Sketch.Setup ->
  (exists (rows : list Sketch.Row) (lines : list Sketch.SerialLine),
     Sketch.vitals (Sketch.exec rs sys) = Sketch.vitals sys ++ rows
     /\ Sketch.serial (Sketch.exec rs sys) = Sketch.serial sys ++ lines
     /\ (length rows <= length lines <= length rs)%nat
     /\ Forall isVitals rows
     /\ Sketch.control (Sketch.exec rs sys) <> Sketch.Setup)
  /\ (Sketch.due (Sketch.now r) (Sketch.lastDataLog sys)
                  Sketch.DATA_LOG_INTERVAL = false
       \/ Sketch.control sys <> Sketch.Looping ->
       Sketch.vitals (Sketch.step r sys) = Sketch.vitals sys
       /\ Sketch.serial (Sketch.step r sys) = Sketch.serial sys).
Proof.
  intros Hc. split; [apply exec_log_append; exact Hc|].
  intros Hq. unfold Sketch.step.
  destruct (Sketch.control sys) eqn:Hk; [congruence | | |].
  - split; reflexivity.
  - destruct (_ =? _); sketch_fields; split; reflexivity.
  - destruct Hq as [Hq|Hq]; [|congruence].
    destruct (loop_effect r sys) as (_ & _ & _ & _ & _ & _ & Hv & Hs).
    rewrite Hq in Hv, Hs. cbn [andb] in Hv. split; assumption.
Qed.



End Scheduler.

Lemma sketch_start_order_witness :
  Sketch.control (@Sketch.exec sampleTarget [cardMissing 5; allDue 9]
                    Sketch.boot) <> Sketch.Looping
  /\ Sketch.core (@Sketch.exec sampleTarget [cardMissing 5; allDue 9]
                    Sketch.boot)
     = (ECG.init, Resp.init, GSR.init).
Proof.
  assert (H : Sketch.control (@Sketch.exec sampleTarget
                [cardMissing 5; allDue 9] Sketch.boot) <> Sketch.Looping)
    by (vm_compute; discriminate).
  split; [exact H|].
  destruct (@sketch_start_order sampleTarget [cardMissing 5; allDue 9])
    as [Hs _].
  destruct (Hs H) as (Hcore & _). exact Hcore.
Defined.

Lemma sketch_log_append_only_witness :
  Sketch.control (@Sketch.exec sampleTarget [allDue 5; allDue 9] Sketch.boot)
  <> Sketch.Setup
  /\ exists rows lines,
       Sketch.vitals (@Sketch.exec sampleTarget [allDue 2000]
                        (@Sketch.exec sampleTarget [allDue 5; allDue 9]
                           Sketch.boot))
       = Sketch.vitals (@Sketch.exec sampleTarget [allDue 5; allDue 9]
                          Sketch.boot) ++ rows
       /\ Sketch.serial (@Sketch.exec sampleTarget [allDue 2000]
                           (@Sketch.exec sampleTarget [allDue 5; allDue 9]
                              Sketch.boot))
          = Sketch.serial (@Sketch.exec sampleTarget [allDue 5; allDue 9]
                             Sketch.boot) ++ lines
       /\ (length rows <= length lines <= 1)%nat.
Proof.
  assert (H : Sketch.control (@Sketch.exec sampleTarget [allDue 5; allDue 9]
                                Sketch.boot) <> Sketch.Setup)
    by (vm_compute; discriminate).
  split; [exact H|].
  destruct (@sketch_log_append_only sampleTarget [allDue 2000]
              (allDue 2000) _ H)
    as ((rows & lines & H1 & H2 & H3 & _) & _).
  exists rows, lines. repeat split; try assumption; apply H3.
Defined.



Section HeaderlessLog.
Context {T : Target}.

(** X22.  A log without its header.  When the card initialises but the
    file cannot be opened while [setup] writes the header line, the sketch
    goes on; every row logged afterwards is a data row, so the file never
    gets a header line. *)
Theorem sketch_headerless_log (r : Sketch.Readings)
  (rs : list Sketch.Readings) :
  Sketch.sdBegin r = true -> Sketch.sdOpen r = false ->
  let sys := Sketch.exec (r :: rs) Sketch.boot in
  Forall isVitals (Sketch.vitals sys)
  /\ ~ In Sketch.Header (Sketch.vitals sys)
  /\ Sketch.control sys <> Sketch.SdHalted.
Proof.
  intros Hb Ho. cbv zeta. cbn [Sketch.exec fold_left].
  unfold Sketch.step at 2 4 6. cbn [Sketch.control Sketch.boot].
  rewrite Hb, Ho.
  set (s1 := Sketch.withControl Sketch.WaitButton
               (Sketch.sessionStartTime Sketch.boot) [] Sketch.boot).
  fold (Sketch.exec rs s1).
  destruct (exec_log_append rs s1) as (rows & lines & Hv & _ & _ & Hrows & _);
    [discriminate|].
  change (Sketch.vitals s1) with (@nil Sketch.Row) in Hv.
  cbn [app] in Hv. rewrite Hv.
  split; [exact Hrows|]. split.
  - intros Hin. rewrite Forall_forall in Hrows. exact (Hrows _ Hin).
  - clear. induction rs as [|x l IH] using rev_ind; [discriminate|].
    rewrite exec_snoc. unfold Sketch.step.
    destruct (Sketch.control (Sketch.exec l s1)) eqn:Hc.
    + destruct (Sketch.sdBegin x); sketch_fields; [discriminate|].
      exfalso. clear IH.
      assert (Hn : Sketch.control (Sketch.exec l s1) <> Sketch.Setup).
      { destruct (exec_log_append l s1) as (? & ? & _ & _ & _ & _ & H);
          [discriminate | exact H]. }
      congruence.
    + congruence.
    + destruct (_ =? _); [congruence | discriminate].
    + destruct (loop_effect x (Sketch.exec l s1)) as (Hk & _).
      rewrite Hk, Hc. discriminate.
Qed.

End HeaderlessLog.

Lemma sketch_headerless_log_witness :
  Sketch.sdBegin (openFails 5) = true
  /\ Sketch.sdOpen (openFails 5) = false
  /\ ~ In Sketch.Header
       (Sketch.vitals
          (@Sketch.exec sampleTarget [openFails 5; allDue 9; allDue 2000]
             Sketch.boot)).
Proof.
  split; [reflexivity|]. split; [reflexivity|].
  destruct (@sketch_headerless_log sampleTarget (openFails 5)
              [allDue 9; allDue 2000] eq_refl eq_refl) as (_ & H & _).
  exact H.
Defined.

(** ** The display *)

Section DisplayFacts.
Context {T : Target}.

Lemma exec_displayMode (rs : list Sketch.Readings) :
  0 <= Sketch.displayMode (Sketch.exec rs Sketch.boot) <= 2.
Proof.
  induction rs as [|r l IH] using rev_ind; [cbn; lia|].
  rewrite exec_snoc. unfold Sketch.step.
  destruct (Sketch.control (Sketch.exec l Sketch.boot)).
  - destruct (Sketch.sdBegin r); exact IH.
  - exact IH.
  - destruct (_ =? _); exact IH.
  - destruct (loop_effect r (Sketch.exec l Sketch.boot))
      as (_ & _ & _ & _ & _ & Hd & _).
    rewrite Hd. destruct (_ =? _); [|exact IH].
    rewrite int16_id by lia.
    pose proof (Z.rem_bound_pos (Sketch.displayMode (Sketch.exec l Sketch.boot) + 1) 3).
    lia.
Qed.

(** X16.  The display mode.  Along every run from power-up the display
    mode is 0, 1 or 2, so [updateLCD] always prints one of its three
    screens and never leaves the display cleared; a pass through [loop]
    with the mode button held moves the mode from 0 to 1, from 1 to 2 and
    from 2 back to 0, and a pass with the button released keeps it. *)
Theorem display_mode_cycle (rs : list Sketch.Readings)
  (r : Sketch.Readings) (t : Z) :
  let sys := Sketch.exec rs Sketch.boot in
  0 <= Sketch.displayMode sys <= 2
  /\ Display.updateLCD t sys <> Display.Cleared
  /\ (Sketch.control sys = Sketch.Looping ->
      Sketch.displayMode (Sketch.step r sys)
      = if Sketch.buttonMode r =? Sketch.LOW
        then (Sketch.displayMode sys + 1) mod 3
        else Sketch.displayMode sys).
Proof.
  cbv zeta. pose proof (exec_displayMode rs) as Hd.
  split; [exact Hd|]. split.
  - unfold Display.updateLCD.
    destruct (Sketch.displayMode (Sketch.exec rs Sketch.boot))
      as [|[p|p|]|p]; try discriminate; try lia;
      destruct p; try discriminate; lia.
  - intros Hc. rewrite (step_looping _ _ Hc).
    destruct (loop_effect r (Sketch.exec rs Sketch.boot))
      as (_ & _ & _ & _ & _ & H & _).
    rewrite H. destruct (_ =? _); [|reflexivity].
    rewrite int16_id by lia. apply Z.rem_mod_nonneg; lia.
Qed.

End DisplayFacts.

Lemma display_mode_cycle_witness :
  Sketch.control (@Sketch.exec sampleTarget [allDue 5; allDue 9; allDue 30]
                    Sketch.boot) = Sketch.Looping
  /\ Sketch.displayMode
       (@Sketch.step sampleTarget (allDue 60)
          (@Sketch.exec sampleTarget [allDue 5; allDue 9; allDue 30]
             Sketch.boot)) = 2.
Proof.
  assert (H : Sketch.control (@Sketch.exec sampleTarget
                [allDue 5; allDue 9; allDue 30] Sketch.boot) = Sketch.Looping)
    by (vm_compute; reflexivity).
  split; [exact H|].
  destruct (@display_mode_cycle sampleTarget
              [allDue 5; allDue 9; allDue 30] (allDue 60) 0) as (_ & _ & Hc).
  rewrite (Hc H). vm_compute. reflexivity.
Defined.

(** X17.  The session time on the display.  For clock readings at or
    after the start of the session, the three fields printed by line 454
    are the whole seconds elapsed, split into hours, minutes below 60 and
    seconds below 60, and none of them leaves the [int] range: a 32-bit
    millisecond clock spans less than 1194 hours. *)
Theorem display_time_fields (t start : Z) :
  clock t -> clock start -> start <= t ->
  let e := Display.elapsed t start in
  e = (t - start) / 1000
  /\ 0 <= Display.hours e <= 1193
  /\ 0 <= Display.minutes e < 60
  /\ 0 <= Display.seconds e < 60
  /\ 3600 * Display.hours e + 60 * Display.minutes e + Display.seconds e = e.
Proof.
  intros Ht Hs Hle. unfold clock in *. cbv zeta.
  unfold Display.elapsed, Display.hours, Display.minutes, Display.seconds.
  unfold uint32. rewrite (Z.mod_small (t - start)) by lia.
  set (e := (t - start) / 1000).
  assert (He : 0 <= e <= 4294967).
  { unfold e. split; [apply Z.div_pos; lia|].
    assert ((t - start) / 1000 < 4294968)
      by (apply Z.div_lt_upper_bound; lia).
    lia. }
  assert (Hh : 0 <= e / 3600 <= 1193).
  { split; [apply Z.div_pos; lia|].
    assert (e / 3600 < 1194) by (apply Z.div_lt_upper_bound; lia).
    lia. }
  pose proof (Z.mod_pos_bound e 3600 ltac:(lia)) as Hm.
  pose proof (Z.mod_pos_bound e 60 ltac:(lia)) as Hsec.
  assert (Hmin : 0 <= e mod 3600 / 60 < 60).
  { split; [apply Z.div_pos; lia|]. apply Z.div_lt_upper_bound; lia. }
  rewrite !int16_id by lia.
  split; [reflexivity|]. split; [exact Hh|]. split; [exact Hmin|].
  split; [exact Hsec|].
  pose proof (Z.div_mod e 3600 ltac:(lia)) as E1.
  pose proof (Z.div_mod (e mod 3600) 60 ltac:(lia)) as E2.
  pose proof (Z.mod_pos_bound (e mod 3600) 60 ltac:(lia)) as B2.
  assert (H60 : e mod 60 = (e mod 3600) mod 60).
  { symmetry.
    apply (Z.mod_unique e 60 (60 * (e / 3600) + e mod 3600 / 60));
      [left; exact B2 | lia]. }
  lia.
Qed.

Lemma display_time_fields_witness :
  clock 3725999 /\ clock 0 /\ 0 <= 3725999
  /\ 3600 * Display.hours (Display.elapsed 3725999 0)
     + 60 * Display.minutes (Display.elapsed 3725999 0)
     + Display.seconds (Display.elapsed 3725999 0)
     = Display.elapsed 3725999 0.
Proof.
  assert (H1 : clock 3725999) by (unfold clock; lia).
  assert (H2 : clock 0) by (unfold clock; lia).
  assert (H3 : 0 <= 3725999) by lia.
  split; [exact H1|]. split; [exact H2|]. split; [exact H3|].
  destruct (display_time_fields 3725999 0 H1 H2 H3) as (_ & _ & _ & _ & H).
  exact H.
Defined.

(** ** The LED band *)

Lemma band_thresholds_exact (lo hi : Z) :
  100 <= lo <= 700 -> 100 <= hi <= 700 ->
  let d := Z.quot (hi - lo) 6 in
  Band.delta lo hi = d
  /\ -100 <= d <= 100
  /\ Band.thresholds lo hi
     = [lo + d; lo + 2 * d; lo + 3 * d; lo + 4 * d; lo + 5 * d].
Proof.
  intros Hlo Hhi. cbv zeta.
  assert (Hd : -100 <= Z.quot (hi - lo) 6 <= 100)
    by (Z.to_euclidean_division_equations; lia).
  assert (E : Band.delta lo hi = Z.quot (hi - lo) 6).
  { unfold Band.delta, Band.num_LEDs.
    rewrite (int16_id (hi - lo)) by lia.
    change (int16 (5 + 1)) with 6. apply int16_id. lia. }
  split; [exact E|]. split; [exact Hd|].
  unfold Band.thresholds. rewrite E.
  generalize dependent (Z.quot (hi - lo) 6). intros d Hd _.
  change (Z.to_nat Band.num_LEDs) with 5%nat.
  cbn [Band.thresholdsFrom].
  rewrite (int16_id (lo + d)) by lia.
  rewrite (int16_id (lo + d + d)) by lia.
  rewrite (int16_id (lo + d + d + d)) by lia.
  rewrite (int16_id (lo + d + d + d + d)) by lia.
  rewrite (int16_id (lo + d + d + d + d + d)) by lia.
  repeat (f_equal; try lia).
Qed.

(** X18.  The LED band is a bar.  With the adjustable minimum and maximum
    in the range the sketch maps them to, 100 to 700, the five thresholds
    are the minimum plus one to five times a sixth of the span (the
    quotient truncated).  When the maximum is not below the minimum, a lit
    LED has every LED before it lit as well, so the lit LEDs form a bar
    from the first LED on; when the minimum exceeds the maximum, which the
    sketch allows, the bar is reversed: a lit LED has every LED after it
    lit. *)
Theorem band_leds_bar (reading lo hi : Z) (i j : nat) :
  100 <= lo <= 700 -> 100 <= hi <= 700 ->
  (i <= j < 5)%nat ->
  let leds := Band.leds reading lo hi in
  length leds = 5%nat
  /\ (lo <= hi -> nth j leds false = true -> nth i leds false = true)
  /\ (hi <= lo -> nth i leds false = true -> nth j leds false = true)
  /\ (nth i leds false = true <->
      reading > lo + (Z.of_nat i + 1) * Z.quot (hi - lo) 6).
Proof.
  intros Hlo Hhi Hij. cbv zeta.
  destruct (band_thresholds_exact lo hi Hlo Hhi) as (_ & Hd & Ht).
  unfold Band.leds. rewrite Ht.
  set (d := Z.quot (hi - lo) 6) in *.
  assert (Hsign : (lo <= hi -> 0 <= d) /\ (hi <= lo -> d <= 0)).
  { unfold d. split; intros H; Z.to_euclidean_division_equations; lia. }
  destruct Hsign as [Hup Hdown].
  cbn [map length]. split; [reflexivity|].
  assert (Hnth : forall k : nat, (k < 5)%nat ->
            nth k [reading >? lo + d; reading >? lo + 2 * d;
                   reading >? lo + 3 * d; reading >? lo + 4 * d;
                   reading >? lo + 5 * d] false
            = (reading >? lo + (Z.of_nat k + 1) * d)).
  { intros k Hk.
    destruct k as [|[|[|[|[|k]]]]]; try lia; cbn [nth]; f_equal; lia. }
  rewrite (Hnth i), (Hnth j) by lia.
  rewrite !Z.gtb_lt.
  split; [|split; [|lia]].
  - intros H Hj. specialize (Hup H). nia.
  - intros H Hi. specialize (Hdown H). nia.
Qed.

Lemma band_leds_bar_witness :
  100 <= 400 <= 700 /\ 100 <= 700 <= 700 /\ (1 <= 2 < 5)%nat
  /\ nth 1 (Band.leds 560 400 700) false = true.
Proof.
  assert (H1 : 100 <= 400 <= 700) by lia.
  assert (H2 : 100 <= 700 <= 700) by lia.
  assert (H3 : (1 <= 2 < 5)%nat) by lia.
  split; [exact H1|]. split; [exact H2|]. split; [exact H3|].
  destruct (band_leds_bar 560 400 700 1 2 H1 H2 H3) as (_ & Hbar & _).
  apply Hbar; [lia | vm_compute; reflexivity].
Defined.

(** ** Cardiac runs and the peak detector *)

Section CardiacMore.
Context {T : Target}.

(** X20.  A cardiac run on converter readings is defined.  Whatever the
    lead inputs and the clock, a run from reset on 10-bit converter
    readings performs no division by zero and no out-of-range conversion
    to [int], and the running minimum and maximum stay converter
    readings. *)
Theorem ecg_run_no_fault (inputs : list (Z * Z * Z * Z)) :
  Forall (fun i => adc (snd (fst i))) inputs ->
  let m := runECG inputs ECG.init in
  faults m = []
  /\ adc (ECG.signalMin (value m))
  /\ adc (ECG.signalMax (value m))
  /\ 0 <= ECG.bufferIndex (value m) < 100
  /\ rrRing (value m).
Proof.
  intros Hin. cbv zeta.
  destruct (ecg_run_defined inputs ECG.init Hin ecg_init_adc)
    as ((Hring & Hmin & Hmax & Hidx) & Hf).
  repeat split; try assumption; try apply Hmin; try apply Hmax;
    try apply Hidx; apply Hring.
Qed.

Lemma ecg_updateThreshold_peak (s : ECG.ECGProcessor) :
  let s' := value (ECG.updateThreshold s) in
  ECG.inPeak s' = ECG.inPeak s
  /\ ECG.peakValue s' = ECG.peakValue s
  /\ ECG.lastPeakTime s' = ECG.lastPeakTime s
  /\ ECG.rrIntervals s' = ECG.rrIntervals s
  /\ ECG.rrIndex s' = ECG.rrIndex s
  /\ ECG.currentHeartRate s' = ECG.currentHeartRate s.
Proof.
  cbv zeta. unfold ECG.updateThreshold.
  destruct (ECG.bufferIndex s =? 0); [|repeat split].
  rewrite !value_bind. change (value (ret ?x)) with x. ecg_fields.
  repeat split.
Qed.

(** X21.  Intervals are formed at peak exits only.  A call made with the
    leads on while the detector is outside a peak leaves the time of the
    last peak, the interval ring, its cursor and the heart rate as they
    were, and enters a peak exactly when the sample exceeds the threshold.
    A call that leaves a peak stamps the time of the last peak with the
    clock reading, and its sample is below the threshold; so the call that
    enters a peak is never the call that leaves it. *)
Theorem ecg_quiet_outside_peak (rawValue now : Z) (s : ECG.ECGProcessor) :
  let s1 := value (ECG.updateThreshold (ECG.pushSample rawValue s)) in
  let s' := value (ECG.processECGSample 0 0 rawValue now s) in
  (ECG.inPeak s = false ->
   ECG.lastPeakTime s' = ECG.lastPeakTime s
   /\ ECG.rrIntervals s' = ECG.rrIntervals s
   /\ ECG.rrIndex s' = ECG.rrIndex s
   /\ ECG.currentHeartRate s' = ECG.currentHeartRate s
   /\ ECG.inPeak s' = (rawValue >? ECG.peakThreshold s1)
   /\ (ECG.inPeak s' = true -> ECG.peakValue s' = rawValue))
  /\ (ECG.inPeak s = true -> ECG.inPeak s' = false ->
      ECG.lastPeakTime s' = now
      /\ rawValue < ECG.peakThreshold s'
      /\ rawValue <= ECG.peakValue s).
Proof.
  cbv zeta. unfold ECG.processECGSample. cbn [Z.eqb orb].
  rewrite value_bind.
  destruct (ecg_updateThreshold_peak (ECG.pushSample rawValue s))
    as (U1 & U2 & U3 & U4 & U5 & U6).
  ecg_fields.
  set (s1 := value (ECG.updateThreshold (ECG.pushSample rawValue s))) in *.
  rewrite <- U1, <- U2, <- U3, <- U4, <- U5, <- U6.
  generalize s1. clear. intros s.
  unfold ECG.detectPeak. split.
  - intros Hin. rewrite Hin. cbn [negb]. rewrite andb_true_r.
    destruct (rawValue >? ECG.peakThreshold s) eqn:Hgt.
    + change (value (ret ?x)) with x. ecg_fields. repeat split.
    + change (value (ret ?x)) with x. repeat split; try assumption.
      intros H. congruence.
  - intros Hin. rewrite Hin. cbn [negb]. rewrite andb_false_r.
    destruct (Z.gtb_spec rawValue (ECG.peakValue s)) as [Hgt|Hle].
    + change (value (ret ?x)) with x. ecg_fields. discriminate.
    + destruct (Z.ltb_spec rawValue (ECG.peakThreshold s)) as [Hlt|Hge].
      * intros _. unfold ECG.peakComplete. rewrite value_bind.
        change (value (ret ?x)) with x. ecg_fields.
        split; [reflexivity|]. split; [|exact Hle].
        destruct (ECG.lastPeakTime s >? 0);
          [|change (value (ret ?x)) with x; exact Hlt].
        unfold ECG.admitInterval.
        destruct (ECG.rrValid _);
          [|change (value (ret ?x)) with x; exact Hlt].
        rewrite value_bind. change (value (ret ?x)) with x. ecg_fields.
        exact Hlt.
      * change (value (ret ?x)) with x. congruence.
Qed.

End CardiacMore.

Lemma ecg_run_no_fault_witness :
  Forall (fun i => adc (snd (fst i)))
         [(0, 0, 700, 1000); (0, 0, 500, 1010); (1, 0, 512, 1020)]
  /\ faults (@runECG sampleTarget
               [(0, 0, 700, 1000); (0, 0, 500, 1010); (1, 0, 512, 1020)]
               ECG.init) = [].
Proof.
  assert (H : Forall (fun i => adc (snd (fst i)))
                [(0, 0, 700, 1000); (0, 0, 500, 1010); (1, 0, 512, 1020)])
    by (repeat constructor; cbn; lia).
  split; [exact H|].
  destruct (@ecg_run_no_fault sampleTarget _ H) as (Hf & _). exact Hf.
Defined.

Lemma ecg_quiet_outside_peak_witness :
  ECG.inPeak ecgInPeak = true
  /\ ECG.inPeak (value (@ECG.processECGSample sampleTarget 0 0 500 1800
                          ecgInPeak)) = false
  /\ ECG.lastPeakTime (value (@ECG.processECGSample sampleTarget 0 0 500 1800
                                ecgInPeak)) = 1800.
Proof.
  assert (H1 : ECG.inPeak ecgInPeak = true) by reflexivity.
  assert (H2 : ECG.inPeak (value (@ECG.processECGSample sampleTarget 0 0 500
                                    1800 ecgInPeak)) = false)
    by (vm_compute; reflexivity).
  split; [exact H1|]. split; [exact H2|].
  destruct (@ecg_quiet_outside_peak sampleTarget 500 1800 ecgInPeak)
    as (_ & Hexit).
  destruct (Hexit H1 H2) as (Ht & _). exact Ht.
Defined.
